(** * Balance and blockchain operators of the eth-like coin family

    A shallow embedding of [EthBalanceAndOutputsOperator], [EthNodeOperator]
    and [EthBlockchainOperator] (eth-node-operator.ts,
    eth-blockchain-operator.ts): the per-address balance fetch, the
    aggregation per wallet, the reconciliation of the published wallet list,
    the balance cache, the scheduling of the refresh cycles, the version of
    the node and the polling of the synchronization state. *)

From Equations Require Import Equations.
From Stdlib Require Import ZArith QArith Qcanon Qround Ascii String HexString Lia.
From stdpp Require Import gmap strings list fin_maps numbers.

Local Open Scope Z_scope.
#[local] Set Warnings "-clear-no-such-hyp".

(** ** Numbers: the parts of bignumber.js and of JS numbers the operators use *)

Module BigNum.

(** A [BigNumber] is an arbitrary-precision decimal, or NaN. Every finite
    value the operators build is a rational; [None] is NaN. *)
Definition BigNumber : Type := option Qc.

Definition NaN : BigNumber := None.
Definition ofZ (z : Z) : BigNumber := Some (Qc_of_Z z).
Definition zero : BigNumber := ofZ 0.

(** A JS [number] holding an integer (a block height), or NaN. *)
Definition number : Type := option Z.

(** [String.prototype.substr(n)]: the text from position [n] on. *)
Fixpoint substr (n : nat) (s : string) : string :=
  match n, s with
  | O, _ => s
  | S n', String _ s' => substr n' s'
  | S _, EmptyString => EmptyString
  end.

(** Classes of characters, by code unit. [isSpace] is the class [\s] of JS
    regular expressions and [isWord] the class [\w], on code units below
    256. *)
Definition isLower (ch : ascii) : bool :=
  (97 <=? N_of_ascii ch)%N && (N_of_ascii ch <=? 122)%N.
Definition isUpper (ch : ascii) : bool :=
  (65 <=? N_of_ascii ch)%N && (N_of_ascii ch <=? 90)%N.
Definition isWord (ch : ascii) : bool :=
  isLower ch || isUpper ch
  || ((48 <=? N_of_ascii ch)%N && (N_of_ascii ch <=? 57)%N)
  || (N_of_ascii ch =? 95)%N.
Definition isSpace (ch : ascii) : bool :=
  ((9 <=? N_of_ascii ch)%N && (N_of_ascii ch <=? 13)%N)
  || (N_of_ascii ch =? 32)%N || (N_of_ascii ch =? 160)%N.

Fixpoint anyChar (p : ascii → bool) (s : string) : bool :=
  match s with
  | EmptyString => false
  | String ch s' => p ch || anyChar p s'
  end.

(** [str == str.toUpperCase() || str == str.toLowerCase()] on a text of
    digits and letters: its letters are of one case. *)
Definition oneCase (s : string) : bool :=
  negb (anyChar isLower s) || negb (anyChar isUpper s).

(** Value of a run of hexadecimal digits, most significant first, the
    letters in either case. *)
Fixpoint digitsValue (s : string) (acc : N) : option N :=
  match s with
  | EmptyString => Some acc
  | String ch s' =>
      match HexString.ascii_to_digit ch with
      | Some v => digitsValue s' (v + 16 * acc)%N
      | None => None
      end
  end.

(** The digits the constructor of [BigNumber] accepts in base 16: a run of
    hexadecimal digits whose letters are all in lower case or all in upper
    case ([ff] and [FF], not [fF]). The empty run is accepted, with value
    0. *)
Definition hexDigits (s : string) (acc : N) : option N :=
  if oneCase s then digitsValue s acc else None.

(** The constructor before it falls back on [parseNumeric]: an optional
    minus sign, then the digits. *)
Definition signedDigits (v : string) : option Z :=
  match v with
  | String ch str =>
      if Ascii.eqb ch "-" then (λ n, - Z.of_N n) <$> hexDigits str 0%N
      else Z.of_N <$> hexDigits v 0%N
  | EmptyString => Z.of_N <$> hexDigits v 0%N
  end.

(** What [parseNumeric] removes before it calls the constructor again:
    the blanks before the text, a plus sign that a word character or a
    point follows, and the blanks after the text. *)
Fixpoint dropSpaces (s : string) : string :=
  match s with
  | String ch s' => if isSpace ch then dropSpaces s' else s
  | EmptyString => s
  end.

Definition dropPlus (s : string) : string :=
  match s with
  | String plus (String ch s') =>
      if Ascii.eqb plus "+" && (isWord ch || Ascii.eqb ch ".") then String ch s' else s
  | _ => s
  end.

Fixpoint dropTrailingSpaces (s : string) : string :=
  match s with
  | EmptyString => EmptyString
  | String ch s' =>
      match dropTrailingSpaces s' with
      | EmptyString => if isSpace ch then EmptyString else String ch EmptyString
      | rest => String ch rest
      end
  end.

Definition whitespaceOrPlus (s : string) : string :=
  dropTrailingSpaces (dropPlus (dropSpaces s)).

(** [new BigNumber(text, 16)]: the signed digits of the text; failing
    that, the signed digits of the text without the blanks around it and
    the plus sign before it; failing that, NaN. So the empty text is 0 and
    a text with letters of both cases is NaN. The library reads more texts
    as values: with a fraction point (rounded to [DECIMAL_PLACES]), with a
    second prefix 0x, and the word Infinity. A node sends none of them, and
    they are NaN here. *)
Definition fromHex (s : string) : BigNumber :=
  match signedDigits s with
  | Some z => ofZ z
  | None =>
      match signedDigits (whitespaceOrPlus s) with
      | Some z => ofZ z
      | None => NaN
      end
  end.


(** [s] is a run of hexadecimal digits with letters of both cases. *)
Definition mixedCase (s : string) : Prop :=
  is_Some (digitsValue s 0%N) ∧ oneCase s = false.

(** The integer a JS number holds when it is given the integer [z]: [z]
    itself up to 2^53 in size, and beyond that the nearest integer with 53
    significant bits, a tie going to the even one. (From 2^1024 on a JS
    number is Infinity; block heights are far below.) *)
Definition nearestDouble (z : Z) : Z :=
  let a := Z.abs z in
  let e := Z.log2 a - 52 in
  if e <=? 0 then z
  else
    let q := Z.shiftr a e in
    let r := Z.land a (Z.ones e) in
    let half := Z.shiftl 1 (e - 1) in
    let q' := if r <? half then q
              else if half <? r then q + 1
              else if Z.even q then q else q + 1 in
    Z.sgn z * Z.shiftl q' e.

(** [toNumber()] of an integral BigNumber. *)
Definition toNumber (b : BigNumber) : number :=
  match b with
  | Some q =>
      if decide (Qden (this q) = 1%positive) then Some (nearestDouble (Qnum (this q))) else None
  | None => None
  end.

(** [toString(16)] of an integer: lower-case digits, no prefix. *)
Definition toString16 (z : Z) : string :=
  match z with
  | Z0 => "0"
  | Zpos p => HexString.Raw.of_pos p ""
  | Zneg p => String "-" (HexString.Raw.of_pos p "")
  end.

Definition plus (a b : BigNumber) : BigNumber :=
  match a, b with
  | Some x, Some y => Some (x + y)%Qc
  | _, _ => NaN
  end.

(** [isEqualTo]: numeric equality; NaN is equal to nothing. *)
Definition isEqualTo (a b : BigNumber) : bool :=
  match a, b with
  | Some x, Some y => bool_decide (x = y)
  | _, _ => false
  end.

(** [new BigNumber(10).exponentiatedBy(n)] for a natural exponent. *)
Definition pow10 (n : nat) : Z := 10 ^ Z.of_nat n.

(** Rounding to the nearest integer, halves away from zero
    (ROUND_HALF_UP, the default ROUNDING_MODE). *)
Definition roundHalfUp (q : Q) : Z :=
  if Qle_bool 0 q then Qfloor (q + (1 # 2))%Q
  else - Qfloor (- q + (1 # 2))%Q.

(** [x.dividedBy(10^decimals)]: the quotient rounded to [DECIMAL_PLACES]
    decimal places. *)
Definition dividedByPow10 (DECIMAL_PLACES : nat) (x : BigNumber) (decimals : nat) : BigNumber :=
  match x with
  | Some q =>
      let scaled := (this q * inject_Z (pow10 DECIMAL_PLACES) / inject_Z (pow10 decimals))%Q in
      Some (Q2Qc (inject_Z (roundHalfUp scaled) / inject_Z (pow10 DECIMAL_PLACES)))
  | None => NaN
  end.


End BigNum.

Import BigNum.

(** ** Data model *)

(** Modelled from the spec: wallet-objects.ts is not part of the sources at
    hand. The records carry the fields section 3 of the specification lists
    for a wallet and the fields the operators read and write ([id], [coins],
    [addresses], [address]). *)
Module AddressBase.
Record t := mk { address : string }.
End AddressBase.

Module WalletBase.
Record t := mk {
  id : string;
  label : string;
  addresses : list AddressBase.t;
  encrypted : bool;
  walletType : string;
  isHardware : bool }.
End WalletBase.

Module AddressWithBalance.
Record t := mk { address : string; coins : BigNumber }.
Definition set_coins (c : BigNumber) (a : t) : t := mk (address a) c.
End AddressWithBalance.

Module WalletWithBalance.
Record t := mk {
  id : string;
  label : string;
  addresses : list AddressWithBalance.t;
  encrypted : bool;
  walletType : string;
  isHardware : bool;
  coins : BigNumber }.
Definition set_coins (c : BigNumber) (w : t) : t :=
  mk (id w) (label w) (addresses w) (encrypted w) (walletType w) (isHardware w) c.
Definition set_addresses (l : list AddressWithBalance.t) (w : t) : t :=
  mk (id w) (label w) l (encrypted w) (walletType w) (isHardware w) (coins w).
End WalletWithBalance.

(** Modelled from the spec: [walletWithBalanceFromBase] lives in
    wallet-objects.ts. It returns a new wallet object with the data of the
    base wallet, a new address object per address, and zero balances. *)
Definition addressWithBalanceFromBase (a : AddressBase.t) : AddressWithBalance.t :=
  AddressWithBalance.mk (AddressBase.address a) zero.

Definition walletWithBalanceFromBase (w : WalletBase.t) : WalletWithBalance.t :=
  WalletWithBalance.mk (WalletBase.id w) (WalletBase.label w)
    (addressWithBalanceFromBase <$> WalletBase.addresses w)
    (WalletBase.encrypted w) (WalletBase.walletType w) (WalletBase.isHardware w) zero.

(** Balance of an address, for internal use. *)
Module AddressBalance.
Record t := mk { current : BigNumber; predicted : BigNumber }.
Definition new : t := mk zero zero.
End AddressBalance.

(** A JS [Map] from addresses to balances. A key is a string or
    [undefined] ([None]): the fetch protocol can store under [undefined]. *)
Abbreviation AddressMap := (gmap (option string) AddressBalance.t).

(** Balance of a wallet, for internal use. *)
Module WalletBalance.
Record t := mk {
  current : BigNumber;
  predicted : BigNumber;
  addresses : AddressMap }.
Definition new : t := mk zero zero ∅.
End WalletBalance.

(** The coin descriptor: the fields the operators read. [decimals] is the
    field of the coin's [EthCoinConfig]. *)
Record EthCoinConfig := { decimals : nat }.
Record Coin := {
  isLocal : bool;
  nodeUrl : string;
  confirmationsNeeded : Z;
  config : EthCoinConfig }.

(** ** The node *)

(** A call of [EthApiService.callRpcMethod]: url, method name and positional
    parameters (each a string or [undefined]). *)
Record RpcRequest := {
  req_url : string;
  req_method : string;
  req_params : list (option string) }.

(** The results the operators handle. *)
Inductive RpcResult :=
| RString (s : string)
| RBool (b : bool)
| RSyncing (currentBlock highestBlock : string).

(** A node answers a request with a result, or the request fails. *)
Definition Node := RpcRequest → option RpcResult.

(** Computations that talk to the node: they read the node, record the
    requests they make in order, and stop at the first failure. *)
Definition Rpc (A : Type) : Type := Node → option A * list RpcRequest.

Definition rpc_ret {A} (a : A) : Rpc A := λ _, (Some a, []).
Definition rpc_fail {A} : Rpc A := λ _, (None, []).
Definition rpc_bind {A B} (m : Rpc A) (f : A → Rpc B) : Rpc B :=
  λ node,
    match m node with
    | (Some a, log) => let '(r, log') := f a node in (r, log ++ log')
    | (None, log) => (None, log)
    end.

Notation "x ←ᵣ m ; f" := (rpc_bind m (λ x, f))
  (at level 20, m at level 100, f at level 200, only parsing).

Definition callRpcMethod (url method : string) (params : list (option string)) : Rpc RpcResult :=
  λ node, let r := {| req_url := url; req_method := method; req_params := params |} in
          (node r, [r]).

(** [(response as string).substr(2)]: on a result that is not a string the
    method call throws, which fails the observable. *)
Definition asString (r : RpcResult) : Rpc string :=
  match r with
  | RString s => rpc_ret s
  | _ => rpc_fail
  end.

(** ** The balance operator's state *)

(** References to the objects the operator shares: wallet arrays, [Map]
    objects and rxjs subscriptions. *)
Definition loc := nat.

(** A subscription made by [startDataRefreshSubscription]: it waits in
    [delay], or its network pass waits for the node, or it is closed
    (unsubscribed, or done). [Requesting] holds the copies of the wallets as
    [refreshBalances] made them when the pass began. *)
Inductive Phase :=
| Delaying (delayMs : Z) (updateWalletsFirst : bool)
| Requesting (temporalWallets : list WalletWithBalance.t)
| Closed.

(** The subjects, each as the list of the values it has emitted, oldest
    first. A [BehaviorSubject] starts at [false]; its [value] is the last
    value emitted. *)
Record Subjects := {
  walletsWithBalanceSubject : list (option loc);
  lastBalancesUpdateTimeSubject : nat;
  hasPendingTransactionsSubject : list bool;
  firstFullUpdateMadeSubject : list bool;
  hadErrorRefreshingBalanceSubject : list bool;
  refreshingBalanceSubject : list bool }.

Definition value (subject : list bool) : bool := default false (list.last subject).

Record Operator := {
  (* memory *)
  arrays : gmap loc (list WalletWithBalance.t);
  balanceMaps : gmap loc (gmap string WalletBalance.t);
  subscriptions : gmap loc Phase;
  (* fields of the class *)
  subjects : Subjects;
  walletsWithBalanceList : option loc;
  dataRefreshSubscription : option loc;
  updatePeriod : Z;
  errorUpdatePeriod : Z;
  savedBalanceData : loc;
  temporalSavedBalanceData : loc;
  savedWalletsList : option (list WalletBase.t) }.

Definition set_arrays v (o : Operator) : Operator :=
  Build_Operator v (balanceMaps o) (subscriptions o) (subjects o) (walletsWithBalanceList o)
    (dataRefreshSubscription o) (updatePeriod o) (errorUpdatePeriod o) (savedBalanceData o)
    (temporalSavedBalanceData o) (savedWalletsList o).
Definition set_balanceMaps v (o : Operator) : Operator :=
  Build_Operator (arrays o) v (subscriptions o) (subjects o) (walletsWithBalanceList o)
    (dataRefreshSubscription o) (updatePeriod o) (errorUpdatePeriod o) (savedBalanceData o)
    (temporalSavedBalanceData o) (savedWalletsList o).
Definition set_subscriptions v (o : Operator) : Operator :=
  Build_Operator (arrays o) (balanceMaps o) v (subjects o) (walletsWithBalanceList o)
    (dataRefreshSubscription o) (updatePeriod o) (errorUpdatePeriod o) (savedBalanceData o)
    (temporalSavedBalanceData o) (savedWalletsList o).
Definition set_subjects v (o : Operator) : Operator :=
  Build_Operator (arrays o) (balanceMaps o) (subscriptions o) v (walletsWithBalanceList o)
    (dataRefreshSubscription o) (updatePeriod o) (errorUpdatePeriod o) (savedBalanceData o)
    (temporalSavedBalanceData o) (savedWalletsList o).
Definition set_walletsWithBalanceList v (o : Operator) : Operator :=
  Build_Operator (arrays o) (balanceMaps o) (subscriptions o) (subjects o) v
    (dataRefreshSubscription o) (updatePeriod o) (errorUpdatePeriod o) (savedBalanceData o)
    (temporalSavedBalanceData o) (savedWalletsList o).
Definition set_dataRefreshSubscription v (o : Operator) : Operator :=
  Build_Operator (arrays o) (balanceMaps o) (subscriptions o) (subjects o) (walletsWithBalanceList o)
    v (updatePeriod o) (errorUpdatePeriod o) (savedBalanceData o)
    (temporalSavedBalanceData o) (savedWalletsList o).
Definition set_savedBalanceData v (o : Operator) : Operator :=
  Build_Operator (arrays o) (balanceMaps o) (subscriptions o) (subjects o) (walletsWithBalanceList o)
    (dataRefreshSubscription o) (updatePeriod o) (errorUpdatePeriod o) v
    (temporalSavedBalanceData o) (savedWalletsList o).
Definition set_temporalSavedBalanceData v (o : Operator) : Operator :=
  Build_Operator (arrays o) (balanceMaps o) (subscriptions o) (subjects o) (walletsWithBalanceList o)
    (dataRefreshSubscription o) (updatePeriod o) (errorUpdatePeriod o) (savedBalanceData o)
    v (savedWalletsList o).
Definition set_savedWalletsList v (o : Operator) : Operator :=
  Build_Operator (arrays o) (balanceMaps o) (subscriptions o) (subjects o) (walletsWithBalanceList o)
    (dataRefreshSubscription o) (updatePeriod o) (errorUpdatePeriod o) (savedBalanceData o)
    (temporalSavedBalanceData o) v.

(** [subject.next(v)] for each subject. *)
Definition next_walletsWithBalance v (s : Subjects) : Subjects :=
  Build_Subjects (walletsWithBalanceSubject s ++ [v]) (lastBalancesUpdateTimeSubject s)
    (hasPendingTransactionsSubject s) (firstFullUpdateMadeSubject s)
    (hadErrorRefreshingBalanceSubject s) (refreshingBalanceSubject s).
Definition next_lastBalancesUpdateTime (s : Subjects) : Subjects :=
  Build_Subjects (walletsWithBalanceSubject s) (S (lastBalancesUpdateTimeSubject s))
    (hasPendingTransactionsSubject s) (firstFullUpdateMadeSubject s)
    (hadErrorRefreshingBalanceSubject s) (refreshingBalanceSubject s).
Definition next_hasPendingTransactions v (s : Subjects) : Subjects :=
  Build_Subjects (walletsWithBalanceSubject s) (lastBalancesUpdateTimeSubject s)
    (hasPendingTransactionsSubject s ++ [v]) (firstFullUpdateMadeSubject s)
    (hadErrorRefreshingBalanceSubject s) (refreshingBalanceSubject s).
Definition next_firstFullUpdateMade v (s : Subjects) : Subjects :=
  Build_Subjects (walletsWithBalanceSubject s) (lastBalancesUpdateTimeSubject s)
    (hasPendingTransactionsSubject s) (firstFullUpdateMadeSubject s ++ [v])
    (hadErrorRefreshingBalanceSubject s) (refreshingBalanceSubject s).
Definition next_hadErrorRefreshingBalance v (s : Subjects) : Subjects :=
  Build_Subjects (walletsWithBalanceSubject s) (lastBalancesUpdateTimeSubject s)
    (hasPendingTransactionsSubject s) (firstFullUpdateMadeSubject s)
    (hadErrorRefreshingBalanceSubject s ++ [v]) (refreshingBalanceSubject s).
Definition next_refreshingBalance v (s : Subjects) : Subjects :=
  Build_Subjects (walletsWithBalanceSubject s) (lastBalancesUpdateTimeSubject s)
    (hasPendingTransactionsSubject s) (firstFullUpdateMadeSubject s)
    (hadErrorRefreshingBalanceSubject s) (refreshingBalanceSubject s ++ [v]).

(** Reading and writing the objects in memory. *)
Definition readArray (o : Operator) (l : loc) : list WalletWithBalance.t :=
  default [] (arrays o !! l).
Definition readMap (o : Operator) (l : loc) : gmap string WalletBalance.t :=
  default ∅ (balanceMaps o !! l).

(** Computations on the operator: they change its state and may fail (a
    failed node request, an exception), keeping the changes made so far. *)
Definition Op (A : Type) : Type := Operator → option A * Operator.

Definition op_ret {A} (a : A) : Op A := λ o, (Some a, o).
Definition op_bind {A B} (m : Op A) (f : A → Op B) : Op B :=
  λ o, match m o with
       | (Some a, o') => f a o'
       | (None, o') => (None, o')
       end.
Definition op_fail {A} : Op A := λ o, (None, o).
Definition op_get : Op Operator := λ o, (Some o, o).
Definition op_modify (f : Operator → Operator) : Op unit := λ o, (Some tt, f o).
(** A computation on the node, run against [node]. *)
Definition op_rpc {A} (node : Node) (m : Rpc A) : Op A := λ o, (fst (m node), o).

Notation "x ←ₒ m ; f" := (op_bind m (λ x, f))
  (at level 20, m at level 100, f at level 200, only parsing).
Notation "m ;;ₒ f" := (op_bind m (λ _, f))
  (at level 100, f at level 200, right associativity, only parsing).

Fixpoint op_mapM {A B} (f : A → Op B) (l : list A) : Op (list B) :=
  match l with
  | [] => op_ret []
  | a :: l' => b ←ₒ f a; bs ←ₒ op_mapM f l'; op_ret (b :: bs)
  end.

Section Operators.

(** Precision of [dividedBy] (20 unless the library is configured
    otherwise) and the coin the operators work with. *)
Variable DECIMAL_PLACES : nat.
Variable currentCoin : Coin.

(** Text of the block at which the confirmed balance is asked. The height
    enters a [BigNumber] through its decimal text, which has all the digits
    of a height below 10^21; the subtraction is exact. *)
Definition blockForLastConfirmedBalance (currentBlockNumber : number) : string :=
  match currentBlockNumber with
  | Some h =>
      let b := h - (confirmationsNeeded currentCoin - 1) in
      let b := if b <? 0 then 0 else b in
      toString16 b
  | None => "NaN"
  end.

(** The two requests [recursivelyGetBalances] makes for an address, and the
    balance the answers of [node] give; used to state what the function
    does. *)
Definition pendingRequest (a : option string) : RpcRequest :=
  {| req_url := nodeUrl currentCoin; req_method := "eth_getBalance";
     req_params := [a; Some "pending"] |}.

Definition confirmedRequest (currentBlockNumber : number) (a : option string) : RpcRequest :=
  {| req_url := nodeUrl currentCoin; req_method := "eth_getBalance";
     req_params := [a; Some ("0x" +:+ blockForLastConfirmedBalance currentBlockNumber)] |}.

Definition addressBalanceOf (node : Node) (currentBlockNumber : number) (a : option string)
    : option AddressBalance.t :=
  match node (pendingRequest a), node (confirmedRequest currentBlockNumber a) with
  | Some (RString pending), Some (RString confirmed) =>
      Some (AddressBalance.mk
              (dividedByPow10 DECIMAL_PLACES (fromHex (substr 2 confirmed)) (decimals (config currentCoin)))
              (dividedByPow10 DECIMAL_PLACES (fromHex (substr 2 pending)) (decimals (config currentCoin))))
  | _, _ => None
  end.

Definition requestsFor (currentBlockNumber : number) (addresses : list (option string))
    : list RpcRequest :=
  flat_map (λ a, [pendingRequest a; confirmedRequest currentBlockNumber a]) (rev addresses).

(** [recursivelyGetBalances]: the last address of the list is asked for,
    the list loses it, and the function calls itself while addresses
    remain. *)
Equations? recursivelyGetBalances (addresses : list string) (currentBlockNumber : number)
    (currentElements : AddressMap) : Rpc AddressMap
    by wf (length addresses) lt :=
  recursivelyGetBalances addresses currentBlockNumber currentElements :=
    let currentAddress := list.last addresses in
    let decimalsCorrector := decimals (config currentCoin) in
    response ←ᵣ callRpcMethod (nodeUrl currentCoin) "eth_getBalance" [currentAddress; Some "pending"];
    text ←ᵣ asString response;
    let predictedBalance := dividedByPow10 DECIMAL_PLACES (fromHex (substr 2 text)) decimalsCorrector in
    response' ←ᵣ callRpcMethod (nodeUrl currentCoin) "eth_getBalance"
                  [currentAddress; Some ("0x" +:+ blockForLastConfirmedBalance currentBlockNumber)];
    text' ←ᵣ asString response';
    let currentElements' :=
      <[currentAddress :=
          AddressBalance.mk
            (dividedByPow10 DECIMAL_PLACES (fromHex (substr 2 text')) decimalsCorrector)
            predictedBalance]> currentElements in
    match decide (1 < length addresses)%nat with
    | left _ => recursivelyGetBalances (removelast addresses) currentBlockNumber currentElements'
    | right _ => rpc_ret currentElements'
    end.
Proof.
  rewrite removelast_firstn_len, length_firstn. lia.
Qed.


(** The [query] of [retrieveWalletBalance] when the node is asked: the
    height of the chain, the balances of the addresses, and their sums. *)
Definition addBalance (result : AddressMap) (balance : WalletBalance.t)
    (address : AddressWithBalance.t) : WalletBalance.t :=
  let addressBalance :=
    match result !! Some (AddressWithBalance.address address) with
    | Some b => b
    | None => AddressBalance.new
    end in
  WalletBalance.mk
    (plus (WalletBalance.current balance) (AddressBalance.current addressBalance))
    (plus (WalletBalance.predicted balance) (AddressBalance.predicted addressBalance))
    (<[Some (AddressWithBalance.address address) := addressBalance]> (WalletBalance.addresses balance)).

Definition nodeQuery (wallet : WalletWithBalance.t) : Rpc WalletBalance.t :=
  result ←ᵣ callRpcMethod (nodeUrl currentCoin) "eth_blockNumber" [];
  text ←ᵣ asString result;
  let currentBlockNumber := toNumber (fromHex (substr 2 text)) in
  let addresses := AddressWithBalance.address <$> WalletWithBalance.addresses wallet in
  result ←ᵣ recursivelyGetBalances addresses currentBlockNumber ∅;
  rpc_ret (foldl (addBalance result) WalletBalance.new (WalletWithBalance.addresses wallet)).

(** The [query] when the saved data is used. *)
Definition savedQuery (wallet : WalletWithBalance.t) : Op WalletBalance.t :=
  o ←ₒ op_get;
  match readMap o (savedBalanceData o) !! WalletWithBalance.id wallet with
  | Some b => op_ret b
  | None => op_ret WalletBalance.new
  end.

(** The wallet object after the values of [balance] are added to it. *)
Definition addValues (balance : WalletBalance.t) (wallet : WalletWithBalance.t) : WalletWithBalance.t :=
  WalletWithBalance.set_addresses
    ((λ address,
        match WalletBalance.addresses balance !! Some (AddressWithBalance.address address) with
        | Some b => AddressWithBalance.set_coins (AddressBalance.predicted b) address
        | None => AddressWithBalance.set_coins zero address
        end) <$> WalletWithBalance.addresses wallet)
    (WalletWithBalance.set_coins (WalletBalance.predicted balance) wallet).

(** [retrieveWalletBalance]: returns the pending-transaction signal and the
    wallet object as the function leaves it. *)
Definition retrieveWalletBalance (node : Node) (wallet : WalletWithBalance.t)
    (useSavedBalanceData : bool) : Op (bool * WalletWithBalance.t) :=
  balance ←ₒ (if negb useSavedBalanceData then op_rpc node (nodeQuery wallet)
              else savedQuery wallet);
  op_modify (λ o, set_balanceMaps
                    (<[temporalSavedBalanceData o :=
                         <[WalletWithBalance.id wallet := balance]>
                           (readMap o (temporalSavedBalanceData o))]> (balanceMaps o)) o) ;;ₒ
  let wallet' := addValues balance wallet in
  if negb useSavedBalanceData then
    op_ret (negb (isEqualTo (WalletBalance.current balance) (WalletBalance.predicted balance)), wallet')
  else
    o ←ₒ op_get;
    op_ret (value (hasPendingTransactionsSubject (subjects o)), wallet').

(** [informDataUpdated] *)
Definition informDataUpdated : Op unit :=
  op_modify (λ o, set_subjects (next_walletsWithBalance (walletsWithBalanceList o) (subjects o)) o).

(** ** [refreshBalances] *)

(** Lines 326 to 335: the copy of the wallet list and the new temporal map. *)
Definition refreshBalances_begin (wallets : list WalletBase.t)
    (forceQuickCompleteArrayUpdate : bool) : Op (list WalletWithBalance.t) :=
  let temporalWallets := walletWithBalanceFromBase <$> wallets in
  (if negb forceQuickCompleteArrayUpdate then
     op_modify (λ o, let l := fresh (dom (balanceMaps o)) in
                     set_temporalSavedBalanceData l (set_balanceMaps (<[l := ∅]> (balanceMaps o)) o))
   else op_ret tt) ;;ₒ
  op_ret temporalWallets.

(** Lines 337 to 344: [procedure]. The wallets are asked for in the order
    of the list. *)
Definition procedure (node : Node) (temporalWallets : list WalletWithBalance.t)
    (forceQuickCompleteArrayUpdate : bool) : Op (list bool * list WalletWithBalance.t) :=
  match temporalWallets with
  | _ :: _ =>
      r ←ₒ op_mapM (λ wallet, retrieveWalletBalance node wallet forceQuickCompleteArrayUpdate)
             temporalWallets;
      op_ret (fst <$> r, snd <$> r)
  | [] => op_ret ([false], temporalWallets)
  end.

(** Line 363: is there a change in the ids? *)
Fixpoint idsChanged (current temporal : list WalletWithBalance.t) : bool :=
  match current, temporal with
  | c :: cs, t :: ts =>
      (if decide (WalletWithBalance.id c = WalletWithBalance.id t) then false else true)
      || idsChanged cs ts
  | _, _ => false
  end.

(** Lines 384 to 389: the coins of the addresses of one wallet. *)
Fixpoint updateAddresses (current temporal : list AddressWithBalance.t)
    : list AddressWithBalance.t * bool :=
  match current, temporal with
  | c :: cs, t :: ts =>
      let '(cs', changed) := updateAddresses cs ts in
      if negb (isEqualTo (AddressWithBalance.coins c) (AddressWithBalance.coins t))
      then (AddressWithBalance.set_coins (AddressWithBalance.coins t) c :: cs', true)
      else (c :: cs', changed)
  | _, _ => (current, false)
  end.

(** Lines 375 to 390: one wallet. *)
Definition updateWallet (currentWallet temporalWallet : WalletWithBalance.t)
    : WalletWithBalance.t * bool :=
  let '(w, changed) :=
    if negb (isEqualTo (WalletWithBalance.coins currentWallet) (WalletWithBalance.coins temporalWallet))
    then (WalletWithBalance.set_coins (WalletWithBalance.coins temporalWallet) currentWallet, true)
    else (currentWallet, false) in
  if decide (length (WalletWithBalance.addresses w) ≠ length (WalletWithBalance.addresses temporalWallet))
  then (WalletWithBalance.set_addresses (WalletWithBalance.addresses temporalWallet) w, true)
  else
    let '(addresses', changed') :=
      updateAddresses (WalletWithBalance.addresses w) (WalletWithBalance.addresses temporalWallet) in
    (WalletWithBalance.set_addresses addresses' w, changed || changed').

(** Lines 374 to 391: all the wallets. *)
Fixpoint updateBalances (current temporal : list WalletWithBalance.t)
    : list WalletWithBalance.t * bool :=
  match current, temporal with
  | c :: cs, t :: ts =>
      let '(c', changed) := updateWallet c t in
      let '(cs', changed') := updateBalances cs ts in
      (c' :: cs', changed || changed')
  | _, _ => (current, false)
  end.

(** Lines 358 and 359, 370 and 371: the whole list is replaced by the
    array [temporalWallets], which enters the memory under a new
    reference. *)
Definition updateWholeList (temporalWallets : list WalletWithBalance.t) : Op unit :=
  op_modify (λ o, let l := fresh (dom (arrays o)) in
                  set_walletsWithBalanceList (Some l) (set_arrays (<[l := temporalWallets]> (arrays o)) o)) ;;ₒ
  informDataUpdated.

(** Lines 356 to 398. *)
Definition reconcile (temporalWallets : list WalletWithBalance.t)
    (forceQuickCompleteArrayUpdate : bool) : Op unit :=
  o ←ₒ op_get;
  match walletsWithBalanceList o with
  | None => updateWholeList temporalWallets
  | Some l =>
      if forceQuickCompleteArrayUpdate
         || (if decide (length (readArray o l) ≠ length temporalWallets) then true else false)
      then updateWholeList temporalWallets
      else if idsChanged (readArray o l) temporalWallets
      then updateWholeList temporalWallets
      else
        let '(current', changeDetected) := updateBalances (readArray o l) temporalWallets in
        op_modify (set_arrays (<[l := current']> (arrays o))) ;;ₒ
        if changeDetected then informDataUpdated else op_ret tt
  end.

(** Lines 347 to 409: what [tap] does with the result of [procedure]. *)
Definition refreshBalances_tap (walletHasPendingTx : list bool)
    (temporalWallets : list WalletWithBalance.t) (forceQuickCompleteArrayUpdate : bool) : Op unit :=
  op_modify (λ o, set_subjects
                    (next_hasPendingTransactions (existsb (λ v, v) walletHasPendingTx) (subjects o)) o) ;;ₒ
  (if negb forceQuickCompleteArrayUpdate
   then op_modify (λ o, set_subjects (next_lastBalancesUpdateTime (subjects o)) o)
   else op_ret tt) ;;ₒ
  reconcile temporalWallets forceQuickCompleteArrayUpdate ;;ₒ
  if negb forceQuickCompleteArrayUpdate then
    op_modify (λ o, set_savedBalanceData (temporalSavedBalanceData o) o) ;;ₒ
    o ←ₒ op_get;
    if negb (value (firstFullUpdateMadeSubject (subjects o)))
    then op_modify (λ o, set_subjects (next_firstFullUpdateMade true (subjects o)) o)
    else op_ret tt
  else op_ret tt.

(** [refreshBalances], from the call to the value of the observable. *)
Definition refreshBalances (node : Node) (wallets : list WalletBase.t)
    (forceQuickCompleteArrayUpdate : bool) : Op unit :=
  temporalWallets ←ₒ refreshBalances_begin wallets forceQuickCompleteArrayUpdate;
  r ←ₒ procedure node temporalWallets forceQuickCompleteArrayUpdate;
  refreshBalances_tap r.1 r.2 forceQuickCompleteArrayUpdate.


(** ** The refresh cycles *)

(** The state the constructor leaves: the periods depend on the node being
    local, the two maps are two new [Map] objects. *)
Definition constructor : Operator :=
  let saved := fresh (dom (∅ : gmap loc (gmap string WalletBalance.t))) in
  let maps1 : gmap loc (gmap string WalletBalance.t) := <[saved := ∅]> ∅ in
  let temporal := fresh (dom maps1) in
  {| arrays := ∅;
     balanceMaps := <[temporal := ∅]> maps1;
     subscriptions := ∅;
     subjects := Build_Subjects [] 0 [] [] [] [];
     walletsWithBalanceList := None;
     dataRefreshSubscription := None;
     updatePeriod := if isLocal currentCoin then 10 * 1000 else 600 * 1000;
     errorUpdatePeriod := if isLocal currentCoin then 2 * 1000 else 60 * 1000;
     savedBalanceData := saved;
     temporalSavedBalanceData := temporal;
     savedWalletsList := None |}.

Definition unsubscribe (k : loc) : Op unit :=
  op_modify (λ o, set_subscriptions (<[k := Closed]> (subscriptions o)) o).

(** [startDataRefreshSubscription]: the previous subscription is closed and,
    if the wallet list is known, a new one starts waiting in [delay]. *)
Definition startDataRefreshSubscription (delayMs : Z) (updateWalletsFirst : bool) : Op unit :=
  o ←ₒ op_get;
  match dataRefreshSubscription o with
  | Some k => unsubscribe k
  | None => op_ret tt
  end ;;ₒ
  match savedWalletsList o with
  | Some _ =>
      op_modify (λ o, let k := fresh (dom (subscriptions o)) in
                      set_dataRefreshSubscription (Some k)
                        (set_subscriptions (<[k := Delaying delayMs updateWalletsFirst]> (subscriptions o)) o))
  | None => op_ret tt
  end.

(** The two callbacks given to [subscribe]. *)
Definition onNext : Op unit :=
  op_modify (λ o, set_subjects (next_hadErrorRefreshingBalance false (subjects o)) o) ;;ₒ
  op_modify (λ o, set_subjects (next_refreshingBalance false (subjects o)) o) ;;ₒ
  o ←ₒ op_get;
  startDataRefreshSubscription (updatePeriod o) false.

Definition onError : Op unit :=
  op_modify (λ o, set_subjects (next_hadErrorRefreshingBalance true (subjects o)) o) ;;ₒ
  op_modify (λ o, set_subjects (next_refreshingBalance false (subjects o)) o) ;;ₒ
  o ←ₒ op_get;
  startDataRefreshSubscription (errorUpdatePeriod o) false.

(** The observer: a value goes to [onNext], a failure to [onError]. *)
Definition deliver {A} (m : Op A) (o : Operator) : Operator :=
  match m o with
  | (Some _, o') => (onNext o').2
  | (None, o') => (onError o').2
  end.

(** No request is made in a pass that uses the saved data. *)
Definition noNode : Node := λ _, None.

(** What subscription [k] does when its delay is over: the first
    [mergeMap] (with the pass on the saved data, which ends at once), then
    the start of the network pass. With no wallets the network pass ends at
    once too; otherwise the subscription waits for the node. *)
Definition afterDelay (updateWalletsFirst : bool) : Op (option (list WalletWithBalance.t)) :=
  op_modify (λ o, set_subjects (next_refreshingBalance true (subjects o)) o) ;;ₒ
  o ←ₒ op_get;
  match savedWalletsList o with
  | None => op_fail
  | Some wallets =>
      (if updateWalletsFirst then refreshBalances noNode wallets true else op_ret tt) ;;ₒ
      temporalWallets ←ₒ refreshBalances_begin wallets false;
      match temporalWallets with
      | [] =>
          r ←ₒ procedure noNode temporalWallets false;
          refreshBalances_tap r.1 r.2 false ;;ₒ
          op_ret None
      | _ :: _ => op_ret (Some temporalWallets)
      end
  end.

Definition timerFired (k : loc) (o : Operator) : Operator :=
  match subscriptions o !! k with
  | Some (Delaying _ updateWalletsFirst) =>
      match afterDelay updateWalletsFirst o with
      | (Some (Some temporalWallets), o') =>
          set_subscriptions (<[k := Requesting temporalWallets]> (subscriptions o')) o'
      | (Some None, o') => (onNext o').2
      | (None, o') => (onError o').2
      end
  | _ => o
  end.

(** What subscription [k] does when the node has answered the requests of
    its network pass, all with a result or one with a failure. The answers
    of a pass are one event: what each answered wallet writes into the
    temporal map and into its copy while [forkJoin] waits for the other
    wallets is written here, when the pass ends. The states between two
    answers of one pass are not states of [Operator]: in them the temporal
    map and the copies already hold the balances of the wallets answered.
    Nothing else differs, and a pass closed before its end leaves the map
    and the copies behind: the next network pass makes new ones. *)
Definition nodeAnswered (k : loc) (node : Node) (o : Operator) : Operator :=
  match subscriptions o !! k with
  | Some (Requesting temporalWallets) =>
      deliver (r ←ₒ procedure node temporalWallets false;
               refreshBalances_tap r.1 r.2 false) o
  | _ => o
  end.

(** The wallet list of the wallets service changes. *)
Definition walletsChanged (wallets : list WalletBase.t) (o : Operator) : Operator :=
  (startDataRefreshSubscription 0 true (set_savedWalletsList (Some wallets) o)).2.

(** [refreshBalance] *)
Definition refreshBalance (o : Operator) : Operator :=
  (startDataRefreshSubscription 0 false o).2.

(** What can happen to the operator. A timer or an answer of the node is
    for one subscription; a closed subscription gets nothing. *)
Inductive Event :=
| WalletsChanged (wallets : list WalletBase.t)
| RefreshBalance
| TimerFired (k : loc)
| NodeAnswered (k : loc) (node : Node).

Definition step (o : Operator) (e : Event) : Operator :=
  match e with
  | WalletsChanged wallets => walletsChanged wallets o
  | RefreshBalance => refreshBalance o
  | TimerFired k => timerFired k o
  | NodeAnswered k node => nodeAnswered k node o
  end.

Definition run (events : list Event) (o : Operator) : Operator := foldl step o events.

Definition reachable (o : Operator) : Prop := ∃ events, o = run events constructor.

End Operators.

(** ** The blockchain operator *)

Record ProgressEvent := {
  currentBlock : number;
  highestBlock : number;
  synchronized : bool }.

(** The state of [EthBlockchainOperator]: the values [progressSubject] has
    emitted, the delay of the query that is scheduled (none after an
    exception in the callback), and the two periods. *)
Record BlockchainOperator := {
  progressSubject : list ProgressEvent;
  scheduled : option Z;
  bc_updatePeriod : Z;
  bc_errorUpdatePeriod : Z }.

Definition bc_constructor (currentCoin : Coin) : BlockchainOperator :=
  {| progressSubject := [];
     scheduled := Some 0;
     bc_updatePeriod := if isLocal currentCoin then 2 * 1000 else 120 * 1000;
     bc_errorUpdatePeriod := if isLocal currentCoin then 2 * 1000 else 30 * 1000 |}.

(** The value made from the result of [eth_syncing]; [None] when reading the
    fields throws. *)
Definition progressOf (result : RpcResult) : option ProgressEvent :=
  match result with
  | RBool false =>
      Some {| currentBlock := Some 0; highestBlock := Some 0; synchronized := true |}
  | RSyncing current highest =>
      Some {| currentBlock := toNumber (fromHex (substr 2 current));
              highestBlock := toNumber (fromHex (substr 2 highest));
              synchronized := false |}
  | _ => None
  end.

(** The callbacks of the subscription of [startDataRefreshSubscription]. *)
Definition syncingAnswered (answer : option RpcResult) (b : BlockchainOperator) : BlockchainOperator :=
  match answer with
  | Some result =>
      match progressOf result with
      | Some p =>
          {| progressSubject := progressSubject b ++ [p];
             scheduled := Some (bc_updatePeriod b);
             bc_updatePeriod := bc_updatePeriod b;
             bc_errorUpdatePeriod := bc_errorUpdatePeriod b |}
      | None =>
          {| progressSubject := progressSubject b;
             scheduled := None;
             bc_updatePeriod := bc_updatePeriod b;
             bc_errorUpdatePeriod := bc_errorUpdatePeriod b |}
      end
  | None =>
      {| progressSubject := progressSubject b;
         scheduled := Some (bc_errorUpdatePeriod b);
         bc_updatePeriod := bc_updatePeriod b;
         bc_errorUpdatePeriod := bc_errorUpdatePeriod b |}
  end.

(** ** What the update in place leaves, used to state its properties *)

(** The address object [c] after it takes the coins of [t]. *)
Definition assignCoins (c t : AddressWithBalance.t) : AddressWithBalance.t :=
  AddressWithBalance.set_coins (AddressWithBalance.coins t) c.

(** The wallet object [c] after it takes the balances of [t]. *)
Definition assignWallet (c t : WalletWithBalance.t) : WalletWithBalance.t :=
  WalletWithBalance.set_addresses
    (if decide (length (WalletWithBalance.addresses c) ≠ length (WalletWithBalance.addresses t))
     then WalletWithBalance.addresses t
     else zip_with assignCoins (WalletWithBalance.addresses c) (WalletWithBalance.addresses t))
    (WalletWithBalance.set_coins (WalletWithBalance.coins t) c).

(** The sum of a list of balances, as [plus] adds them. *)
Definition sumCoins (l : list BigNumber) : BigNumber := foldl plus zero l.

(** The balances a wallet object shows: its coins and the coins of its
    addresses. *)
Definition balancesOf (w : WalletWithBalance.t) : BigNumber * list BigNumber :=
  (WalletWithBalance.coins w, AddressWithBalance.coins <$> WalletWithBalance.addresses w).

(** The balance [result] holds for an address, or a new balance. *)
Definition balanceIn (result : AddressMap) (a : AddressWithBalance.t) : AddressBalance.t :=
  match result !! Some (AddressWithBalance.address a) with
  | Some b => b
  | None => AddressBalance.new
  end.

(** The saved data a network pass on [tws] leaves when [node] answers: the
    balance of each wallet under its id. *)
Definition fetchedInto (DP : nat) (coin : Coin) (node : Node)
    (m : gmap string WalletBalance.t) (tws : list WalletWithBalance.t)
    : gmap string WalletBalance.t :=
  foldl (λ m w, match (nodeQuery DP coin w node).1 with
                | Some b => <[WalletWithBalance.id w := b]> m
                | None => m
                end) m tws.

Definition fetchedData (DP : nat) (coin : Coin) (node : Node)
    (tws : list WalletWithBalance.t) : gmap string WalletBalance.t :=
  fetchedInto DP coin node ∅ tws.

(** ** Relations between states and invariants, used to state the properties *)

(** A computation that changes the [Map] objects only. *)
Definition onlyMaps (o o1 : Operator) : Prop := o1 = set_balanceMaps (balanceMaps o1) o.

(** Only the [Map] objects change, and of those only the temporal one. *)
Definition onlyTemporalMap (o o1 : Operator) : Prop :=
  onlyMaps o o1
  ∧ dom (balanceMaps o) ⊆ dom (balanceMaps o1)
  ∧ ∀ l, l ≠ temporalSavedBalanceData o → balanceMaps o1 !! l = balanceMaps o !! l.

(** The saved data keeps its entries; an entry it gains is a new balance. *)
Definition cacheKept (o o1 : Operator) : Prop :=
  ∀ id, readMap o1 (savedBalanceData o) !! id = readMap o (savedBalanceData o) !! id
        ∨ (readMap o (savedBalanceData o) !! id = None
           ∧ readMap o1 (savedBalanceData o) !! id = Some WalletBalance.new).

(** The subscriptions, the wallet list and the periods are the same. *)
Definition sameSchedule (o o1 : Operator) : Prop :=
  subscriptions o1 = subscriptions o
  ∧ dataRefreshSubscription o1 = dataRefreshSubscription o
  ∧ savedWalletsList o1 = savedWalletsList o
  ∧ updatePeriod o1 = updatePeriod o
  ∧ errorUpdatePeriod o1 = errorUpdatePeriod o.

(** At most one subscription is open, and it is the one the operator holds. *)
Definition oneOpen (o : Operator) : Prop :=
  ∀ k p, subscriptions o !! k = Some p → p ≠ Closed →
         dataRefreshSubscription o = Some k ∧ is_Some (savedWalletsList o).

(** The two maps exist; until a network pass has ended the saved data is
    empty and is not the temporal map; the period after an error is the
    shorter one. *)
Definition cacheOK (o : Operator) : Prop :=
  savedBalanceData o ∈ dom (balanceMaps o)
  ∧ temporalSavedBalanceData o ∈ dom (balanceMaps o)
  ∧ (lastBalancesUpdateTimeSubject (subjects o) = 0%nat →
     readMap o (savedBalanceData o) = ∅
     ∧ savedBalanceData o ≠ temporalSavedBalanceData o)
  ∧ errorUpdatePeriod o < updatePeriod o.

(** While a network pass waits for the node, its temporal map is not the
    saved data. *)
Definition requestingOK (o : Operator) : Prop :=
  ∀ k tws, subscriptions o !! k = Some (Requesting tws) →
           savedBalanceData o ≠ temporalSavedBalanceData o
           ∧ readMap o (temporalSavedBalanceData o) = ∅.

Definition Inv (o : Operator) : Prop := oneOpen o ∧ cacheOK o ∧ requestingOK o.

(** The maps, the two references and the number of network passes that have
    ended are the same. *)
Definition sameCache (o o1 : Operator) : Prop :=
  balanceMaps o1 = balanceMaps o
  ∧ savedBalanceData o1 = savedBalanceData o
  ∧ temporalSavedBalanceData o1 = temporalSavedBalanceData o
  ∧ lastBalancesUpdateTimeSubject (subjects o1) = lastBalancesUpdateTimeSubject (subjects o).

(** The number of network passes that have ended. *)
Abbreviation passesEnded o := (lastBalancesUpdateTimeSubject (subjects o)).

(** ** A wallet and a node for the examples

    Wallet W has the addresses A1 (5 coins confirmed, 5 predicted) and A2
    (3 coins confirmed, 4 predicted); the coin has 18 decimals and needs 3
    confirmations; the chain is 100 blocks high. *)
Module Scenario.

Definition coin : Coin :=
  {| isLocal := true; nodeUrl := "http://127.0.0.1:8545";
     confirmationsNeeded := 3; config := {| decimals := 18 |} |}.

Definition balances (a tag : string) : option RpcResult :=
  if String.eqb tag "pending" then
    if String.eqb a "A1" then Some (RString "0x4563918244f40000")
    else if String.eqb a "A2" then Some (RString "0x3782dace9d900000")
    else None
  else if String.eqb tag "0x62" then
    if String.eqb a "A1" then Some (RString "0x4563918244f40000")
    else if String.eqb a "A2" then Some (RString "0x29a2241af62c0000")
    else None
  else None.

Definition node : Node := λ r,
  if String.eqb (req_method r) "eth_blockNumber" then Some (RString "0x64")
  else match req_params r with
       | [Some a; Some tag] => balances a tag
       | _ => None
       end.

(** A node that fails every request. *)
Definition deadNode : Node := λ _, None.

Definition W : WalletBase.t :=
  WalletBase.mk "W" "wallet" [AddressBase.mk "A1"; AddressBase.mk "A2"] false "deterministic" false.

(** The wallet of the same id after address A2 is replaced by A3. *)
Definition W' : WalletBase.t :=
  WalletBase.mk "W" "wallet" [AddressBase.mk "A1"; AddressBase.mk "A3"] false "deterministic" false.

(** A published list with wallet W (9 coins; A1 has 5, A2 has 4), and the
    list of a later pass in which A2 has 6 coins and W has 11. *)
Definition publishedW : WalletWithBalance.t :=
  WalletWithBalance.mk "W" "wallet"
    [AddressWithBalance.mk "A1" (ofZ 5); AddressWithBalance.mk "A2" (ofZ 4)]
    false "deterministic" false (ofZ 9).

Definition laterW : WalletWithBalance.t :=
  WalletWithBalance.mk "W" "wallet"
    [AddressWithBalance.mk "A1" (ofZ 5); AddressWithBalance.mk "A2" (ofZ 6)]
    false "deterministic" false (ofZ 11).

Definition published : Operator :=
  set_subjects (Build_Subjects [Some 0%nat] 1 [true] [true] [false] [true; false])
    (set_walletsWithBalanceList (Some 0%nat)
       (set_arrays (<[0%nat := [publishedW]]> ∅) (constructor coin))).



End Scenario.

(** ** The node operator *)

(** Texts are sequences of code units; [length], [split] and [substr] count
    and cut by code unit, as the JS methods do. *)

(** [text.split(sep)] for a separator of one character: the pieces between
    the separators, in order. A text without the separator is the only
    piece. *)
Fixpoint split (sep : ascii) (s : string) : list string :=
  match s with
  | EmptyString => [EmptyString]
  | String ch s' =>
      let pieces := split sep s' in
      if Ascii.eqb ch sep then EmptyString :: pieces
      else String ch (hd EmptyString pieces) :: tl pieces
  end.

(** Lines 75 to 86: the text [updateData] keeps as the version of the node. *)
Definition nodeVersionOf (response : string) : string :=
  match split "/" response with
  | name :: version :: _ => name +:+ "/" +:+ version
  | _ =>
      if (String.length response <? 15)%nat then response
      else String.substring 0 12 response +:+ "..."
  end.

(** The state of [EthNodeOperator]: the values [remoteNodeDataUpdatedInternal]
    has emitted after its initial [false] and whether it has completed, the
    version text, the burn rate, and the delay of the request of the open
    subscription ([None] when no subscription is open: none was made, or it
    has delivered its value, or it was closed). *)
Record NodeOperator := {
  remoteNodeDataUpdatedInternal : list bool;
  remoteNodeDataUpdatedCompleted : bool;
  nodeVersionInternal : string;
  burnRateInternal : BigNumber;
  basicInfoSubscription : option Z }.

(** [updateData]: the previous subscription is closed and a new one asks
    for [web3_clientVersion] after the delay. *)
Definition updateData (delayMs : Z) (n : NodeOperator) : NodeOperator :=
  {| remoteNodeDataUpdatedInternal := remoteNodeDataUpdatedInternal n;
     remoteNodeDataUpdatedCompleted := remoteNodeDataUpdatedCompleted n;
     nodeVersionInternal := nodeVersionInternal n;
     burnRateInternal := burnRateInternal n;
     basicInfoSubscription := Some delayMs |}.

Definition n_constructor : NodeOperator :=
  updateData 0
    {| remoteNodeDataUpdatedInternal := [];
       remoteNodeDataUpdatedCompleted := false;
       nodeVersionInternal := "";
       burnRateInternal := ofZ 1;
       basicInfoSubscription := None |}.

(** The getters [currentMaxDecimals], [nodeVersion] and [burnRate]. *)
Definition currentMaxDecimals (currentCoin : Coin) : nat := decimals (config currentCoin).
Definition nodeVersion (n : NodeOperator) : string := nodeVersionInternal n.
Definition burnRate (n : NodeOperator) : BigNumber := burnRateInternal n.

(** The callbacks of the subscription of [updateData], for the answer to
    the request of the open subscription. A result that is not a string has
    no [split]: the callback throws, and the subscription ends without a
    retry. With no open subscription there is no request to answer. *)
Definition versionAnswered (currentCoin : Coin) (answer : option RpcResult) (n : NodeOperator)
    : NodeOperator :=
  match basicInfoSubscription n with
  | None => n
  | Some _ =>
      match answer with
      | Some (RString response) =>
          {| remoteNodeDataUpdatedInternal :=
               if remoteNodeDataUpdatedCompleted n then remoteNodeDataUpdatedInternal n
               else remoteNodeDataUpdatedInternal n ++ [true];
             remoteNodeDataUpdatedCompleted := remoteNodeDataUpdatedCompleted n;
             nodeVersionInternal := nodeVersionOf response;
             burnRateInternal := burnRateInternal n;
             basicInfoSubscription := None |}
      | Some _ =>
          {| remoteNodeDataUpdatedInternal := remoteNodeDataUpdatedInternal n;
             remoteNodeDataUpdatedCompleted := remoteNodeDataUpdatedCompleted n;
             nodeVersionInternal := nodeVersionInternal n;
             burnRateInternal := burnRateInternal n;
             basicInfoSubscription := None |}
      | None => updateData (if isLocal currentCoin then 2000 else 15000) n
      end
  end.

(** [dispose] of the node operator. *)
Definition n_dispose (n : NodeOperator) : NodeOperator :=
  {| remoteNodeDataUpdatedInternal := remoteNodeDataUpdatedInternal n;
     remoteNodeDataUpdatedCompleted := true;
     nodeVersionInternal := nodeVersionInternal n;
     burnRateInternal := burnRateInternal n;
     basicInfoSubscription := None |}.

(** The operator after the answers to its requests, one after the other. *)
Definition n_run (currentCoin : Coin) (answers : list (option RpcResult)) (n : NodeOperator)
    : NodeOperator :=
  foldl (λ n answer, versionAnswered currentCoin answer n) n answers.

(** Does the text have the character? *)
Fixpoint contains (ch : ascii) (s : string) : bool :=
  match s with
  | EmptyString => false
  | String c s' => Ascii.eqb c ch || contains ch s'
  end.

(** ** The blockchain operator over time *)

(** The answer to the [eth_syncing] request of the scheduled query; with no
    query scheduled there is no request to answer. *)
Definition bc_answered (answer : option RpcResult) (b : BlockchainOperator) : BlockchainOperator :=
  match scheduled b with
  | Some _ => syncingAnswered answer b
  | None => b
  end.

Definition bc_run (answers : list (option RpcResult)) (b : BlockchainOperator)
    : BlockchainOperator :=
  foldl (λ b answer, bc_answered answer b) b answers.

(** The value an answer makes [progressSubject] emit, if any. *)
Definition emittedFor (answer : option RpcResult) : option ProgressEvent :=
  match answer with
  | Some result => progressOf result
  | None => None
  end.

(** An answer the callbacks handle: a failure of the request, or a result
    they can read. *)
Definition handled (answer : option RpcResult) : Prop :=
  answer = None ∨ is_Some (emittedFor answer).

(** ** The end of the balance operator *)

(** [dispose]: the refresh subscription is closed. [dispose] also closes
    the subscriptions to the other services, so that no wallet list
    arrives any more, and completes the subjects; neither is part of the
    state of [Operator]. *)
Definition dispose : Op unit :=
  o ←ₒ op_get;
  match dataRefreshSubscription o with
  | Some k => unsubscribe k
  | None => op_ret tt
  end.

(** An event of a subscription: its timer, or the answer of the node. *)
Definition ofSubscription (e : Event) : Prop :=
  match e with
  | TimerFired _ | NodeAnswered _ _ => True
  | _ => False
  end.

(** An event that brings no wallet list. *)
Definition bringsNoWallets (e : Event) : Prop :=
  match e with
  | WalletsChanged _ => False
  | _ => True
  end.

(** ** The flags over time *)

(** The flags a pass on the saved data leaves alone. *)
Definition sameFlags (o o1 : Operator) : Prop :=
  lastBalancesUpdateTimeSubject (subjects o1) = lastBalancesUpdateTimeSubject (subjects o)
  ∧ firstFullUpdateMadeSubject (subjects o1) = firstFullUpdateMadeSubject (subjects o)
  ∧ hadErrorRefreshingBalanceSubject (subjects o1) = hadErrorRefreshingBalanceSubject (subjects o)
  ∧ refreshingBalanceSubject (subjects o1) = refreshingBalanceSubject (subjects o).

(** While a network pass waits for the node, [refreshingBalance] is true
    and the pass is for the wallet list the operator holds;
    [firstFullUpdateMade] has emitted [true] once if a network pass has
    ended, and nothing otherwise. *)
Definition flagsOK (o : Operator) : Prop :=
  (∀ k tws, subscriptions o !! k = Some (Requesting tws) →
     value (refreshingBalanceSubject (subjects o)) = true
     ∧ ∃ wallets, savedWalletsList o = Some wallets
                  ∧ tws = walletWithBalanceFromBase <$> wallets)
  ∧ firstFullUpdateMadeSubject (subjects o)
    = (if decide (passesEnded o = 0%nat) then [] else [true]).

(** The periods are the ones the constructor chose, and a subscription
    waits for no time (a cycle asked for), for [updatePeriod] (after a pass
    that ended well) or for [errorUpdatePeriod] (after a failure); only a
    cycle started by a new wallet list begins with a pass on the saved
    data. *)
Definition scheduleOK (currentCoin : Coin) (o : Operator) : Prop :=
  updatePeriod o = (if isLocal currentCoin then 10 * 1000 else 600 * 1000)
  ∧ errorUpdatePeriod o = (if isLocal currentCoin then 2 * 1000 else 60 * 1000)
  ∧ ∀ k d u, subscriptions o !! k = Some (Delaying d u) →
             (d = 0 ∨ (u = false ∧ (d = updatePeriod o ∨ d = errorUpdatePeriod o))).

(** ** More nodes for the examples *)
Module Examples.

(** A node that answers every balance request with hexadecimal digits of
    both cases. *)
Definition mixedCaseNode : Node := λ r,
  if String.eqb (req_method r) "eth_blockNumber" then Some (RString "0x64")
  else Some (RString "0xaB").

(** A second wallet, with one address. *)
Definition V : WalletBase.t :=
  WalletBase.mk "V" "second wallet" [AddressBase.mk "A4"] false "deterministic" false.

End Examples.

(** * Properties *)

(** ** Numbers *)



Lemma isEqualTo_true a b : isEqualTo a b = true ↔ a = b ∧ a ≠ NaN.
Proof.
  destruct a as [x|], b as [y|]; simpl; unfold NaN.
  - rewrite bool_decide_eq_true. split; [intros ->; split; congruence | intros [[=] _]; done].
  - split; [done | intros [[=] _]].
  - split; [done | intros [[=] _]].
  - split; [done | intros [_ H]; done].
Qed.

Lemma isEqualTo_false_ne a b : a ≠ b → isEqualTo a b = false.
Proof.
  intros H. destruct (isEqualTo a b) eqn:E; [|done].
  apply isEqualTo_true in E as [? _]. done.
Qed.

Lemma plus_comm a b : plus a b = plus b a.
Proof. destruct a, b; simpl; try done. f_equal. apply Qcplus_comm. Qed.

Lemma plus_assoc a b c : plus a (plus b c) = plus (plus a b) c.
Proof. destruct a, b, c; simpl; try done. f_equal. apply Qcplus_assoc. Qed.

Lemma plus_zero_l a : plus zero a = a.
Proof. destruct a; simpl; try done. f_equal. apply Qcplus_0_l. Qed.

Lemma pow10_pos n : 0 < pow10 n.
Proof. unfold pow10. apply Z.pow_pos_nonneg; lia. Qed.


Lemma roundHalfUp_comp q q' : (q == q')%Q → roundHalfUp q = roundHalfUp q'.
Proof.
  intros H. unfold roundHalfUp.
  assert (Hb : Qle_bool 0 q = Qle_bool 0 q').
  { apply eq_true_iff_eq. rewrite !Qle_bool_iff, H. reflexivity. }
  rewrite Hb.
  destruct (Qle_bool 0 q'); [apply Qfloor_comp | f_equal; apply Qfloor_comp]; rewrite H; reflexivity.
Qed.



(** ** The fetch of the balances *)

Section Fetch.
Variable DP : nat.
Variable coin : Coin.
Variable node : Node.
Variable h : number.

Local Abbreviation rgb := (recursivelyGetBalances DP coin).
Local Abbreviation balanceOf := (addressBalanceOf DP coin node h).


(** One pass of the function, request by request. *)
Lemma recursivelyGetBalances_pass addresses cur :
  rgb addresses h cur node =
    let a := list.last addresses in
    match node (pendingRequest coin a) with
    | Some (RString _) =>
        match balanceOf a with
        | Some b =>
            if decide (1 < length addresses)%nat then
              let '(r, log) := rgb (removelast addresses) h (<[a := b]> cur) node in
              (r, [pendingRequest coin a; confirmedRequest coin h a] ++ log)
            else (Some (<[a := b]> cur), [pendingRequest coin a; confirmedRequest coin h a])
        | None => (None, [pendingRequest coin a; confirmedRequest coin h a])
        end
    | _ => (None, [pendingRequest coin a])
    end.
Proof.
  rewrite recursivelyGetBalances_equation_1.
  unfold rpc_bind, callRpcMethod, addressBalanceOf, pendingRequest, confirmedRequest; simpl.
  destruct (node _) as [[tp| |]|] eqn:E1; simpl; try reflexivity.
  destruct (node {| req_url := nodeUrl coin; req_method := "eth_getBalance";
                    req_params := [list.last addresses;
                                   Some ("0x" +:+ blockForLastConfirmedBalance coin h)] |})
    as [[tc| |]|] eqn:E2; simpl; try reflexivity.
  destruct (decide (1 < length addresses)%nat); simpl; [|reflexivity].
  destruct (rgb _ _ _ _); reflexivity.
Qed.

Lemma balanceOf_pending a b :
  balanceOf a = Some b → ∃ t, node (pendingRequest coin a) = Some (RString t).
Proof.
  unfold addressBalanceOf. destruct (node (pendingRequest coin a)) as [[t| |]|]; try done. eauto.
Qed.

(** When the node answers for every address, the function asks for each
    address once, from the last to the first, and the map has the balance
    of each. *)
Lemma recursivelyGetBalances_success addresses cur :
  addresses ≠ [] →
  (∀ a, a ∈ addresses → is_Some (balanceOf (Some a))) →
  ∃ m, rgb addresses h cur node = (Some m, requestsFor coin h (Some <$> addresses))
       ∧ ∀ k, m !! k = match k with
                       | Some a => if decide (a ∈ addresses) then balanceOf (Some a) else cur !! k
                       | None => cur !! k
                       end.
Proof.
  revert cur. induction addresses as [|a l IH] using rev_ind; [done|].
  intros cur _ Hall.
  destruct (Hall a) as [b Hb]; [set_solver|].
  destruct (balanceOf_pending _ _ Hb) as [t Ht].
  rewrite recursivelyGetBalances_pass. cbv zeta.
  rewrite last_snoc, Ht, Hb, removelast_last, length_app. simpl.
  unfold requestsFor. rewrite fmap_app, rev_app_distr. simpl.
  destruct l as [|a' l'].
  - simpl. eexists; split; [reflexivity|].
    intros [k|]; [|by rewrite lookup_insert_ne].
    destruct (decide (k ∈ [a])) as [Hin|Hin].
    + apply list_elem_of_singleton in Hin as ->. by rewrite lookup_insert_eq.
    + rewrite lookup_insert_ne; [done|]. intros [=]; set_solver.
  - destruct (decide _) as [_|Hn]; [|simpl in Hn; lia].
    destruct (IH (<[Some a := b]> cur)) as (m & -> & Hm); [done | set_solver |].
    eexists; split; [reflexivity|].
    intros [k|].
    + rewrite Hm. destruct (decide (k ∈ a' :: l')) as [Hin|Hin].
      * rewrite decide_True by set_solver. done.
      * destruct (decide (k = a)) as [->|Hne].
        -- rewrite decide_True by set_solver. by rewrite lookup_insert_eq.
        -- rewrite decide_False by set_solver. rewrite lookup_insert_ne; congruence.
    + rewrite Hm. by rewrite lookup_insert_ne.
Qed.

(** When the node fails for one address, the function fails. *)
Lemma recursivelyGetBalances_failure addresses cur a :
  a ∈ addresses → balanceOf (Some a) = None →
  (rgb addresses h cur node).1 = None.
Proof.
  revert cur. induction addresses as [|a' l IH] using rev_ind; [set_solver|].
  intros cur Hin Hnone.
  rewrite recursivelyGetBalances_pass. cbv zeta.
  rewrite last_snoc, removelast_last.
  destruct (node (pendingRequest coin (Some a'))) as [[t| |]|]; try done.
  destruct (balanceOf (Some a')) as [b|] eqn:Hb; [|done].
  destruct (decide (1 < length (l ++ [a']))%nat) as [Hlen|Hlen].
  - assert (a ∈ l) as Hl.
    { apply elem_of_app in Hin as [?|Hin]; [done|].
      apply list_elem_of_singleton in Hin as ->. congruence. }
    specialize (IH (<[Some a' := b]> cur) Hl Hnone).
    destruct (rgb l h _ node); simpl in *; done.
  - rewrite length_app in Hlen; simpl in Hlen.
    destruct l; [|simpl in Hlen; lia].
    apply list_elem_of_singleton in Hin as ->. congruence.
Qed.

End Fetch.

Lemma requestsFor_length coin h l : length (requestsFor coin h l) = (2 * length l)%nat.
Proof.
  unfold requestsFor. rewrite <- (length_rev l).
  induction (rev l) as [|a l' IH]; simpl; [reflexivity|]. rewrite IH. lia.
Qed.

(** C10: on a non-empty address list every address is asked for once with
    the tag "pending" and once at the block of the confirmed balance, the
    last address first, and the keys of the map returned are the addresses;
    on the empty list the function asks for the [undefined] address and the
    map returned has that key. *)
Theorem recursivelyGetBalances_requests_and_keys DP coin node h (addresses : list string) :
  (∀ a, a ∈ addresses → is_Some (addressBalanceOf DP coin node h (Some a))) →
  (addresses = [] → is_Some (addressBalanceOf DP coin node h None)) →
  ∃ m log,
    recursivelyGetBalances DP coin addresses h ∅ node = (Some m, log)
    ∧ (addresses ≠ [] →
         log = requestsFor coin h (Some <$> addresses)
         ∧ length log = (2 * length addresses)%nat
         ∧ dom m = list_to_set (Some <$> addresses))
    ∧ (addresses = [] →
         log = [pendingRequest coin None; confirmedRequest coin h None]
         ∧ dom m = {[ None ]} ∧ m ≠ ∅).
Proof.
  intros Hall Hnil. destruct addresses as [|a0 l].
  - destruct (Hnil eq_refl) as [b Hb].
    destruct (balanceOf_pending _ _ _ _ _ _ Hb) as [t Ht].
    rewrite recursivelyGetBalances_pass. cbv zeta. simpl list.last. rewrite Ht, Hb. simpl.
    eexists _, _. split; [reflexivity|]. split; [done|]. intros _.
    split; [done|]. split.
    + rewrite dom_insert_L, dom_empty_L. set_solver.
    + intros E. apply (f_equal (λ m : AddressMap, m !! None)) in E.
      by rewrite lookup_insert_eq in E.
  - destruct (recursivelyGetBalances_success DP coin node h (a0 :: l) ∅) as (m & Hm & Hlook);
      [done | done |].
    exists m, (requestsFor coin h (Some <$> a0 :: l)). split; [done|]. split; [|done].
    intros _. split; [done|]. split.
    + by rewrite requestsFor_length, length_fmap.
    + apply set_eq. intros k. rewrite elem_of_dom, Hlook, elem_of_list_to_set, list_elem_of_fmap.
      destruct k as [k|].
      * destruct (decide (k ∈ a0 :: l)) as [Hin|Hin].
        -- split; [eauto|]. intros _. by apply Hall.
        -- rewrite lookup_empty. split; [by intros [? ?]|]. intros (y & [= ->] & ?). done.
      * rewrite lookup_empty. split; [by intros [? ?]|]. by intros (y & ? & ?).
Qed.

Lemma recursivelyGetBalances_requests_and_keys_witness :
  ∃ m log,
    recursivelyGetBalances 20 Scenario.coin ["A1"; "A2"]%string (Some 100) ∅ Scenario.node
    = (Some m, log)
    ∧ length log = 4%nat
    ∧ dom m = {[ Some "A1"%string; Some "A2"%string ]}.
Proof.
  destruct (recursivelyGetBalances_requests_and_keys 20 Scenario.coin Scenario.node (Some 100)
              ["A1"; "A2"]%string) as (m & log & Hrun & Hne & _).
  - intros a Ha.
    assert (a = "A1"%string ∨ a = "A2"%string) as [-> | ->] by set_solver; vm_compute; eauto.
  - discriminate.
  - exists m, log. split; [exact Hrun|].
    destruct Hne as (_ & Hlen & Hdom); [discriminate|].
    split; [exact Hlen|]. rewrite Hdom. simpl. set_solver.
Defined.

Lemma recursivelyGetBalances_all_answered (DP : nat) (coin : Coin) (node : Node) (h : number)
    (addresses : list string) (cur m : AddressMap) :
  (recursivelyGetBalances DP coin addresses h cur node).1 = Some m →
  ∀ a, a ∈ addresses → is_Some (addressBalanceOf DP coin node h (Some a)).
Proof.
  intros Hrun a Ha.
  destruct (addressBalanceOf DP coin node h (Some a)) as [b|] eqn:Hb; [eauto|].
  rewrite (recursivelyGetBalances_failure DP coin node h addresses cur a Ha Hb) in Hrun. done.
Qed.






(** ** Order of the addresses *)

Lemma foldl_commute_permutation {A B} (f : B → A → B) (l1 l2 : list A) :
  (∀ b x y, f (f b x) y = f (f b y) x) →
  l1 ≡ₚ l2 → ∀ b, foldl f b l1 = foldl f b l2.
Proof.
  intros Hc Hp. induction Hp as [|x l l' _ IH|x y l|l l' l'' _ IH1 _ IH2]; intros b; simpl.
  - done.
  - apply IH.
  - by rewrite Hc.
  - by rewrite IH1.
Qed.

Lemma addBalance_commute result b x y :
  addBalance result (addBalance result b x) y = addBalance result (addBalance result b y) x.
Proof.
  unfold addBalance; simpl. f_equal.
  - rewrite <- !plus_assoc. f_equal. apply plus_comm.
  - rewrite <- !plus_assoc. f_equal. apply plus_comm.
  - destruct (decide (AddressWithBalance.address x = AddressWithBalance.address y)) as [->|Hne].
    + done.
    + apply insert_insert_ne. congruence.
Qed.

(** The map that [recursivelyGetBalances] returns does not depend on the
    order of the addresses. *)
Lemma recursivelyGetBalances_permutation (DP : nat) (coin : Coin) (node : Node) (h : number)
    (l1 l2 : list string) (cur : AddressMap) :
  l1 ≡ₚ l2 →
  (recursivelyGetBalances DP coin l1 h cur node).1
  = (recursivelyGetBalances DP coin l2 h cur node).1.
Proof.
  intros Hp.
  destruct l1 as [|a1 l1].
  { apply Permutation_nil_l in Hp as ->. done. }
  assert (l2 ≠ []) as Hne2.
  { intros ->. by apply Permutation_nil_r in Hp. }
  destruct (decide (Forall (λ a, is_Some (addressBalanceOf DP coin node h (Some a))) (a1 :: l1)))
    as [Hall|Hex].
  - assert (∀ a, a ∈ a1 :: l1 → is_Some (addressBalanceOf DP coin node h (Some a))) as Hall'.
    { intros a Ha. rewrite Forall_forall in Hall. by apply Hall, list_elem_of_In. }
    clear Hall. rename Hall' into Hall.
    destruct (recursivelyGetBalances_success DP coin node h (a1 :: l1) cur)
      as (m1 & -> & H1); [done | exact Hall |].
    destruct (recursivelyGetBalances_success DP coin node h l2 cur)
      as (m2 & -> & H2); [done | |].
    { intros a Ha. apply Hall. by rewrite Hp. }
    simpl. f_equal. apply map_eq. intros [k|]; rewrite H1, H2; [|done].
    destruct (decide (k ∈ a1 :: l1)) as [Hin|Hin].
    + rewrite decide_True; [done|]. by rewrite <- Hp.
    + rewrite decide_False; [done|]. by rewrite <- Hp.
  - apply not_Forall_Exists in Hex; [|intros a; apply _].
    apply Exists_exists in Hex as (a & Ha & Hnone). apply list_elem_of_In in Ha.
    assert (addressBalanceOf DP coin node h (Some a) = None) as Hn.
    { destruct (addressBalanceOf DP coin node h (Some a)) eqn:E; [|done].
      exfalso. apply Hnone. rewrite E. eauto. }
    rewrite (recursivelyGetBalances_failure DP coin node h (a1 :: l1) cur a Ha Hn).
    rewrite (recursivelyGetBalances_failure DP coin node h l2 cur a); [done | | done].
    by rewrite <- Hp.
Qed.

(** C9: the map of balances, and the balance of a wallet computed from it
    (current, predicted, and the balance per address), are the same for every
    order of the wallet's addresses. *)
Theorem aggregation_order_independent (DP : nat) (coin : Coin) (node : Node)
    (w1 w2 : WalletWithBalance.t) :
  WalletWithBalance.addresses w1 ≡ₚ WalletWithBalance.addresses w2 →
  (∀ h, (recursivelyGetBalances DP coin
           (AddressWithBalance.address <$> WalletWithBalance.addresses w1) h ∅ node).1
        = (recursivelyGetBalances DP coin
             (AddressWithBalance.address <$> WalletWithBalance.addresses w2) h ∅ node).1)
  ∧ (nodeQuery DP coin w1 node).1 = (nodeQuery DP coin w2 node).1.
Proof.
  intros Hp.
  assert (Hmap : ∀ h, (recursivelyGetBalances DP coin
           (AddressWithBalance.address <$> WalletWithBalance.addresses w1) h ∅ node).1
        = (recursivelyGetBalances DP coin
             (AddressWithBalance.address <$> WalletWithBalance.addresses w2) h ∅ node).1).
  { intros h. apply recursivelyGetBalances_permutation. by apply fmap_Permutation. }
  split; [exact Hmap|].
  unfold nodeQuery, rpc_bind, callRpcMethod. simpl.
  destruct (node _) as [[text| |]|]; simpl; try done.
  specialize (Hmap (toNumber (fromHex (substr 2 text)))).
  destruct (recursivelyGetBalances DP coin
              (AddressWithBalance.address <$> WalletWithBalance.addresses w1) _ ∅ node)
    as [[m1|] log1];
  destruct (recursivelyGetBalances DP coin
              (AddressWithBalance.address <$> WalletWithBalance.addresses w2) _ ∅ node)
    as [[m2|] log2]; simpl in *; try done.
  injection Hmap as ->. f_equal.
  apply foldl_commute_permutation; [|done]. apply addBalance_commute.
Qed.

Lemma aggregation_order_independent_witness :
  let w1 := walletWithBalanceFromBase Scenario.W in
  let w2 := WalletWithBalance.set_addresses (rev (WalletWithBalance.addresses w1)) w1 in
  WalletWithBalance.addresses w1 ≡ₚ WalletWithBalance.addresses w2
  ∧ (nodeQuery 20 Scenario.coin w1 Scenario.node).1
    = (nodeQuery 20 Scenario.coin w2 Scenario.node).1.
Proof.
  intros w1 w2.
  assert (Hp : WalletWithBalance.addresses w1 ≡ₚ WalletWithBalance.addresses w2).
  { simpl. apply perm_swap. }
  split; [exact Hp|].
  exact (proj2 (aggregation_order_independent 20 Scenario.coin Scenario.node w1 w2 Hp)).
Defined.


(** ** The blockchain operator *)






(** ** The reconciliation of the published list *)

Lemma set_coins_same_address c a :
  AddressWithBalance.coins a = c → AddressWithBalance.set_coins c a = a.
Proof. destruct a; simpl; intros ->; done. Qed.

Lemma set_coins_same_wallet c w :
  WalletWithBalance.coins w = c → WalletWithBalance.set_coins c w = w.
Proof. destruct w; simpl; intros ->; done. Qed.

Lemma isEqualTo_true_eq a b : isEqualTo a b = true → a = b.
Proof. intros H. by apply isEqualTo_true in H as [? _]. Qed.

Lemma updateAddresses_fst cs ts :
  length cs = length ts → (updateAddresses cs ts).1 = zip_with assignCoins cs ts.
Proof.
  revert ts. induction cs as [|c cs IH]; intros [|t ts] Hlen; simpl in *; try done.
  specialize (IH ts ltac:(lia)).
  destruct (updateAddresses cs ts) as [cs' changed]. simpl in IH. subst cs'.
  destruct (isEqualTo _ _) eqn:E; simpl; [|done].
  f_equal. symmetry. apply set_coins_same_address. by apply isEqualTo_true_eq.
Qed.

Lemma updateAddresses_changed cs ts j c t :
  cs !! j = Some c → ts !! j = Some t →
  AddressWithBalance.coins c ≠ AddressWithBalance.coins t →
  (updateAddresses cs ts).2 = true.
Proof.
  revert ts j. induction cs as [|c0 cs IH]; intros [|t0 ts] j Hc Ht Hne; simpl in *; try done.
  destruct (updateAddresses cs ts) as [cs' changed] eqn:E.
  destruct j as [|j]; simpl in *.
  - injection Hc as ->. injection Ht as ->. by rewrite isEqualTo_false_ne.
  - destruct (isEqualTo _ _); simpl; [|done].
    specialize (IH ts j Hc Ht Hne). by rewrite E in IH.
Qed.

Lemma updateAddresses_unchanged cs ts :
  (updateAddresses cs ts).2 = false → (updateAddresses cs ts).1 = cs.
Proof.
  revert ts. induction cs as [|c cs IH]; intros [|t ts]; simpl; try done.
  specialize (IH ts). destruct (updateAddresses cs ts) as [cs' changed].
  destruct (isEqualTo _ _); simpl; [|done]. intros ->. simpl in IH. by rewrite IH.
Qed.

Lemma set_addresses_set_coins l c w :
  WalletWithBalance.set_addresses l (WalletWithBalance.set_coins c w)
  = WalletWithBalance.mk (WalletWithBalance.id w) (WalletWithBalance.label w) l
      (WalletWithBalance.encrypted w) (WalletWithBalance.walletType w)
      (WalletWithBalance.isHardware w) c.
Proof. done. Qed.

Lemma updateWallet_fst c t : (updateWallet c t).1 = assignWallet c t.
Proof.
  unfold updateWallet, assignWallet.
  destruct (isEqualTo _ _) eqn:E; simpl.
  - apply isEqualTo_true_eq in E.
    destruct (decide _) as [Hne|Heq]; simpl.
    + by rewrite (set_coins_same_wallet _ c) by done.
    + apply dec_stable in Heq.
      pose proof (updateAddresses_fst _ _ Heq) as Hfst.
      destruct (updateAddresses _ _) as [l ch]. simpl in *. subst l.
      by rewrite (set_coins_same_wallet _ c) by done.
  - destruct (decide _) as [Hne|Heq]; simpl; [done|].
    apply dec_stable in Heq.
    pose proof (updateAddresses_fst _ _ Heq) as Hfst.
    destruct (updateAddresses _ _) as [l ch]. simpl in *. by subst l.
Qed.

Lemma updateWallet_changed_address c t j ac at' :
  length (WalletWithBalance.addresses c) = length (WalletWithBalance.addresses t) →
  WalletWithBalance.addresses c !! j = Some ac →
  WalletWithBalance.addresses t !! j = Some at' →
  AddressWithBalance.coins ac ≠ AddressWithBalance.coins at' →
  (updateWallet c t).2 = true.
Proof.
  intros Hlen Hc Ht Hne. unfold updateWallet.
  destruct (isEqualTo _ _); simpl.
  - rewrite decide_False by (intros H; by apply H).
    pose proof (updateAddresses_changed _ _ _ _ _ Hc Ht Hne) as Hch.
    destruct (updateAddresses _ _) as [l ch]. simpl in *. by subst ch.
  - rewrite decide_False by (intros H; by apply H).
    by destruct (updateAddresses _ _).
Qed.

Lemma updateBalances_fst cur tmp :
  length cur = length tmp → (updateBalances cur tmp).1 = zip_with assignWallet cur tmp.
Proof.
  revert tmp. induction cur as [|c cs IH]; intros [|t ts] Hlen; simpl in *; try done.
  specialize (IH ts ltac:(lia)).
  pose proof (updateWallet_fst c t) as Hw.
  destruct (updateWallet c t) as [c' ch]. destruct (updateBalances cs ts) as [cs' ch'].
  simpl in *. by subst.
Qed.

Lemma updateBalances_changed cur tmp i c t :
  cur !! i = Some c → tmp !! i = Some t → (updateWallet c t).2 = true →
  (updateBalances cur tmp).2 = true.
Proof.
  revert tmp i. induction cur as [|c0 cs IH]; intros [|t0 ts] i Hc Ht Hch; simpl in *; try done.
  destruct (updateWallet c0 t0) as [c' ch] eqn:E. destruct (updateBalances cs ts) as [cs' ch'] eqn:E'.
  destruct i as [|i]; simpl in *.
  - injection Hc as ->. injection Ht as ->. rewrite E in Hch. simpl in Hch. by subst ch.
  - specialize (IH ts i Hc Ht Hch). rewrite E' in IH. simpl in IH. subst ch'.
    by rewrite orb_true_r.
Qed.

Lemma idsChanged_true cur tmp :
  idsChanged cur tmp = true ↔
  ∃ i c t, cur !! i = Some c ∧ tmp !! i = Some t ∧ WalletWithBalance.id c ≠ WalletWithBalance.id t.
Proof.
  revert tmp. induction cur as [|c cs IH]; intros [|t ts]; simpl.
  - split; [done|]. by intros (i & ? & ? & ? & _).
  - split; [done|]. by intros (i & ? & ? & ? & _).
  - split; [done|]. by intros (i & ? & ? & _ & ? & _).
  - rewrite orb_true_iff, IH. split.
    + intros [H|(i & c' & t' & ? & ? & ?)].
      * exists 0%nat, c, t. repeat split; try done. by destruct (decide _).
      * exists (S i), c', t'. done.
    + intros ([|i] & c' & t' & Hc & Ht & Hne); simpl in *.
      * left. injection Hc as ->. injection Ht as ->. by rewrite decide_False.
      * right. eauto 10.
Qed.

Lemma updateWholeList_run tws o :
  updateWholeList tws o
  = (Some tt,
     let l := fresh (dom (arrays o)) in
     set_subjects (next_walletsWithBalance (Some l) (subjects o))
       (set_walletsWithBalanceList (Some l) (set_arrays (<[l := tws]> (arrays o)) o))).
Proof. reflexivity. Qed.

Lemma zip_with_assignCoins_same (cs ts : list AddressWithBalance.t) :
  length cs = length ts →
  (∀ k a a', cs !! k = Some a → ts !! k = Some a' →
             AddressWithBalance.coins a = AddressWithBalance.coins a') →
  zip_with assignCoins cs ts = cs.
Proof.
  intros Hlen Hsame. apply list_eq. intros k. rewrite lookup_zip_with.
  destruct (cs !! k) as [a|] eqn:Ha; simpl; [|done].
  destruct (ts !! k) as [a'|] eqn:Ha'; simpl.
  - f_equal. apply set_coins_same_address. eauto.
  - apply lookup_lt_Some in Ha. apply lookup_ge_None in Ha'. lia.
Qed.

Lemma zip_with_assignCoins_one (cs ts : list AddressWithBalance.t) j ac at' :
  length cs = length ts →
  cs !! j = Some ac → ts !! j = Some at' →
  (∀ k a a', cs !! k = Some a → ts !! k = Some a' → k ≠ j →
             AddressWithBalance.coins a = AddressWithBalance.coins a') →
  zip_with assignCoins cs ts = <[j := assignCoins ac at']> cs.
Proof.
  intros Hlen Hc Ht Hsame. apply list_eq. intros k. rewrite lookup_zip_with.
  destruct (decide (k = j)) as [->|Hne].
  - rewrite Hc, Ht. simpl. rewrite list_lookup_insert_eq; [done|]. by eapply lookup_lt_Some.
  - rewrite list_lookup_insert_ne by done.
    destruct (cs !! k) as [a|] eqn:Ha; simpl; [|done].
    destruct (ts !! k) as [a'|] eqn:Ha'; simpl.
    + f_equal. apply set_coins_same_address. eauto.
    + apply lookup_lt_Some in Ha. apply lookup_ge_None in Ha'. lia.
Qed.

Lemma set_addresses_same w :
  WalletWithBalance.set_addresses (WalletWithBalance.addresses w) w = w.
Proof. by destruct w. Qed.

(** C2: with no published list, or a different number of wallets, or a
    different id at some index, the reconciliation puts the new array in
    memory under a new reference, makes it the published list and emits it. *)
Theorem coarse_update_replaces_list (tws : list WalletWithBalance.t) (quick : bool) (o : Operator) :
  (walletsWithBalanceList o = None
   ∨ ∃ l, walletsWithBalanceList o = Some l
          ∧ (length (readArray o l) ≠ length tws
             ∨ ∃ i c t, readArray o l !! i = Some c ∧ tws !! i = Some t
                        ∧ WalletWithBalance.id c ≠ WalletWithBalance.id t)) →
  let l' := fresh (dom (arrays o)) in
  let o' := (reconcile tws quick o).2 in
  reconcile tws quick o
  = (Some tt, set_subjects (next_walletsWithBalance (Some l') (subjects o))
                (set_walletsWithBalanceList (Some l') (set_arrays (<[l' := tws]> (arrays o)) o)))
  ∧ (l' ∉ dom (arrays o))
  ∧ walletsWithBalanceList o' = Some l'
  ∧ readArray o' l' = tws
  ∧ walletsWithBalanceSubject (subjects o')
    = walletsWithBalanceSubject (subjects o) ++ [Some l'].
Proof.
  intros Hcase l' o'.
  assert (Hrun : reconcile tws quick o = updateWholeList tws o).
  { unfold reconcile, op_bind, op_get.
    destruct Hcase as [->|(l & -> & Hcase)]; [done|].
    destruct quick; simpl; [done|].
    destruct (decide (length (readArray o l) ≠ length tws)) as [Hne|Heq]; [done|].
    destruct Hcase as [?|Hid]; [done|].
    apply idsChanged_true in Hid. by rewrite Hid. }
  subst o'. rewrite Hrun, updateWholeList_run. cbv zeta. fold l'.
  split; [done|]. split; [apply is_fresh|]. split; [done|]. split; [|done].
  unfold readArray. simpl. by rewrite lookup_insert_eq.
Qed.

Lemma coarse_update_replaces_list_witness :
  let o := timerFired 20 Scenario.coin 0%nat (walletsChanged [Scenario.W] (constructor Scenario.coin)) in
  walletsWithBalanceList o = Some 0%nat
  ∧ length (readArray o 0%nat) ≠ length ([] : list WalletWithBalance.t)
  ∧ walletsWithBalanceList (reconcile [] false o).2 = Some 1%nat.
Proof.
  intros o.
  assert (H1 : walletsWithBalanceList o = Some 0%nat) by (vm_compute; reflexivity).
  assert (H2 : length (readArray o 0%nat) ≠ length ([] : list WalletWithBalance.t))
    by (vm_compute; discriminate).
  split; [exact H1|]. split; [exact H2|].
  destruct (coarse_update_replaces_list [] false o) as (_ & _ & H & _).
  - right. exists 0%nat. split; [exact H1|]. left. exact H2.
  - rewrite H. vm_compute. reflexivity.
Defined.

(** C1 (amended): in the reconciliation of a network pass, when the two
    lists have the same length, the same ids and the same numbers of
    addresses, and only the coins of address [j] of wallet [i] differ (and
    possibly the coins of wallet [i]), the published reference stays, the
    array under it changes in those coins only, nothing else of the state
    changes, and the list is emitted once. *)
Theorem in_place_update_of_one_address (o : Operator) (l : loc)
    (tws : list WalletWithBalance.t) (i j : nat)
    (c t : WalletWithBalance.t) (ac at' : AddressWithBalance.t) :
  walletsWithBalanceList o = Some l →
  length (readArray o l) = length tws →
  (∀ k c' t', readArray o l !! k = Some c' → tws !! k = Some t' →
              WalletWithBalance.id c' = WalletWithBalance.id t') →
  readArray o l !! i = Some c → tws !! i = Some t →
  WalletWithBalance.addresses c !! j = Some ac →
  WalletWithBalance.addresses t !! j = Some at' →
  AddressWithBalance.coins ac ≠ AddressWithBalance.coins at' →
  (∀ k c' t', readArray o l !! k = Some c' → tws !! k = Some t' →
     length (WalletWithBalance.addresses c') = length (WalletWithBalance.addresses t')
     ∧ (k ≠ i → WalletWithBalance.coins c' = WalletWithBalance.coins t')
     ∧ ∀ k' a a', WalletWithBalance.addresses c' !! k' = Some a →
                  WalletWithBalance.addresses t' !! k' = Some a' →
                  k ≠ i ∨ k' ≠ j →
                  AddressWithBalance.coins a = AddressWithBalance.coins a') →
  let c1 :=
    WalletWithBalance.set_addresses
      (<[j := AddressWithBalance.set_coins (AddressWithBalance.coins at') ac]>
         (WalletWithBalance.addresses c))
      (WalletWithBalance.set_coins (WalletWithBalance.coins t) c) in
  let o' := (reconcile tws false o).2 in
  reconcile tws false o
  = (Some tt, set_subjects (next_walletsWithBalance (Some l) (subjects o))
                (set_arrays (<[l := <[i := c1]> (readArray o l)]> (arrays o)) o))
  ∧ walletsWithBalanceList o' = Some l
  ∧ readArray o' l = <[i := c1]> (readArray o l)
  ∧ walletsWithBalanceSubject (subjects o')
    = walletsWithBalanceSubject (subjects o) ++ [Some l].
Proof.
  intros Hl Hlen Hids Hc Ht Hac Hat Hne Hrest c1 o'.
  assert (Hfst : (updateBalances (readArray o l) tws).1 = <[i := c1]> (readArray o l)).
  { rewrite updateBalances_fst by done. apply list_eq. intros k. rewrite lookup_zip_with.
    destruct (decide (k = i)) as [->|Hki].
    - rewrite Hc, Ht. simpl. rewrite list_lookup_insert_eq by by eapply lookup_lt_Some.
      f_equal. unfold assignWallet, c1.
      destruct (Hrest i c t Hc Ht) as (Hlen' & _ & Hsame).
      rewrite decide_False by (intros H; by apply H).
      f_equal. apply zip_with_assignCoins_one; try done.
      intros k a a' Ha Ha' Hk. eapply Hsame; eauto.
    - rewrite list_lookup_insert_ne by done.
      destruct (readArray o l !! k) as [c'|] eqn:Hc'; simpl; [|done].
      destruct (tws !! k) as [t'|] eqn:Ht'; simpl.
      + f_equal. unfold assignWallet.
        destruct (Hrest k c' t' Hc' Ht') as (Hlen' & Hcoins & Hsame).
        rewrite decide_False by (intros H; by apply H).
        rewrite zip_with_assignCoins_same; [|done|].
        * rewrite set_coins_same_wallet by by apply Hcoins.
          apply set_addresses_same.
        * intros k' a a' Ha Ha'. eapply Hsame; eauto.
      + apply lookup_lt_Some in Hc'. apply lookup_ge_None in Ht'. lia. }
  assert (Hsnd : (updateBalances (readArray o l) tws).2 = true).
  { eapply updateBalances_changed; [exact Hc | exact Ht |].
    destruct (Hrest i c t Hc Ht) as (Hlen' & _ & _).
    eapply updateWallet_changed_address; eauto. }
  assert (Hrun : reconcile tws false o
    = (Some tt, set_subjects (next_walletsWithBalance (Some l) (subjects o))
                  (set_arrays (<[l := <[i := c1]> (readArray o l)]> (arrays o)) o))).
  { unfold reconcile, op_bind, op_get. rewrite Hl. simpl.
    rewrite decide_False by (intros H; by apply H).
    destruct (idsChanged (readArray o l) tws) eqn:Hid.
    { apply idsChanged_true in Hid as (k & c' & t' & ? & ? & Hd). exfalso. eauto. }
    destruct (updateBalances (readArray o l) tws) as [cur' changed]. simpl in *. subst.
    unfold op_modify, informDataUpdated, op_modify. simpl. by rewrite Hl. }
  subst o'. rewrite Hrun. simpl. split; [done|]. split; [done|]. split; [|done].
  unfold readArray at 1. simpl. by rewrite lookup_insert_eq.
Qed.

Lemma in_place_update_of_one_address_witness :
  walletsWithBalanceList Scenario.published = Some 0%nat
  ∧ readArray Scenario.published 0%nat = [Scenario.publishedW]
  ∧ (let o' := (reconcile [Scenario.laterW] false Scenario.published).2 in
     walletsWithBalanceList o' = Some 0%nat
     ∧ readArray o' 0%nat = [Scenario.laterW]
     ∧ walletsWithBalanceSubject (subjects o') = [Some 0%nat; Some 0%nat]).
Proof.
  split; [reflexivity|]. split; [reflexivity|].
  destruct (in_place_update_of_one_address Scenario.published 0%nat [Scenario.laterW] 0 1
              Scenario.publishedW Scenario.laterW
              (AddressWithBalance.mk "A2" (ofZ 4)) (AddressWithBalance.mk "A2" (ofZ 6)))
    as (_ & H1 & H2 & H3).
  - reflexivity.
  - reflexivity.
  - intros [|k] c' t' Hc Ht; [|done]. vm_compute in Hc, Ht. by simplify_eq.
  - reflexivity.
  - reflexivity.
  - reflexivity.
  - reflexivity.
  - simpl. intros E. apply (f_equal (option_map this)) in E. vm_compute in E. discriminate.
  - intros [|k] c' t' Hc Ht; [|done].
    assert (c' = Scenario.publishedW) as -> by (vm_compute in Hc; by simplify_eq).
    assert (t' = Scenario.laterW) as -> by (vm_compute in Ht; by simplify_eq).
    split; [reflexivity|]. split; [done|].
    intros [|[|k']] a a' Ha Ha' Hk; simpl in Ha, Ha'; simplify_eq; [done|].
    destruct Hk; done.
  - cbv zeta. split; [exact H1|]. split; [|exact H3]. rewrite H2. reflexivity.
Defined.

(** C1, as stated, fails for a pass on the saved data: the wallet list
    changes to a wallet of the same id whose second address is new; the
    list in memory and the list of the pass differ in the coins of that
    address only (4 and 0), and the pass publishes a new array. *)
Lemma quick_pass_replaces_list_counterexample :
  let o := run 20 Scenario.coin
             [WalletsChanged [Scenario.W]; TimerFired 0%nat; NodeAnswered 0%nat Scenario.node;
              WalletsChanged [Scenario.W']]
             (constructor Scenario.coin) in
  let o' := timerFired 20 Scenario.coin 2%nat o in
  ∃ c t,
    subscriptions o !! 2%nat = Some (Delaying 0 true)
    ∧ walletsWithBalanceList o = Some 0%nat
    ∧ readArray o 0%nat = [c]
    ∧ readArray o' 1%nat = [t]
    ∧ WalletWithBalance.id c = WalletWithBalance.id t
    ∧ WalletWithBalance.coins c = WalletWithBalance.coins t
    ∧ AddressWithBalance.coins <$> WalletWithBalance.addresses c = [ofZ 5; ofZ 4]
    ∧ AddressWithBalance.coins <$> WalletWithBalance.addresses t = [ofZ 5; ofZ 0]
    ∧ walletsWithBalanceList o' = Some 1%nat
    ∧ walletsWithBalanceSubject (subjects o')
      = walletsWithBalanceSubject (subjects o) ++ [Some 1%nat].
Proof.
  intros o o'.
  assert (Hc : ∃ c, readArray o 0%nat = [c]) by (vm_compute; eauto).
  assert (Ht : ∃ t, readArray o' 1%nat = [t]) by (vm_compute; eauto).
  destruct Hc as [c Hc], Ht as [t Ht]. exists c, t.
  split; [vm_compute; reflexivity|]. split; [vm_compute; reflexivity|].
  split; [exact Hc|]. split; [exact Ht|].
  vm_compute in Hc, Ht. injection Hc as <-. injection Ht as <-.
  split; [reflexivity|].
  split; [simpl; f_equal; apply Qc_is_canon; reflexivity|].
  split; [simpl; unfold ofZ; repeat f_equal; apply Qc_is_canon; reflexivity|].
  split; [simpl; unfold ofZ; repeat f_equal; apply Qc_is_canon; reflexivity|].
  split; vm_compute; reflexivity.
Qed.


(** ** The network pass *)

Lemma foldl_addBalance (result : AddressMap) (l : list AddressWithBalance.t) (b : WalletBalance.t) :
  foldl (addBalance result) b l
  = WalletBalance.mk
      (foldl plus (WalletBalance.current b) (AddressBalance.current ∘ balanceIn result <$> l))
      (foldl plus (WalletBalance.predicted b) (AddressBalance.predicted ∘ balanceIn result <$> l))
      (foldl (λ m a, <[Some (AddressWithBalance.address a) := balanceIn result a]> m)
         (WalletBalance.addresses b) l).
Proof.
  revert b. induction l as [|a l IH]; intros b; simpl; [by destruct b|].
  rewrite IH. reflexivity.
Qed.

Lemma foldl_insert_lookup (result : AddressMap) (l : list AddressWithBalance.t) (m : AddressMap) a :
  a ∈ l →
  foldl (λ m a, <[Some (AddressWithBalance.address a) := balanceIn result a]> m) m l
    !! Some (AddressWithBalance.address a)
  = Some (balanceIn result a).
Proof.
  revert m. induction l as [|a' l IH] using rev_ind; intros m Hin; [set_solver|].
  rewrite foldl_app. simpl.
  destruct (decide (AddressWithBalance.address a' = AddressWithBalance.address a)) as [E|E].
  - rewrite E, lookup_insert_eq. unfold balanceIn. by rewrite E.
  - rewrite lookup_insert_ne by congruence. apply IH.
    apply elem_of_app in Hin as [?|Hin]; [done|].
    apply list_elem_of_singleton in Hin. congruence.
Qed.

(** The wallet a network pass leaves shows the predicted balance, which is
    the sum of the coins its addresses show. *)
Lemma addValues_sum (result : AddressMap) (w : WalletWithBalance.t) :
  let balance := foldl (addBalance result) WalletBalance.new (WalletWithBalance.addresses w) in
  WalletWithBalance.coins (addValues balance w) = WalletBalance.predicted balance
  ∧ WalletBalance.predicted balance
    = sumCoins (AddressWithBalance.coins <$> WalletWithBalance.addresses (addValues balance w)).
Proof.
  intros balance. split; [done|].
  unfold balance. rewrite foldl_addBalance. simpl. unfold sumCoins. f_equal.
  rewrite <- list_fmap_compose.
  apply Forall_fmap_ext_1, list.Forall_forall. intros a Ha. simpl.
  by rewrite foldl_insert_lookup.
Qed.

(** One wallet of a network pass. *)
Lemma retrieveWalletBalance_network (DP : nat) (coin : Coin) (node : Node)
    (w : WalletWithBalance.t) (o : Operator) :
  retrieveWalletBalance DP coin node w false o
  = match (nodeQuery DP coin w node).1 with
    | Some balance =>
        (Some (negb (isEqualTo (WalletBalance.current balance) (WalletBalance.predicted balance)),
               addValues balance w),
         set_balanceMaps
           (<[temporalSavedBalanceData o :=
                <[WalletWithBalance.id w := balance]> (readMap o (temporalSavedBalanceData o))]>
              (balanceMaps o)) o)
    | None => (None, o)
    end.
Proof.
  unfold retrieveWalletBalance, op_bind, op_rpc. simpl.
  destruct ((nodeQuery DP coin w node).1); reflexivity.
Qed.


Lemma onlyMaps_refl o : onlyMaps o o.
Proof. by destruct o. Qed.

Lemma onlyMaps_trans o o1 o2 : onlyMaps o o1 → onlyMaps o1 o2 → onlyMaps o o2.
Proof. unfold onlyMaps. intros -> ->. reflexivity. Qed.

Lemma op_mapM_network (DP : nat) (coin : Coin) (node : Node) (l : list WalletWithBalance.t)
    (o o1 : Operator) (r : list (bool * WalletWithBalance.t)) :
  op_mapM (λ w, retrieveWalletBalance DP coin node w false) l o = (Some r, o1) →
  onlyMaps o o1
  ∧ length r = length l
  ∧ ∀ k w, l !! k = Some w →
      ∃ balance, (nodeQuery DP coin w node).1 = Some balance
        ∧ r !! k = Some (negb (isEqualTo (WalletBalance.current balance)
                                          (WalletBalance.predicted balance)),
                         addValues balance w).
Proof.
  revert o o1 r. induction l as [|w l IH]; intros o o1 r; simpl.
  - intros [= <- <-]. split; [apply onlyMaps_refl|]. split; [done|]. intros k w; done.
  - unfold op_bind at 1. rewrite retrieveWalletBalance_network.
    destruct ((nodeQuery DP coin w node).1) as [balance|] eqn:Hq; [|done].
    unfold op_bind at 1.
    destruct (op_mapM _ l _) as [[r'|] o'] eqn:Hrec; [|done].
    intros [= <- <-]. destruct (IH _ _ _ Hrec) as (Hframe & Hlen & Hk).
    split; [|split].
    + eapply onlyMaps_trans; [|exact Hframe]. unfold onlyMaps. by destruct o.
    + simpl. by rewrite Hlen.
    + intros [|k] w' Hw'; simpl in *.
      * injection Hw' as <-. eauto.
      * by apply Hk.
Qed.

Lemma balancesOf_assignWallet c t : balancesOf (assignWallet c t) = balancesOf t.
Proof.
  unfold balancesOf, assignWallet. simpl. f_equal.
  destruct (decide _) as [Hne|Heq]; [done|]. apply dec_stable in Heq.
  apply list_eq. intros k. rewrite !list_lookup_fmap, lookup_zip_with.
  destruct (WalletWithBalance.addresses c !! k) as [a|] eqn:Ha;
    destruct (WalletWithBalance.addresses t !! k) as [a'|] eqn:Ha'; simpl; try done.
  - apply lookup_lt_Some in Ha'. apply lookup_ge_None in Ha. lia.
Qed.

(** The reconciliation changes the arrays, the published reference and the
    values [walletsWithBalance] has emitted, and nothing else; after it the
    published array shows the balances of the list of the pass. *)
Lemma reconcile_publishes (tws : list WalletWithBalance.t) (quick : bool) (o : Operator) :
  let o' := (reconcile tws quick o).2 in
  (reconcile tws quick o).1 = Some tt
  ∧ o' = set_subjects
           (Build_Subjects (walletsWithBalanceSubject (subjects o'))
              (lastBalancesUpdateTimeSubject (subjects o))
              (hasPendingTransactionsSubject (subjects o))
              (firstFullUpdateMadeSubject (subjects o))
              (hadErrorRefreshingBalanceSubject (subjects o))
              (refreshingBalanceSubject (subjects o)))
           (set_walletsWithBalanceList (walletsWithBalanceList o') (set_arrays (arrays o') o))
  ∧ ∃ l published, walletsWithBalanceList o' = Some l ∧ arrays o' !! l = Some published
      ∧ balancesOf <$> published = balancesOf <$> tws.
Proof.
  assert (Hwhole : let o' := (updateWholeList tws o).2 in
    (updateWholeList tws o).1 = Some tt
    ∧ o' = set_subjects
             (Build_Subjects (walletsWithBalanceSubject (subjects o'))
                (lastBalancesUpdateTimeSubject (subjects o))
                (hasPendingTransactionsSubject (subjects o))
                (firstFullUpdateMadeSubject (subjects o))
                (hadErrorRefreshingBalanceSubject (subjects o))
                (refreshingBalanceSubject (subjects o)))
             (set_walletsWithBalanceList (walletsWithBalanceList o') (set_arrays (arrays o') o))
    ∧ ∃ l published, walletsWithBalanceList o' = Some l ∧ arrays o' !! l = Some published
        ∧ balancesOf <$> published = balancesOf <$> tws).
  { rewrite updateWholeList_run. simpl. split; [done|]. split; [done|].
    eexists _, tws. split; [done|]. split; [|done]. by rewrite lookup_insert_eq. }
  unfold reconcile, op_bind, op_get.
  destruct (walletsWithBalanceList o) as [l|] eqn:Hl; [|exact Hwhole].
  destruct quick; simpl; [exact Hwhole|].
  destruct (decide (length (readArray o l) ≠ length tws)) as [Hne|Heq]; [exact Hwhole|].
  apply dec_stable in Heq.
  destruct (idsChanged (readArray o l) tws); [exact Hwhole|].
  pose proof (updateBalances_fst _ _ Heq) as Hfst.
  destruct (updateBalances (readArray o l) tws) as [cur' changed]. simpl in Hfst. subst cur'.
  assert (Hbal : balancesOf <$> zip_with assignWallet (readArray o l) tws = balancesOf <$> tws).
  { apply list_eq. intros k. rewrite !list_lookup_fmap, lookup_zip_with.
    destruct (readArray o l !! k) as [c|] eqn:Hc; destruct (tws !! k) as [t|] eqn:Ht;
      simpl; try done.
    - by rewrite balancesOf_assignWallet.
    - apply lookup_lt_Some in Ht. apply lookup_ge_None in Hc. lia. }
  destruct changed; simpl.
  - split; [done|]. split; [done|]. rewrite Hl.
    eexists l, _. split; [done|]. split; [by rewrite lookup_insert_eq | exact Hbal].
  - split; [done|]. split; [by destruct o as [? ? ? []]|]. rewrite Hl.
    eexists l, _. split; [done|]. split; [by rewrite lookup_insert_eq | exact Hbal].
Qed.


(** What [tap] does in a network pass, step by step. *)
Lemma refreshBalances_tap_network (signals : list bool) (tws : list WalletWithBalance.t)
    (o : Operator) :
  let oa := set_subjects
              (next_lastBalancesUpdateTime
                 (next_hasPendingTransactions (existsb (λ v, v) signals) (subjects o))) o in
  let ob := (reconcile tws false oa).2 in
  let oc := set_savedBalanceData (temporalSavedBalanceData ob) ob in
  refreshBalances_tap signals tws false o
  = (Some tt,
     if negb (value (firstFullUpdateMadeSubject (subjects oc)))
     then set_subjects (next_firstFullUpdateMade true (subjects oc)) oc
     else oc).
Proof.
  intros oa ob oc.
  unfold refreshBalances_tap, op_bind, op_modify, op_get. cbn [negb].
  change (reconcile tws false _) with (reconcile tws false oa).
  destruct (reconcile_publishes tws false oa) as (Hr & _).
  subst oc ob. destruct (reconcile tws false oa) as [[[]|] ob'] eqn:E; simpl in Hr; [|done].
  cbn [snd]. by destruct (negb _).
Qed.





(** ** What the parts of a pass change *)

Lemma onlyTemporalMap_refl o : onlyTemporalMap o o.
Proof. split; [apply onlyMaps_refl|]. split; done. Qed.

Lemma onlyMaps_fields o o1 :
  onlyMaps o o1 →
  arrays o1 = arrays o ∧ subscriptions o1 = subscriptions o ∧ subjects o1 = subjects o
  ∧ walletsWithBalanceList o1 = walletsWithBalanceList o
  ∧ dataRefreshSubscription o1 = dataRefreshSubscription o
  ∧ updatePeriod o1 = updatePeriod o ∧ errorUpdatePeriod o1 = errorUpdatePeriod o
  ∧ savedBalanceData o1 = savedBalanceData o
  ∧ temporalSavedBalanceData o1 = temporalSavedBalanceData o
  ∧ savedWalletsList o1 = savedWalletsList o.
Proof. intros ->. repeat split. Qed.

Lemma onlyTemporalMap_trans o o1 o2 :
  onlyTemporalMap o o1 → onlyTemporalMap o1 o2 → onlyTemporalMap o o2.
Proof.
  intros (H1 & Hd1 & Hl1) (H2 & Hd2 & Hl2).
  destruct (onlyMaps_fields _ _ H1) as (_ & _ & _ & _ & _ & _ & _ & _ & Ht & _).
  split; [by eapply onlyMaps_trans|]. split; [set_solver|].
  intros l Hl. rewrite Hl2 by congruence. by apply Hl1.
Qed.

Lemma cacheKept_refl o : cacheKept o o.
Proof. intros id. by left. Qed.

Lemma cacheKept_trans o o1 o2 :
  savedBalanceData o1 = savedBalanceData o →
  cacheKept o o1 → cacheKept o1 o2 → cacheKept o o2.
Proof.
  intros Hs H1 H2 id. specialize (H1 id). specialize (H2 id). rewrite Hs in H2.
  destruct H1 as [H1|[H1 H1']], H2 as [H2|[H2 H2']].
  - left. congruence.
  - right. split; congruence.
  - right. split; congruence.
  - congruence.
Qed.

(** One wallet of a pass on the saved data. *)
Lemma retrieveWalletBalance_saved (DP : nat) (coin : Coin) (node : Node)
    (w : WalletWithBalance.t) (o : Operator) :
  let balance := match readMap o (savedBalanceData o) !! WalletWithBalance.id w with
                 | Some b => b
                 | None => WalletBalance.new
                 end in
  retrieveWalletBalance DP coin node w true o
  = (Some (value (hasPendingTransactionsSubject (subjects o)), addValues balance w),
     set_balanceMaps
       (<[temporalSavedBalanceData o :=
            <[WalletWithBalance.id w := balance]> (readMap o (temporalSavedBalanceData o))]>
          (balanceMaps o)) o).
Proof.
  unfold retrieveWalletBalance, savedQuery, op_bind, op_get. simpl.
  destruct (readMap o (savedBalanceData o) !! WalletWithBalance.id w); reflexivity.
Qed.

Lemma insert_temporal_onlyTemporalMap o M :
  onlyTemporalMap o (set_balanceMaps (<[temporalSavedBalanceData o := M]> (balanceMaps o)) o).
Proof.
  split; [by destruct o|]. split.
  - simpl. rewrite dom_insert_L. set_solver.
  - intros l Hl. simpl. by rewrite lookup_insert_ne.
Qed.

Lemma retrieveWalletBalance_onlyTemporalMap (DP : nat) (coin : Coin) (node : Node)
    (w : WalletWithBalance.t) (quick : bool) (o : Operator) :
  onlyTemporalMap o (retrieveWalletBalance DP coin node w quick o).2.
Proof.
  destruct quick.
  - rewrite retrieveWalletBalance_saved. apply insert_temporal_onlyTemporalMap.
  - rewrite retrieveWalletBalance_network.
    destruct ((nodeQuery DP coin w node).1); simpl;
      [apply insert_temporal_onlyTemporalMap | apply onlyTemporalMap_refl].
Qed.

Lemma readMap_insert o l M l' :
  readMap (set_balanceMaps (<[l := M]> (balanceMaps o)) o) l'
  = if decide (l = l') then M else readMap o l'.
Proof.
  unfold readMap. simpl. destruct (decide (l = l')) as [->|Hne].
  - by rewrite lookup_insert_eq.
  - by rewrite lookup_insert_ne.
Qed.

Lemma retrieveWalletBalance_cacheKept (DP : nat) (coin : Coin) (node : Node)
    (w : WalletWithBalance.t) (o : Operator) :
  cacheKept o (retrieveWalletBalance DP coin node w true o).2.
Proof.
  rewrite retrieveWalletBalance_saved. cbv zeta. cbn [snd]. intros id.
  rewrite readMap_insert.
  destruct (decide (temporalSavedBalanceData o = savedBalanceData o)) as [E|E]; [|by left].
  rewrite E.
  destruct (decide (id = WalletWithBalance.id w)) as [->|Hne].
  - rewrite lookup_insert_eq.
    destruct (readMap o (savedBalanceData o) !! WalletWithBalance.id w); [by left | by right].
  - left. by rewrite lookup_insert_ne.
Qed.

Lemma op_mapM_cons_snd {A B} (f : A → Op B) (a : A) (l : list A) (o : Operator) :
  (op_mapM f (a :: l) o).2
  = match f a o with
    | (Some _, o') => (op_mapM f l o').2
    | (None, o') => o'
    end.
Proof.
  simpl. unfold op_bind. destruct (f a o) as [[b|] o']; [|done].
  by destruct (op_mapM f l o') as [[bs|] o''].
Qed.

Lemma op_mapM_retrieve_frame (DP : nat) (coin : Coin) (node : Node) (quick : bool)
    (l : list WalletWithBalance.t) (o : Operator) :
  let o1 := (op_mapM (λ w, retrieveWalletBalance DP coin node w quick) l o).2 in
  onlyTemporalMap o o1 ∧ (quick = true → cacheKept o o1).
Proof.
  cbv zeta. revert o. induction l as [|w l IH]; intros o.
  - split; [apply onlyTemporalMap_refl | intros _; apply cacheKept_refl].
  - rewrite op_mapM_cons_snd.
    pose proof (retrieveWalletBalance_onlyTemporalMap DP coin node w quick o) as Hstep.
    assert (Hkept : quick = true → cacheKept o (retrieveWalletBalance DP coin node w quick o).2).
    { intros ->. apply retrieveWalletBalance_cacheKept. }
    destruct (retrieveWalletBalance DP coin node w quick o) as [[b|] o'] eqn:E; simpl in *.
    + destruct (IH o') as [IH1 IH2]. split.
      * by eapply onlyTemporalMap_trans.
      * intros Hq. eapply cacheKept_trans; [| by apply Hkept | by apply IH2].
        destruct Hstep as (Hm & _).
        by destruct (onlyMaps_fields _ _ Hm) as (_&_&_&_&_&_&_&?&_).
    + done.
Qed.

Lemma procedure_frame (DP : nat) (coin : Coin) (node : Node) (quick : bool)
    (tws : list WalletWithBalance.t) (o : Operator) :
  let o1 := (procedure DP coin node tws quick o).2 in
  onlyTemporalMap o o1 ∧ (quick = true → cacheKept o o1).
Proof.
  unfold procedure. destruct tws as [|w ws].
  - simpl. split; [apply onlyTemporalMap_refl | intros _; apply cacheKept_refl].
  - unfold op_bind.
    pose proof (op_mapM_retrieve_frame DP coin node quick (w :: ws) o) as H. cbv zeta in H.
    by destruct (op_mapM _ (w :: ws) o) as [[r|] o'].
Qed.

Lemma op_mapM_saved_some (DP : nat) (coin : Coin) (node : Node)
    (l : list WalletWithBalance.t) (o : Operator) :
  is_Some (op_mapM (λ w, retrieveWalletBalance DP coin node w true) l o).1.
Proof.
  revert o. induction l as [|w l IH]; intros o; simpl; [eauto|].
  unfold op_bind at 1. rewrite retrieveWalletBalance_saved. cbv zeta.
  unfold op_bind at 1.
  match goal with |- context [op_mapM ?f l ?o'] => destruct (IH o') as [bs Hbs];
    destruct (op_mapM f l o') as [[bs'|] o''] eqn:E end; simpl in *; [eauto | done].
Qed.

Lemma procedure_saved_some (DP : nat) (coin : Coin) (node : Node)
    (tws : list WalletWithBalance.t) (o : Operator) :
  is_Some (procedure DP coin node tws true o).1.
Proof.
  unfold procedure. destruct tws as [|w ws]; [simpl; eauto|].
  unfold op_bind. destruct (op_mapM_saved_some DP coin node (w :: ws) o) as [r Hr].
  destruct (op_mapM _ (w :: ws) o) as [[r'|] o']; simpl in *; [eauto | done].
Qed.

(** What [tap] does in a pass on the saved data. *)
Lemma refreshBalances_tap_saved (signals : list bool) (tws : list WalletWithBalance.t)
    (o : Operator) :
  refreshBalances_tap signals tws true o
  = (Some tt,
     (reconcile tws true
        (set_subjects (next_hasPendingTransactions (existsb (λ v, v) signals) (subjects o)) o)).2).
Proof.
  unfold refreshBalances_tap, op_bind, op_modify. cbn [negb].
  unfold op_ret at 1.
  match goal with |- context [reconcile tws true ?oa] =>
    destruct (reconcile_publishes tws true oa) as (Hr & _);
    destruct (reconcile tws true oa) as [[[]|] ob] end; simpl in *; done.
Qed.

(** A pass on the saved data: it ends at once, with a value. *)
Lemma quick_pass_frame (DP : nat) (coin : Coin) (node : Node) (wallets : list WalletBase.t)
    (o : Operator) :
  ∃ o', refreshBalances DP coin node wallets true o = (Some tt, o')
    ∧ sameSchedule o o'
    ∧ savedBalanceData o' = savedBalanceData o
    ∧ temporalSavedBalanceData o' = temporalSavedBalanceData o
    ∧ lastBalancesUpdateTimeSubject (subjects o') = lastBalancesUpdateTimeSubject (subjects o)
    ∧ dom (balanceMaps o) ⊆ dom (balanceMaps o')
    ∧ (∀ l, l ≠ temporalSavedBalanceData o → balanceMaps o' !! l = balanceMaps o !! l)
    ∧ cacheKept o o'.
Proof.
  unfold refreshBalances, refreshBalances_begin. cbn [negb].
  unfold op_bind at 1. unfold op_bind at 1. unfold op_ret at 1 2.
  unfold op_bind at 1.
  destruct (procedure_saved_some DP coin node (walletWithBalanceFromBase <$> wallets) o) as [r Hr].
  destruct (procedure_frame DP coin node true (walletWithBalanceFromBase <$> wallets) o)
    as ((Hm & Hdom & Hother) & Hkept).
  specialize (Hkept eq_refl).
  destruct (procedure DP coin node _ true o) as [[r'|] o1] eqn:E; simpl in Hr; [|done].
  cbn [snd] in *. rewrite refreshBalances_tap_saved.
  destruct (onlyMaps_fields _ _ Hm) as (Ha & Hs & Hsub & Hw & Hd & Hu & He & Hsa & Ht & Hsw).
  match goal with |- context [reconcile ?t true ?oa] =>
    destruct (reconcile_publishes t true oa) as (_ & Hshape & _);
    set (ob := (reconcile t true oa).2) in * end.
  exists ob. split; [done|].
  rewrite Hshape. simpl. unfold sameSchedule, cacheKept, readMap. simpl.
  rewrite Hs, Hd, Hsw, Hu, He, Hsa, Ht, Hsub. repeat split; done.
Qed.


(** ** Invariants of the refresh cycles *)

Lemma startDataRefreshSubscription_run (d : Z) (u : bool) (o : Operator) :
  startDataRefreshSubscription d u o
  = (Some tt,
     let subs1 := match dataRefreshSubscription o with
                  | Some k => <[k := Closed]> (subscriptions o)
                  | None => subscriptions o
                  end in
     match savedWalletsList o with
     | Some _ =>
         set_dataRefreshSubscription (Some (fresh (dom subs1)))
           (set_subscriptions (<[fresh (dom subs1) := Delaying d u]> subs1) o)
     | None => set_subscriptions subs1 o
     end).
Proof.
  unfold startDataRefreshSubscription, op_bind, op_get, unsubscribe, op_modify, op_ret.
  destruct (dataRefreshSubscription o) as [k|] eqn:Hk; destruct (savedWalletsList o) eqn:Hw;
    simpl; rewrite ?Hk, ?Hw; try reflexivity.
  by destruct o.
Qed.

(** After [startDataRefreshSubscription] one subscription at most is open,
    the new one, and it waits in [delay]. *)
Lemma startDataRefreshSubscription_oneOpen (d : Z) (u : bool) (o : Operator) :
  oneOpen o →
  let o' := (startDataRefreshSubscription d u o).2 in
  o' = set_dataRefreshSubscription (dataRefreshSubscription o')
         (set_subscriptions (subscriptions o') o)
  ∧ oneOpen o'
  ∧ (∀ k p, subscriptions o' !! k = Some p → p = Closed ∨ p = Delaying d u)
  ∧ (is_Some (savedWalletsList o) →
     ∃ k, dataRefreshSubscription o' = Some k
          ∧ subscriptions o !! k = None
          ∧ subscriptions o' !! k = Some (Delaying d u)).
Proof.
  intros Hone o'. subst o'. rewrite startDataRefreshSubscription_run. cbv zeta. cbn [snd].
  set (subs1 := match dataRefreshSubscription o with
                | Some k => <[k := Closed]> (subscriptions o)
                | None => subscriptions o
                end).
  assert (Hclosed : ∀ k p, subs1 !! k = Some p → p = Closed).
  { intros k p Hp.
    assert (p = Closed ∨ p ≠ Closed) as [|Hne] by (destruct p; auto); [done|]. exfalso.
    subst subs1. destruct (dataRefreshSubscription o) as [k0|] eqn:Hk0.
    - destruct (decide (k0 = k)) as [->|Hk].
      + rewrite lookup_insert_eq in Hp. by simplify_eq.
      + rewrite lookup_insert_ne in Hp by done. destruct (Hone k p Hp Hne). congruence.
    - destruct (Hone k p Hp Hne). congruence. }
  assert (Hdom : ∀ k, subs1 !! k = None → subscriptions o !! k = None).
  { intros k Hk. subst subs1. destruct (dataRefreshSubscription o) as [k0|]; [|done].
    destruct (decide (k0 = k)) as [->|Hne].
    - by rewrite lookup_insert_eq in Hk.
    - by rewrite lookup_insert_ne in Hk. }
  destruct (savedWalletsList o) as [ws|] eqn:Hw.
  - split; [done|]. split; [|split].
    + intros k p Hp Hne. cbn [subscriptions dataRefreshSubscription
        set_dataRefreshSubscription set_subscriptions] in *.
      destruct (decide (fresh (dom subs1) = k)) as [<-|Hk];
        [split; [done | simpl; rewrite Hw; eauto]|].
      rewrite lookup_insert_ne in Hp by done. by apply Hclosed in Hp.
    + intros k p Hp. cbn [subscriptions set_dataRefreshSubscription set_subscriptions] in Hp.
      destruct (decide (fresh (dom subs1) = k)) as [<-|Hk].
      * rewrite lookup_insert_eq in Hp. right. by simplify_eq.
      * rewrite lookup_insert_ne in Hp by done. left. by eapply Hclosed.
    + intros _. exists (fresh (dom subs1)). simpl. split; [done|]. split.
      * apply Hdom. apply not_elem_of_dom. apply is_fresh.
      * by rewrite lookup_insert_eq.
  - split; [by destruct o|]. split; [|split].
    + intros k p Hp Hne. simpl in Hp. by apply Hclosed in Hp.
    + intros k p Hp. simpl in Hp. left. by eapply Hclosed.
    + by intros [? ?].
Qed.

Lemma startDataRefreshSubscription_Inv (d : Z) (u : bool) (o : Operator) :
  oneOpen o → cacheOK o → Inv (startDataRefreshSubscription d u o).2.
Proof.
  intros Hone Hcache.
  destruct (startDataRefreshSubscription_oneOpen d u o Hone) as (Hshape & Hone' & Hph & _).
  split; [done|]. split.
  - rewrite Hshape. exact Hcache.
  - intros k tws Hk. destruct (Hph _ _ Hk); done.
Qed.

(** The callbacks of the subscription keep the invariant. *)
Lemma onNext_Inv (o : Operator) : oneOpen o → cacheOK o → Inv (onNext o).2.
Proof.
  intros Hone Hcache. unfold onNext, op_bind, op_modify, op_get. cbn [fst snd].
  by apply startDataRefreshSubscription_Inv.
Qed.

Lemma onError_Inv (o : Operator) : oneOpen o → cacheOK o → Inv (onError o).2.
Proof.
  intros Hone Hcache. unfold onError, op_bind, op_modify, op_get. cbn [fst snd].
  by apply startDataRefreshSubscription_Inv.
Qed.

(** What [tap] changes in a network pass. *)
Lemma refreshBalances_tap_network_frame (signals : list bool) (tws : list WalletWithBalance.t)
    (o : Operator) :
  let o' := (refreshBalances_tap signals tws false o).2 in
  (refreshBalances_tap signals tws false o).1 = Some tt
  ∧ sameSchedule o o'
  ∧ balanceMaps o' = balanceMaps o
  ∧ savedBalanceData o' = temporalSavedBalanceData o
  ∧ temporalSavedBalanceData o' = temporalSavedBalanceData o
  ∧ lastBalancesUpdateTimeSubject (subjects o') = S (lastBalancesUpdateTimeSubject (subjects o))
  ∧ hadErrorRefreshingBalanceSubject (subjects o') = hadErrorRefreshingBalanceSubject (subjects o)
  ∧ refreshingBalanceSubject (subjects o') = refreshingBalanceSubject (subjects o)
  ∧ firstFullUpdateMadeSubject (subjects o')
    = (if value (firstFullUpdateMadeSubject (subjects o))
       then firstFullUpdateMadeSubject (subjects o)
       else firstFullUpdateMadeSubject (subjects o) ++ [true]).
Proof.
  intros o'. subst o'. rewrite refreshBalances_tap_network. cbv zeta. cbn [fst snd].
  match goal with |- context [reconcile tws false ?oa] =>
    destruct (reconcile_publishes tws false oa) as (_ & Hshape & _);
    set (ob := (reconcile tws false oa).2) in * end.
  split; [done|].
  assert (Hff : firstFullUpdateMadeSubject (subjects ob) = firstFullUpdateMadeSubject (subjects o))
    by (rewrite Hshape; done).
  cbn [subjects set_savedBalanceData]. rewrite Hff.
  destruct (value (firstFullUpdateMadeSubject (subjects o))); cbn [negb];
    rewrite Hshape; unfold sameSchedule; simpl; repeat split; done.
Qed.

Lemma cacheOK_begin (wallets : list WalletBase.t) (o : Operator) :
  cacheOK o →
  let o' := (refreshBalances_begin wallets false o).2 in
  (refreshBalances_begin wallets false o).1 = Some (walletWithBalanceFromBase <$> wallets)
  ∧ cacheOK o' ∧ sameSchedule o o'
  ∧ savedBalanceData o' = savedBalanceData o
  ∧ savedBalanceData o' ≠ temporalSavedBalanceData o'
  ∧ readMap o' (temporalSavedBalanceData o') = ∅
  ∧ readMap o' (savedBalanceData o') = readMap o (savedBalanceData o)
  ∧ arrays o' = arrays o ∧ walletsWithBalanceList o' = walletsWithBalanceList o
  ∧ subjects o' = subjects o.
Proof.
  intros (Hs & Ht & Hfirst & Hper). cbv zeta.
  unfold refreshBalances_begin, op_bind, op_modify, op_ret, sameSchedule. cbn [negb fst snd].
  set (l := fresh (dom (balanceMaps o))).
  assert (Hl : l ∉ dom (balanceMaps o)) by apply is_fresh.
  assert (Hne : savedBalanceData o ≠ l) by (intros E; by rewrite E in Hs).
  split; [done|]. split; [|repeat split].
  - unfold cacheOK, readMap. simpl. rewrite dom_insert_L.
    split; [set_solver|]. split; [set_solver|]. split; [|done].
    intros H0. rewrite lookup_insert_ne by done. split; [by apply Hfirst | done].
  - done.
  - unfold readMap. simpl. by rewrite lookup_insert_eq.
  - unfold readMap. simpl. by rewrite lookup_insert_ne.
Qed.

Lemma oneOpen_sameSchedule (o o' : Operator) : sameSchedule o o' → oneOpen o → oneOpen o'.
Proof.
  intros (H1 & H2 & H3 & _) Hone k p Hp Hne. rewrite H2, H3. apply (Hone k p); [|done].
  by rewrite <- H1.
Qed.

Lemma onlyMaps_sameSchedule (o o' : Operator) : onlyMaps o o' → sameSchedule o o'.
Proof. intros ->. by repeat split. Qed.

(** The timer of a subscription keeps the invariant. *)
Lemma timerFired_Inv (DP : nat) (coin : Coin) (k : loc) (o : Operator) :
  Inv o → Inv (timerFired DP coin k o).
Proof.
  intros (Hone & Hcache & Hreq). unfold timerFired.
  destruct (subscriptions o !! k) as [[d uwf|tws|]|] eqn:Hk; try done.
  unfold afterDelay, op_bind at 1, op_modify at 1. unfold op_bind at 1, op_get at 1.
  set (o1 := set_subjects (next_refreshingBalance true (subjects o)) o).
  assert (Hone1 : oneOpen o1) by done.
  assert (Hcache1 : cacheOK o1) by done.
  change (savedWalletsList o1) with (savedWalletsList o).
  destruct (savedWalletsList o) as [wallets|] eqn:Hw.
  2: { unfold op_fail. by apply onError_Inv. }
  unfold op_bind at 1.
  assert (Hq : ∃ o2, (if uwf then refreshBalances DP coin (noNode) wallets true else op_ret tt) o1
                     = (Some tt, o2)
                ∧ oneOpen o2 ∧ cacheOK o2 ∧ subscriptions o2 = subscriptions o).
  { destruct uwf.
    - destruct (quick_pass_frame DP coin noNode wallets o1)
        as (o2 & Hrun & Hsched & Hsa & Hte & Hcount & Hdom & Hoth & _).
      pose proof Hsched as (Hs1 & Hs2 & _ & Hs4 & Hs5).
      exists o2. split; [done|]. split; [|split; [|done]].
      + by eapply oneOpen_sameSchedule.
      + destruct Hcache1 as (Hc1 & Hc2 & Hc3 & Hc4).
        unfold cacheOK. rewrite Hsa, Hte, Hcount, Hs4, Hs5.
        split; [set_solver|]. split; [set_solver|]. split; [|done].
        intros H0. destruct (Hc3 H0) as [He Hn]. split; [|done].
        unfold readMap. by rewrite Hoth.
    - exists o1. done. }
  destruct Hq as (o2 & -> & Hone2 & Hcache2 & Hsubs2).
  unfold op_bind at 1.
  destruct (cacheOK_begin wallets o2 Hcache2)
    as (Hrun & Hcache3 & Hsched3 & Hsa3 & Hne3 & Hempty3 & _).
  pose proof Hsched3 as (Hs1 & Hs2 & Hs3 & Hs4 & Hs5).
  destruct (refreshBalances_begin wallets false o2) as [r o3] eqn:Hb. simpl in Hrun. subst r.
  cbn [snd] in *.
  assert (Hone3 : oneOpen o3) by by eapply oneOpen_sameSchedule.
  destruct (walletWithBalanceFromBase <$> wallets) as [|w ws] eqn:Htws.
  - unfold op_bind at 1. simpl procedure. unfold op_ret at 1. unfold op_bind at 1.
    destruct (refreshBalances_tap_network_frame [false] [] o3)
      as (Hrun & Hsched4 & Hmaps & Hsa4 & Hte4 & Hcount4 & _).
    pose proof Hsched4 as (Ht1 & Ht2 & Ht3 & Ht4 & Ht5).
    simpl fst in *. simpl snd in *.
    destruct (refreshBalances_tap [false] [] false o3) as [r o4]. simpl in Hrun. subst r.
    cbn [snd] in *. unfold op_ret. apply onNext_Inv.
    + by eapply oneOpen_sameSchedule.
    + destruct Hcache3 as (Hc1 & Hc2 & Hc3 & Hc4).
      unfold cacheOK. rewrite Hsa4, Hte4, Hcount4, Hmaps, Ht4, Ht5.
      split; [done|]. split; [done|]. split; [done|]. done.
  - unfold op_ret. split; [|split].
    + intros k' p Hp Hne.
      cbn [subscriptions dataRefreshSubscription savedWalletsList set_subscriptions] in *.
      destruct (decide (k = k')) as [<-|Hkk].
      * apply (Hone3 k (Delaying d uwf)); [by rewrite Hs1, Hsubs2 | done].
      * rewrite lookup_insert_ne in Hp by done. by apply (Hone3 k' p).
    + exact Hcache3.
    + intros k' tws' _. split; [exact Hne3 | exact Hempty3].
Qed.

(** The answers of the node keep the invariant. *)
Lemma nodeAnswered_Inv (DP : nat) (coin : Coin) (k : loc) (node : Node) (o : Operator) :
  Inv o → Inv (nodeAnswered DP coin k node o).
Proof.
  intros (Hone & Hcache & Hreq). unfold nodeAnswered.
  destruct (subscriptions o !! k) as [[d uwf|tws|]|] eqn:Hk; try done.
  destruct (Hreq k tws Hk) as [Hreq1 Hreq2].
  unfold deliver, op_bind.
  destruct (procedure_frame DP coin node false tws o) as ((Hm & Hdom & Hoth) & _).
  destruct (onlyMaps_fields _ _ Hm) as (Ha & Hs & Hsub & Hw & Hd & Hu & He & Hsa & Ht & Hsw).
  destruct (procedure DP coin node tws false o) as [[r|] o1]; cbn [snd] in *.
  - destruct (refreshBalances_tap_network_frame r.1 r.2 o1)
      as (Hrun & Hsched2 & Hmaps & Hsa2 & Hte2 & Hcount2 & _).
    pose proof Hsched2 as (Ht1 & Ht2 & Ht3 & Ht4 & Ht5).
    destruct (refreshBalances_tap r.1 r.2 false o1) as [r2 o2]. simpl in Hrun. subst r2.
    cbn [snd] in *. apply onNext_Inv.
    + eapply oneOpen_sameSchedule; [exact Hsched2|].
      eapply oneOpen_sameSchedule; [by apply onlyMaps_sameSchedule | done].
    + destruct Hcache as (Hc1 & Hc2 & Hc3 & Hc4).
      unfold cacheOK. rewrite Hsa2, Hte2, Hcount2, Hmaps, Ht4, Ht5, Ht, Hu, He.
      split; [set_solver|]. split; [set_solver|]. split; [done|]. done.
  - apply onError_Inv.
    + eapply oneOpen_sameSchedule; [by apply onlyMaps_sameSchedule | done].
    + destruct Hcache as (Hc1 & Hc2 & Hc3 & Hc4).
      unfold cacheOK. rewrite Hsa, Ht, Hsub, Hu, He.
      split; [set_solver|]. split; [set_solver|]. split; [|done].
      intros H0. destruct (Hc3 H0) as [Hempty Hne]. split; [|done].
      unfold readMap. by rewrite Hoth.
Qed.

Lemma walletsChanged_Inv (wallets : list WalletBase.t) (o : Operator) :
  Inv o → Inv (walletsChanged wallets o).
Proof.
  intros (Hone & Hcache & _). apply startDataRefreshSubscription_Inv; [|done].
  intros k p Hp Hne. destruct (Hone k p Hp Hne). split; [done | simpl; eauto].
Qed.

Lemma refreshBalance_Inv (o : Operator) : Inv o → Inv (refreshBalance o).
Proof. intros (Hone & Hcache & _). by apply startDataRefreshSubscription_Inv. Qed.

Lemma constructor_Inv (coin : Coin) : Inv (constructor coin).
Proof.
  split; [|split].
  - intros k p Hp. done.
  - unfold cacheOK, constructor, readMap. cbn -[fresh].
    set (saved := fresh (dom (∅ : gmap loc (gmap string WalletBalance.t)))).
    set (maps1 := (<[saved := ∅]> ∅ : gmap loc (gmap string WalletBalance.t))).
    assert (Hne : saved ≠ fresh (dom maps1)).
    { intros E. pose proof (is_fresh (dom maps1)) as Hf. rewrite <- E in Hf.
      apply Hf. unfold maps1. rewrite dom_insert_L. set_solver. }
    split; [|split; [|split]].
    + rewrite !dom_insert_L. set_solver.
    + rewrite !dom_insert_L. set_solver.
    + intros _. split; [|done].
      rewrite lookup_insert_ne by done. unfold maps1. by rewrite lookup_insert_eq.
    + destruct (isLocal coin); lia.
  - intros k tws Hk. done.
Qed.

Lemma step_Inv (DP : nat) (coin : Coin) (o : Operator) (e : Event) :
  Inv o → Inv (step DP coin o e).
Proof.
  intros H. destruct e; simpl.
  - by apply walletsChanged_Inv.
  - by apply refreshBalance_Inv.
  - by apply timerFired_Inv.
  - by apply nodeAnswered_Inv.
Qed.

Lemma run_Inv (DP : nat) (coin : Coin) (events : list Event) (o : Operator) :
  Inv o → Inv (run DP coin events o).
Proof.
  revert o. induction events as [|e events IH]; intros o H; simpl; [done|].
  apply IH. by apply step_Inv.
Qed.

(** Every state the operator reaches satisfies the invariant. *)
Lemma reachable_Inv (DP : nat) (coin : Coin) (o : Operator) : reachable DP coin o → Inv o.
Proof. intros [events ->]. apply run_Inv, constructor_Inv. Qed.


(** ** The end of a network pass *)

Lemma op_mapM_network_map (DP : nat) (coin : Coin) (node : Node) (l : list WalletWithBalance.t)
    (o o1 : Operator) (r : list (bool * WalletWithBalance.t)) :
  op_mapM (λ w, retrieveWalletBalance DP coin node w false) l o = (Some r, o1) →
  readMap o1 (temporalSavedBalanceData o)
  = fetchedInto DP coin node (readMap o (temporalSavedBalanceData o)) l.
Proof.
  revert o o1 r. induction l as [|w l IH]; intros o o1 r; simpl.
  - by intros [= <- <-].
  - unfold op_bind at 1. rewrite retrieveWalletBalance_network.
    destruct ((nodeQuery DP coin w node).1) as [balance|] eqn:Hq; [|done].
    unfold op_bind at 1.
    destruct (op_mapM _ l _) as [[r'|] o'] eqn:Hrec; [|done].
    intros [= <- <-]. apply IH in Hrec.
    cbn [temporalSavedBalanceData set_balanceMaps] in Hrec.
    rewrite Hrec, readMap_insert, decide_True by done. unfold fetchedInto. cbn [foldl].
    by rewrite ?Hq.
Qed.

Lemma procedure_network_map (DP : nat) (coin : Coin) (node : Node)
    (tws : list WalletWithBalance.t) (o o1 : Operator) r :
  procedure DP coin node tws false o = (Some r, o1) →
  readMap o1 (temporalSavedBalanceData o)
  = fetchedInto DP coin node (readMap o (temporalSavedBalanceData o)) tws.
Proof.
  unfold procedure. destruct tws as [|w ws].
  - by intros [= <- <-].
  - unfold op_bind. destruct (op_mapM _ (w :: ws) o) as [[r'|] o'] eqn:E; [|done].
    intros [= <- <-]. by eapply op_mapM_network_map.
Qed.

(** The state after a callback of the subscription: the two flags are
    emitted and a new subscription waits for [d]. *)
Lemma callback_shape (b : bool) (d : Z) (o : Operator) :
  oneOpen o → is_Some (savedWalletsList o) →
  let oE := set_subjects
              (next_refreshingBalance false (next_hadErrorRefreshingBalance b (subjects o))) o in
  let o' := (startDataRefreshSubscription d false oE).2 in
  o' = set_dataRefreshSubscription (dataRefreshSubscription o')
         (set_subscriptions (subscriptions o') oE)
  ∧ ∃ k', dataRefreshSubscription o' = Some k'
          ∧ subscriptions o !! k' = None
          ∧ subscriptions o' !! k' = Some (Delaying d false)
          ∧ ∀ k p, subscriptions o' !! k = Some p → p ≠ Closed → k = k'.
Proof.
  intros Hone Hw oE o'.
  destruct (startDataRefreshSubscription_oneOpen d false oE Hone) as (Hshape & Hone' & _ & Hk).
  cbv zeta in Hshape, Hone', Hk. fold o' in Hshape, Hone', Hk.
  split; [exact Hshape|].
  destruct (Hk Hw) as (k' & H1 & H2 & H3). exists k'.
  split; [done|]. split; [done|]. split; [done|].
  intros k p Hp Hne. destruct (Hone' k p Hp Hne) as [E _]. congruence.
Qed.

Lemma value_snoc (l : list bool) (b : bool) : value (l ++ [b]) = b.
Proof. unfold value. by rewrite last_snoc. Qed.

(** When the node has answered the network pass of an open subscription:
    after a failed request the error flag is emitted as true, the next
    cycle waits for [errorUpdatePeriod], and the published list, the arrays
    and the saved data are as they were when the node was asked; after a
    pass without failure the flag is emitted as false, the saved data is
    the map of the balances just fetched, [firstFullUpdateMade] is true and
    is emitted only if it was false, and the next cycle waits for
    [updatePeriod]. *)
Lemma nodeAnswered_outcome (DP : nat) (coin : Coin) (o : Operator) (k : loc)
    (tws : list WalletWithBalance.t) (node : Node) :
  Inv o →
  subscriptions o !! k = Some (Requesting tws) →
  let result := (procedure DP coin node tws false o).1 in
  let o' := nodeAnswered DP coin k node o in
  errorUpdatePeriod o < updatePeriod o
  ∧ (result = None →
       hadErrorRefreshingBalanceSubject (subjects o')
       = hadErrorRefreshingBalanceSubject (subjects o) ++ [true]
       ∧ (∃ k', dataRefreshSubscription o' = Some k'
                ∧ subscriptions o' !! k' = Some (Delaying (errorUpdatePeriod o) false))
       ∧ walletsWithBalanceList o' = walletsWithBalanceList o
       ∧ arrays o' = arrays o
       ∧ walletsWithBalanceSubject (subjects o') = walletsWithBalanceSubject (subjects o)
       ∧ savedBalanceData o' = savedBalanceData o
       ∧ readMap o' (savedBalanceData o') = readMap o (savedBalanceData o)
       ∧ firstFullUpdateMadeSubject (subjects o') = firstFullUpdateMadeSubject (subjects o))
  ∧ (result ≠ None →
       hadErrorRefreshingBalanceSubject (subjects o')
       = hadErrorRefreshingBalanceSubject (subjects o) ++ [false]
       ∧ (∃ k', dataRefreshSubscription o' = Some k'
                ∧ subscriptions o' !! k' = Some (Delaying (updatePeriod o) false))
       ∧ savedBalanceData o' = temporalSavedBalanceData o
       ∧ readMap o' (savedBalanceData o') = fetchedData DP coin node tws
       ∧ value (firstFullUpdateMadeSubject (subjects o')) = true
       ∧ firstFullUpdateMadeSubject (subjects o')
         = (if value (firstFullUpdateMadeSubject (subjects o))
            then firstFullUpdateMadeSubject (subjects o)
            else firstFullUpdateMadeSubject (subjects o) ++ [true])).
Proof.
  intros (Hone & Hcache & Hreq) Hk result o'.
  destruct (Hreq k tws Hk) as [Hne Hempty].
  destruct (Hone k (Requesting tws) Hk ltac:(done)) as [Hd Hw].
  destruct Hcache as (_ & _ & _ & Hper).
  split; [exact Hper|].
  subst o' result. unfold nodeAnswered. rewrite Hk. unfold deliver, op_bind.
  destruct (procedure_frame DP coin node false tws o) as ((Hm & Hdom & Hoth) & _).
  pose proof (procedure_network_map DP coin node tws o) as Hmap.
  destruct (onlyMaps_fields _ _ Hm) as (Ha & Hs & Hsub & Hwl & Hdr & Hu & He & Hsa & Ht & Hsw).
  assert (Hone1 : oneOpen (procedure DP coin node tws false o).2)
    by (eapply oneOpen_sameSchedule; [by apply onlyMaps_sameSchedule | done]).
  destruct (procedure DP coin node tws false o) as [[r|] o1]; cbn [fst snd] in *.
  - split; [done|]. intros _.
    destruct (refreshBalances_tap_network_frame r.1 r.2 o1)
      as (Hrun & Hsched2 & Hmaps & Hsa2 & Hte2 & Hcount2 & Hhe2 & Hrf2 & Hff2).
    destruct (refreshBalances_tap r.1 r.2 false o1) as [r2 o2]. simpl in Hrun. subst r2.
    cbn [snd] in *.
    assert (Hone2 : oneOpen o2) by by eapply oneOpen_sameSchedule.
    assert (Hw2 : is_Some (savedWalletsList o2)).
    { destruct Hsched2 as (_ & _ & -> & _). by rewrite Hsw. }
    unfold onNext, op_bind, op_modify, op_get. cbn [fst snd].
    destruct (callback_shape false (updatePeriod o2) o2 Hone2 Hw2)
      as (Hshape & k' & Hk1 & _ & Hk3 & _).
    cbv zeta in Hshape, Hk1, Hk3.
    change (updatePeriod (set_subjects _ (set_subjects _ o2))) with (updatePeriod o2).
    set (o3 := (startDataRefreshSubscription _ _ _).2) in *.
    destruct Hsched2 as (_ & _ & _ & Hu2 & _).
    split; [|split; [|split; [|split; [|split]]]].
    + rewrite Hshape. simpl. by rewrite Hhe2, Hsub.
    + exists k'. split; [done|]. by rewrite <- Hu, <- Hu2.
    + rewrite Hshape. simpl. by rewrite Hsa2.
    + rewrite Hshape. unfold readMap. simpl. rewrite Hsa2, Hmaps, Ht.
      fold (readMap o1 (temporalSavedBalanceData o)).
      rewrite (Hmap o1 r eq_refl), Hempty. done.
    + rewrite Hshape. simpl. rewrite Hff2, Hsub.
      destruct (value (firstFullUpdateMadeSubject (subjects o))) eqn:Hv; [done|].
      apply value_snoc.
    + rewrite Hshape. simpl. by rewrite Hff2, Hsub.
  - split; [|done]. intros _.
    assert (Hw1 : is_Some (savedWalletsList o1)) by by rewrite Hsw.
    unfold onError, op_bind, op_modify, op_get. cbn [fst snd].
    destruct (callback_shape true (errorUpdatePeriod o1) o1 Hone1 Hw1)
      as (Hshape & k' & Hk1 & _ & Hk3 & _).
    cbv zeta in Hshape, Hk1, Hk3.
    change (errorUpdatePeriod (set_subjects _ (set_subjects _ o1))) with (errorUpdatePeriod o1).
    set (o3 := (startDataRefreshSubscription _ _ _).2) in *.
    split; [|split; [|split; [|split; [|split; [|split; [|split]]]]]].
    + rewrite Hshape. simpl. by rewrite Hsub.
    + exists k'. split; [done|]. by rewrite <- He.
    + rewrite Hshape. simpl. done.
    + rewrite Hshape. simpl. done.
    + rewrite Hshape. simpl. by rewrite Hsub.
    + rewrite Hshape. simpl. done.
    + rewrite Hshape. unfold readMap. simpl. rewrite Hsa, Hoth; done.
    + rewrite Hshape. simpl. by rewrite Hsub.
Qed.

(** ** The saved data *)

Lemma sameCache_cacheKept (o o1 : Operator) : sameCache o o1 → cacheKept o o1.
Proof. intros (Hm & _) id. left. unfold readMap. by rewrite Hm. Qed.

Lemma startDataRefreshSubscription_sameCache (d : Z) (u : bool) (o : Operator) :
  sameCache o (startDataRefreshSubscription d u o).2.
Proof.
  rewrite startDataRefreshSubscription_run. cbv zeta. cbn [snd].
  by destruct (savedWalletsList o).
Qed.

Lemma onNext_sameCache (o : Operator) : sameCache o (onNext o).2.
Proof.
  unfold onNext, op_bind, op_modify, op_get. cbn [fst snd].
  match goal with |- sameCache _ (startDataRefreshSubscription ?d ?u ?oE).2 =>
    destruct (startDataRefreshSubscription_sameCache d u oE) as (H1 & H2 & H3 & H4) end.
  unfold sameCache. by rewrite H1, H2, H3, H4.
Qed.

Lemma onError_sameCache (o : Operator) : sameCache o (onError o).2.
Proof.
  unfold onError, op_bind, op_modify, op_get. cbn [fst snd].
  match goal with |- sameCache _ (startDataRefreshSubscription ?d ?u ?oE).2 =>
    destruct (startDataRefreshSubscription_sameCache d u oE) as (H1 & H2 & H3 & H4) end.
  unfold sameCache. by rewrite H1, H2, H3, H4.
Qed.

(** Until a network pass ends, a step keeps the reference of the saved data
    and its entries. *)
Lemma step_keeps_cache (DP : nat) (coin : Coin) (o : Operator) (e : Event) :
  Inv o →
  lastBalancesUpdateTimeSubject (subjects (step DP coin o e))
  = lastBalancesUpdateTimeSubject (subjects o) →
  savedBalanceData (step DP coin o e) = savedBalanceData o
  ∧ cacheKept o (step DP coin o e).
Proof.
  intros (Hone & Hcache & Hreq).
  set (o' := step DP coin o e). assert (Heq : o' = step DP coin o e) by done. clearbody o'.
  intros Hcount. destruct e as [wallets| |k|k node]; simpl in Heq.
  - pose proof (startDataRefreshSubscription_sameCache 0 true
                  (set_savedWalletsList (Some wallets) o)) as Hs.
    subst o'. split; [apply Hs | by apply sameCache_cacheKept in Hs].
  - pose proof (startDataRefreshSubscription_sameCache 0 false o) as Hs.
    subst o'. split; [apply Hs | by apply sameCache_cacheKept].
  - unfold timerFired in Heq.
    destruct (subscriptions o !! k) as [[d uwf|tws|]|] eqn:Hk;
      try (subst o'; split; [done | apply cacheKept_refl]).
    unfold afterDelay, op_bind at 1, op_modify at 1 in Heq.
    unfold op_bind at 1, op_get at 1 in Heq.
    set (o1 := set_subjects (next_refreshingBalance true (subjects o)) o) in *.
    change (savedWalletsList o1) with (savedWalletsList o) in Heq.
    destruct (savedWalletsList o) as [wallets|] eqn:Hw.
    2: { unfold op_fail in Heq. pose proof (onError_sameCache o1) as Hs. subst o'.
         split; [apply Hs | by apply sameCache_cacheKept in Hs]. }
    unfold op_bind at 1 in Heq.
    assert (Hq : ∃ o2, (if uwf then refreshBalances DP coin (noNode) wallets true else op_ret tt) o1
                       = (Some tt, o2)
                  ∧ cacheOK o2 ∧ savedBalanceData o2 = savedBalanceData o
                  ∧ lastBalancesUpdateTimeSubject (subjects o2)
                    = lastBalancesUpdateTimeSubject (subjects o)
                  ∧ cacheKept o o2).
    { destruct uwf.
      - destruct (quick_pass_frame DP coin noNode wallets o1)
          as (o2 & Hrun & Hsched & Hsa & Hte & Hc & Hdom & Hoth & Hkept).
        pose proof Hsched as (Hs1 & Hs2 & _ & Hs4 & Hs5).
        exists o2. split; [done|]. split; [|done].
        destruct Hcache as (Hc1 & Hc2 & Hc3 & Hc4).
        unfold cacheOK. rewrite Hsa, Hte, Hc, Hs4, Hs5.
        split; [set_solver|]. split; [set_solver|]. split; [|done].
        intros H0. destruct (Hc3 H0) as [He Hn]. split; [|done].
        unfold readMap. by rewrite Hoth.
      - exists o1. split; [done|]. split; [done|]. split; [done|]. split; [done|].
        intros id. by left. }
    destruct Hq as (o2 & Hrun2 & Hcache2 & Hsa2 & Hc2 & Hkept2). rewrite Hrun2 in Heq.
    unfold op_bind at 1 in Heq.
    destruct (cacheOK_begin wallets o2 Hcache2)
      as (Hrun & Hcache3 & Hsched3 & Hsa3 & Hne3 & Hempty3 & Hread3 & _ & _ & Hsubj3).
    destruct (refreshBalances_begin wallets false o2) as [r o3] eqn:Hb. simpl in Hrun. subst r.
    cbn [snd] in *.
    assert (Hkept3 : cacheKept o o3).
    { intros id. specialize (Hkept2 id). rewrite Hsa3, Hsa2 in Hread3.
      by rewrite Hread3. }
    destruct (walletWithBalanceFromBase <$> wallets) as [|w ws] eqn:Htws.
    + unfold op_bind at 1 in Heq. simpl procedure in Heq. unfold op_ret at 1 in Heq.
      unfold op_bind at 1 in Heq.
      destruct (refreshBalances_tap_network_frame [false] [] o3)
        as (Hrun & _ & _ & _ & _ & Hcount4 & _).
      simpl fst in *. simpl snd in *.
      destruct (refreshBalances_tap [false] [] false o3) as [r o4]. simpl in Hrun. subst r.
      cbn [snd] in *. unfold op_ret in Heq.
      destruct (onNext_sameCache o4) as (_ & _ & _ & Hc5). subst o'.
      rewrite Hc5, Hcount4, Hsubj3, Hc2 in Hcount. lia.
    + unfold op_ret in Heq. subst o'. simpl. split; [congruence | exact Hkept3].
  - unfold nodeAnswered in Heq.
    destruct (subscriptions o !! k) as [[d uwf|tws|]|] eqn:Hk;
      try (subst o'; split; [done | apply cacheKept_refl]).
    destruct (Hreq k tws Hk) as [Hne _].
    unfold deliver, op_bind in Heq.
    destruct (procedure_frame DP coin node false tws o) as ((Hm & Hdom & Hoth) & _).
    destruct (onlyMaps_fields _ _ Hm) as (Ha & Hs & Hsub & Hw & Hd & Hu & He & Hsa & Ht & Hsw).
    destruct (procedure DP coin node tws false o) as [[r|] o1]; cbn [snd] in *.
    + destruct (refreshBalances_tap_network_frame r.1 r.2 o1)
        as (Hrun & _ & _ & _ & _ & Hcount2 & _).
      destruct (refreshBalances_tap r.1 r.2 false o1) as [r2 o2]. simpl in Hrun. subst r2.
      cbn [snd] in *. destruct (onNext_sameCache o2) as (_ & _ & _ & Hc5). subst o'.
      rewrite Hc5, Hcount2, Hsub in Hcount. lia.
    + destruct (onError_sameCache o1) as (Hm5 & Hs5 & _). subst o'.
      split; [congruence|]. intros id. left. unfold readMap.
      rewrite Hm5. by rewrite Hoth.
Qed.

Lemma addValues_new_fromBase (base : WalletBase.t) :
  addValues WalletBalance.new (walletWithBalanceFromBase base) = walletWithBalanceFromBase base.
Proof.
  unfold addValues, walletWithBalanceFromBase. simpl. unfold WalletWithBalance.set_addresses.
  simpl. f_equal. rewrite <- list_fmap_compose. apply list_fmap_ext. intros i a _. simpl.
  by rewrite lookup_empty.
Qed.

(** With no saved data every wallet of a pass on the saved data gets a new
    balance. *)
Lemma op_mapM_saved_empty (DP : nat) (coin : Coin) (node : Node)
    (l : list WalletWithBalance.t) (o : Operator) :
  readMap o (savedBalanceData o) = ∅ →
  savedBalanceData o ≠ temporalSavedBalanceData o →
  (op_mapM (λ w, retrieveWalletBalance DP coin node w true) l o).1
  = Some ((λ w, (value (hasPendingTransactionsSubject (subjects o)),
                 addValues WalletBalance.new w)) <$> l).
Proof.
  revert o. induction l as [|w l IH]; intros o Hempty Hne; [done|].
  cbn [op_mapM]. unfold op_bind at 1. rewrite retrieveWalletBalance_saved. cbv zeta.
  rewrite Hempty, lookup_empty. unfold op_bind at 1.
  match goal with |- context [op_mapM ?f l ?o1] =>
    specialize (IH o1); destruct (op_mapM f l o1) as [r o2] end.
  cbn [fst snd] in *. rewrite IH; [done| |done].
  rewrite readMap_insert, decide_False by done. exact Hempty.
Qed.

Lemma refreshBalances_saved_run (DP : nat) (coin : Coin) (node : Node)
    (wallets : list WalletBase.t) (o : Operator) :
  refreshBalances DP coin node wallets true o
  = match procedure DP coin node (walletWithBalanceFromBase <$> wallets) true o with
    | (Some r, o1) => refreshBalances_tap r.1 r.2 true o1
    | (None, o1) => (None, o1)
    end.
Proof. reflexivity. Qed.

(** A pass on the saved data publishes, under a new reference, the wallets
    as [procedure] leaves them. *)
Lemma quick_pass_publishes (DP : nat) (coin : Coin) (node : Node) (wallets : list WalletBase.t)
    (o : Operator) :
  let o' := (refreshBalances DP coin node wallets true o).2 in
  ∃ r, (procedure DP coin node (walletWithBalanceFromBase <$> wallets) true o).1 = Some r
       ∧ walletsWithBalanceList o' = Some (fresh (dom (arrays o)))
       ∧ readArray o' (fresh (dom (arrays o))) = r.2.
Proof.
  cbv zeta. rewrite refreshBalances_saved_run.
  destruct (procedure_saved_some DP coin node (walletWithBalanceFromBase <$> wallets) o) as [r Hr].
  destruct (procedure_frame DP coin node true (walletWithBalanceFromBase <$> wallets) o)
    as ((Hm & _) & _).
  destruct (procedure DP coin node _ true o) as [[r'|] o1] eqn:E; simpl in Hr; [|done].
  injection Hr as ->. exists r. split; [done|].
  cbn [snd] in *. rewrite refreshBalances_tap_saved. cbn [snd].
  destruct (onlyMaps_fields _ _ Hm) as (Ha & _).
  assert (Hrec : ∀ oa, reconcile r.2 true oa = updateWholeList r.2 oa).
  { intros oa. unfold reconcile, op_bind, op_get. by destruct (walletsWithBalanceList oa). }
  rewrite Hrec, updateWholeList_run. cbv zeta. cbn [snd]. simpl. rewrite Ha.
  split; [done|]. unfold readArray. simpl. by rewrite lookup_insert_eq.
Qed.

Lemma procedure_saved_empty (DP : nat) (coin : Coin) (node : Node)
    (wallets : list WalletBase.t) (o : Operator) :
  readMap o (savedBalanceData o) = ∅ →
  savedBalanceData o ≠ temporalSavedBalanceData o →
  ∃ signals,
    (procedure DP coin node (walletWithBalanceFromBase <$> wallets) true o).1
    = Some (signals, walletWithBalanceFromBase <$> wallets).
Proof.
  intros Hempty Hne. unfold procedure.
  destruct (walletWithBalanceFromBase <$> wallets) as [|w ws] eqn:Htws; [by eexists|].
  rewrite <- Htws. unfold op_bind.
  pose proof (op_mapM_saved_empty DP coin node (walletWithBalanceFromBase <$> wallets) o
                Hempty Hne) as Hm.
  destruct (op_mapM _ (walletWithBalanceFromBase <$> wallets) o) as [[rs|] o1];
    simpl in Hm; [|done].
  injection Hm as Hm. unfold op_ret. cbn [fst]. eexists. f_equal. f_equal. rewrite Hm.
  rewrite <- !list_fmap_compose. apply list_fmap_ext. intros i base _. simpl.
  apply addValues_new_fromBase.
Qed.

(** ** One refresh chain at a time *)

(** [startDataRefreshSubscription] closes every subscription there was. *)
Lemma startDataRefreshSubscription_closes (d : Z) (u : bool) (o : Operator) (k : loc) (p : Phase) :
  oneOpen o → subscriptions o !! k = Some p →
  subscriptions (startDataRefreshSubscription d u o).2 !! k = Some Closed.
Proof.
  intros Hone Hp. rewrite startDataRefreshSubscription_run. cbv zeta. cbn [snd].
  set (subs1 := match dataRefreshSubscription o with
                | Some k0 => <[k0 := Closed]> (subscriptions o)
                | None => subscriptions o
                end).
  assert (H1 : subs1 !! k = Some Closed).
  { assert (p = Closed ∨ p ≠ Closed) as [->|Hne] by (destruct p; auto).
    - subst subs1. destruct (dataRefreshSubscription o) as [k0|]; [|done].
      destruct (decide (k0 = k)) as [->|Hk]; [by rewrite lookup_insert_eq|].
      by rewrite lookup_insert_ne.
    - destruct (Hone k p Hp Hne) as [Hd _]. subst subs1. rewrite Hd.
      by rewrite lookup_insert_eq. }
  destruct (savedWalletsList o); simpl; [|done].
  rewrite lookup_insert_ne; [done|]. intros E.
  pose proof (is_fresh (dom subs1)) as Hf. rewrite E in Hf.
  apply Hf, elem_of_dom. eauto.
Qed.

Lemma onNext_closes (o : Operator) (k : loc) (p : Phase) :
  oneOpen o → subscriptions o !! k = Some p → subscriptions (onNext o).2 !! k = Some Closed.
Proof.
  intros Hone Hp. unfold onNext, op_bind, op_modify, op_get. cbn [fst snd].
  by eapply startDataRefreshSubscription_closes.
Qed.

Lemma onError_closes (o : Operator) (k : loc) (p : Phase) :
  oneOpen o → subscriptions o !! k = Some p → subscriptions (onError o).2 !! k = Some Closed.
Proof.
  intros Hone Hp. unfold onError, op_bind, op_modify, op_get. cbn [fst snd].
  by eapply startDataRefreshSubscription_closes.
Qed.

(** What the timer of a subscription that waits in [delay] leads to. *)
Lemma timerFired_cases (DP : nat) (coin : Coin) (k : loc) (o : Operator) (d : Z) (u : bool) :
  Inv o → subscriptions o !! k = Some (Delaying d u) →
  let o' := timerFired DP coin k o in
  (∃ wallets o3 w ws,
      savedWalletsList o = Some wallets
      ∧ walletWithBalanceFromBase <$> wallets = w :: ws
      ∧ o' = set_subscriptions (<[k := Requesting (w :: ws)]> (subscriptions o3)) o3
      ∧ sameSchedule o o3 ∧ passesEnded o3 = passesEnded o)
  ∨ (∃ o4, savedWalletsList o = Some []
           ∧ o' = (onNext o4).2 ∧ sameSchedule o o4 ∧ oneOpen o4
           ∧ passesEnded o4 = S (passesEnded o))
  ∨ (∃ o1, savedWalletsList o = None
           ∧ o' = (onError o1).2 ∧ sameSchedule o o1 ∧ oneOpen o1
           ∧ passesEnded o1 = passesEnded o).
Proof.
  intros (Hone & Hcache & Hreq) Hk o'.
  assert (Heq : o' = timerFired DP coin k o) by done. clearbody o'.
  unfold timerFired in Heq. rewrite Hk in Heq.
  unfold afterDelay, op_bind at 1, op_modify at 1 in Heq.
  unfold op_bind at 1, op_get at 1 in Heq.
  set (o1 := set_subjects (next_refreshingBalance true (subjects o)) o) in *.
  change (savedWalletsList o1) with (savedWalletsList o) in Heq.
  destruct (savedWalletsList o) as [wallets|] eqn:Hw.
  2: { right. right. exists o1. unfold op_fail in Heq.
       split; [done|]. split; [exact Heq|]. split; [by repeat split|].
       split; [exact Hone | done]. }
  unfold op_bind at 1 in Heq.
  assert (Hq : ∃ o2, (if u then refreshBalances DP coin (noNode) wallets true else op_ret tt) o1
                     = (Some tt, o2)
                ∧ cacheOK o2 ∧ sameSchedule o o2 ∧ passesEnded o2 = passesEnded o).
  { destruct u.
    - destruct (quick_pass_frame DP coin noNode wallets o1)
        as (o2 & Hrun & Hsched & Hsa & Hte & Hc & Hdom & Hoth & Hkept).
      pose proof Hsched as (Hs1 & Hs2 & _ & Hs4 & Hs5).
      exists o2. split; [done|]. split; [|done].
      destruct Hcache as (Hc1 & Hc2 & Hc3 & Hc4).
      unfold cacheOK. rewrite Hsa, Hte, Hc, Hs4, Hs5.
      split; [set_solver|]. split; [set_solver|]. split; [|done].
      intros H0. destruct (Hc3 H0) as [He Hn]. split; [|done].
      unfold readMap. by rewrite Hoth.
    - exists o1. split; [done|]. split; [exact Hcache|]. split; [by repeat split | done]. }
  destruct Hq as (o2 & Hrun2 & Hcache2 & Hsched2 & Hc2). rewrite Hrun2 in Heq.
  unfold op_bind at 1 in Heq.
  destruct (cacheOK_begin wallets o2 Hcache2)
    as (Hrun & Hcache3 & Hsched3 & _ & _ & _ & _ & _ & _ & Hsubj3).
  destruct (refreshBalances_begin wallets false o2) as [r o3] eqn:Hb. simpl in Hrun. subst r.
  cbn [snd] in *.
  assert (Hsched : sameSchedule o o3).
  { destruct Hsched2 as (A1 & A2 & A3 & A4 & A5), Hsched3 as (B1 & B2 & B3 & B4 & B5).
    unfold sameSchedule. by rewrite B1, B2, B3, B4, B5. }
  destruct (walletWithBalanceFromBase <$> wallets) as [|w ws] eqn:Htws.
  - right. left.
    unfold op_bind at 1 in Heq. simpl procedure in Heq. unfold op_ret at 1 in Heq.
    unfold op_bind at 1 in Heq.
    destruct (refreshBalances_tap_network_frame [false] [] o3)
      as (Hrun & Hsched4 & _ & _ & _ & Hcount4 & _).
    simpl fst in *. simpl snd in *.
    destruct (refreshBalances_tap [false] [] false o3) as [r o4]. simpl in Hrun. subst r.
    cbn [snd] in *. unfold op_ret in Heq. exists o4.
    assert (Hs4 : sameSchedule o o4).
    { destruct Hsched as (A1 & A2 & A3 & A4 & A5), Hsched4 as (B1 & B2 & B3 & B4 & B5).
      unfold sameSchedule. by rewrite B1, B2, B3, B4, B5. }
    split; [by destruct wallets|]. split; [done|]. split; [done|].
    split; [by eapply oneOpen_sameSchedule|]. by rewrite Hcount4, Hsubj3, Hc2.
  - left. exists wallets, o3, w, ws. unfold op_ret in Heq.
    split; [done|]. split; [done|]. split; [done|]. split; [done|]. by rewrite Hsubj3.
Qed.

(** What the answers of the node lead to. *)
Lemma nodeAnswered_cases (DP : nat) (coin : Coin) (k : loc) (node : Node) (o : Operator)
    (tws : list WalletWithBalance.t) :
  Inv o → subscriptions o !! k = Some (Requesting tws) →
  let o' := nodeAnswered DP coin k node o in
  match (procedure DP coin node tws false o).1 with
  | Some _ => ∃ o2, o' = (onNext o2).2 ∧ sameSchedule o o2 ∧ oneOpen o2
                    ∧ passesEnded o2 = S (passesEnded o)
  | None => ∃ o1, o' = (onError o1).2 ∧ sameSchedule o o1 ∧ oneOpen o1
                  ∧ passesEnded o1 = passesEnded o
  end.
Proof.
  intros (Hone & Hcache & Hreq) Hk o'. subst o'. unfold nodeAnswered. rewrite Hk.
  unfold deliver, op_bind.
  destruct (procedure_frame DP coin node false tws o) as ((Hm & _) & _).
  pose proof (onlyMaps_sameSchedule _ _ Hm) as Hsched1.
  destruct (onlyMaps_fields _ _ Hm) as (_ & _ & Hsub & _).
  destruct (procedure DP coin node tws false o) as [[r|] o1]; cbn [fst snd] in *.
  - destruct (refreshBalances_tap_network_frame r.1 r.2 o1)
      as (Hrun & Hsched2 & _ & _ & _ & Hcount2 & _).
    destruct (refreshBalances_tap r.1 r.2 false o1) as [r2 o2]. simpl in Hrun. subst r2.
    cbn [snd] in *. exists o2.
    assert (Hs : sameSchedule o o2).
    { destruct Hsched1 as (A1 & A2 & A3 & A4 & A5), Hsched2 as (B1 & B2 & B3 & B4 & B5).
      unfold sameSchedule. by rewrite B1, B2, B3, B4, B5. }
    split; [done|]. split; [done|]. split; [by eapply oneOpen_sameSchedule|].
    by rewrite Hcount2, Hsub.
  - exists o1. split; [done|]. split; [done|]. split; [by eapply oneOpen_sameSchedule|].
    by rewrite Hsub.
Qed.

(** A closed subscription stays closed. *)
Lemma step_closed (DP : nat) (coin : Coin) (o : Operator) (e : Event) (k : loc) :
  Inv o → subscriptions o !! k = Some Closed →
  subscriptions (step DP coin o e) !! k = Some Closed.
Proof.
  intros HInv Hk. pose proof HInv as (Hone & _ & _).
  destruct e as [wallets| |k'|k' node]; simpl.
  - eapply startDataRefreshSubscription_closes; [|exact Hk].
    intros k0 p Hp Hne. destruct (Hone k0 p Hp Hne). split; [done | simpl; eauto].
  - by eapply startDataRefreshSubscription_closes.
  - destruct (subscriptions o !! k') as [[d u|tws|]|] eqn:Hk';
      try (unfold timerFired; by rewrite Hk').
    destruct (timerFired_cases DP coin k' o d u HInv Hk')
      as [(wallets & o3 & w & ws & _ & _ & -> & (Hs & _) & _)
         | [(o4 & _ & -> & (Hs & _) & Hone4 & _) | (o1 & _ & -> & (Hs & _) & Hone1 & _)]].
    + simpl. rewrite lookup_insert_ne by congruence. by rewrite Hs.
    + eapply onNext_closes; [done|]. by rewrite Hs.
    + eapply onError_closes; [done|]. by rewrite Hs.
  - destruct (subscriptions o !! k') as [[d u|tws|]|] eqn:Hk';
      try (unfold nodeAnswered; by rewrite Hk').
    pose proof (nodeAnswered_cases DP coin k' node o tws HInv Hk') as Hc. cbv zeta in Hc.
    destruct ((procedure DP coin node tws false o).1).
    + destruct Hc as (o2 & -> & (Hs & _) & Hone2 & _).
      eapply onNext_closes; [done|]. by rewrite Hs.
    + destruct Hc as (o1 & -> & (Hs & _) & Hone1 & _).
      eapply onError_closes; [done|]. by rewrite Hs.
Qed.

Lemma run_closed (DP : nat) (coin : Coin) (events : list Event) (o : Operator) (k : loc) :
  Inv o → subscriptions o !! k = Some Closed →
  subscriptions (run DP coin events o) !! k = Some Closed.
Proof.
  revert o. induction events as [|e events IH]; intros o HInv Hk; simpl; [done|].
  apply IH; [by apply step_Inv | by apply step_closed].
Qed.

Lemma closed_ignores (DP : nat) (coin : Coin) (o : Operator) (k : loc) (node : Node) :
  subscriptions o !! k = Some Closed →
  timerFired DP coin k o = o ∧ nodeAnswered DP coin k node o = o.
Proof. intros Hk. unfold timerFired, nodeAnswered. by rewrite Hk. Qed.

Lemma op_mapM_network_success (DP : nat) (coin : Coin) (node : Node)
    (l : list WalletWithBalance.t) (o : Operator) :
  (∀ w, w ∈ l → is_Some (nodeQuery DP coin w node).1) →
  is_Some (op_mapM (λ w, retrieveWalletBalance DP coin node w false) l o).1.
Proof.
  revert o. induction l as [|w l IH]; intros o Hall; simpl; [eauto|].
  unfold op_bind at 1. rewrite retrieveWalletBalance_network.
  destruct (Hall w) as [b ->]; [set_solver|].
  unfold op_bind at 1.
  match goal with |- context [op_mapM ?f l ?o1] =>
    destruct (IH o1) as [bs Hbs]; [set_solver|];
    destruct (op_mapM f l o1) as [[bs'|] o2] end; simpl in *; [eauto | done].
Qed.

Lemma procedure_network_success (DP : nat) (coin : Coin) (node : Node)
    (tws : list WalletWithBalance.t) (o : Operator) :
  (∀ w, w ∈ tws → is_Some (nodeQuery DP coin w node).1) →
  is_Some (procedure DP coin node tws false o).1.
Proof.
  intros Hall. unfold procedure. destruct tws as [|w ws]; [simpl; eauto|].
  unfold op_bind. destruct (op_mapM_network_success DP coin node (w :: ws) o Hall) as [r Hr].
  destruct (op_mapM _ (w :: ws) o) as [[r'|] o']; simpl in *; [eauto | done].
Qed.

Lemma refreshBalance_shape (o : Operator) (wallets : list WalletBase.t) :
  oneOpen o → savedWalletsList o = Some wallets →
  let o1 := refreshBalance o in
  savedWalletsList o1 = Some wallets ∧ passesEnded o1 = passesEnded o
  ∧ ∃ k1, dataRefreshSubscription o1 = Some k1
          ∧ subscriptions o !! k1 = None
          ∧ subscriptions o1 !! k1 = Some (Delaying 0 false).
Proof.
  intros Hone Hw o1. subst o1. unfold refreshBalance.
  destruct (startDataRefreshSubscription_oneOpen 0 false o Hone) as (Hshape & _ & _ & Hk).
  cbv zeta in Hshape, Hk.
  split; [by rewrite Hshape|]. split; [by rewrite Hshape|].
  apply Hk. rewrite Hw. eauto.
Qed.

(** C8: in every state the operator reaches at most one subscription is
    open; [refreshBalance] and a change of the wallet list close every
    subscription there was; a closed subscription stays closed and its timer
    and its answers change nothing; and after two calls of [refreshBalance]
    the subscription of the first is closed, that of the second is the only
    open one, and when the timers fire and the node answers, one network
    pass ends. *)
Theorem one_refresh_chain (DP : nat) (coin : Coin) (o : Operator) :
  reachable DP coin o →
  (∀ k1 k2 p1 p2,
      subscriptions o !! k1 = Some p1 → subscriptions o !! k2 = Some p2 →
      p1 ≠ Closed → p2 ≠ Closed → k1 = k2)
  ∧ (∀ e k p,
       e = RefreshBalance ∨ (∃ wallets, e = WalletsChanged wallets) →
       subscriptions o !! k = Some p →
       subscriptions (step DP coin o e) !! k = Some Closed)
  ∧ (∀ k events node,
       subscriptions o !! k = Some Closed →
       let o' := run DP coin events o in
       subscriptions o' !! k = Some Closed
       ∧ timerFired DP coin k o' = o' ∧ nodeAnswered DP coin k node o' = o')
  ∧ (∀ wallets,
       savedWalletsList o = Some wallets →
       let o1 := refreshBalance o in
       let o2 := refreshBalance o1 in
       ∃ k1 k2,
         dataRefreshSubscription o1 = Some k1
         ∧ subscriptions o1 !! k1 = Some (Delaying 0 false)
         ∧ dataRefreshSubscription o2 = Some k2
         ∧ subscriptions o2 !! k2 = Some (Delaying 0 false)
         ∧ k1 ≠ k2
         ∧ subscriptions o2 !! k1 = Some Closed
         ∧ (∀ k p, subscriptions o2 !! k = Some p → p ≠ Closed → k = k2)
         ∧ ∀ node,
             (∀ w, w ∈ walletWithBalanceFromBase <$> wallets →
                   is_Some (nodeQuery DP coin w node).1) →
             passesEnded (run DP coin [TimerFired k1; NodeAnswered k1 node;
                                      TimerFired k2; NodeAnswered k2 node] o2)
             = S (passesEnded o)).
Proof.
  intros Hreach. pose proof (reachable_Inv _ _ _ Hreach) as HInv.
  pose proof HInv as (Hone & Hcache & Hreq).
  split; [|split; [|split]].
  - intros k1 k2 p1 p2 H1 H2 Hn1 Hn2.
    destruct (Hone k1 p1 H1 Hn1) as [E1 _]. destruct (Hone k2 p2 H2 Hn2) as [E2 _]. congruence.
  - intros e k p [->|[wallets ->]] Hp; simpl.
    + by eapply startDataRefreshSubscription_closes.
    + eapply startDataRefreshSubscription_closes; [|exact Hp].
      intros k0 p0 Hp0 Hne. destruct (Hone k0 p0 Hp0 Hne). split; [done | simpl; eauto].
  - intros k events node Hk o'.
    assert (Hc : subscriptions o' !! k = Some Closed) by by apply run_closed.
    split; [exact Hc|]. by apply closed_ignores.
  - intros wallets Hw o1 o2.
    destruct (refreshBalance_shape o wallets Hone Hw) as (Hw1 & Hc1 & k1 & Hd1 & Hnew1 & Hs1).
    fold o1 in Hw1, Hc1, Hd1, Hs1.
    assert (HInv1 : Inv o1) by by apply refreshBalance_Inv.
    pose proof HInv1 as (Hone1 & _).
    destruct (refreshBalance_shape o1 wallets Hone1 Hw1) as (Hw2 & Hc2 & k2 & Hd2 & Hnew2 & Hs2).
    fold o2 in Hw2, Hc2, Hd2, Hs2.
    assert (HInv2 : Inv o2) by by apply refreshBalance_Inv.
    pose proof HInv2 as (Hone2 & _).
    assert (Hclosed : subscriptions o2 !! k1 = Some Closed)
      by by eapply startDataRefreshSubscription_closes.
    exists k1, k2.
    split; [done|]. split; [done|]. split; [done|]. split; [done|].
    split; [congruence|]. split; [done|]. split.
    { intros k p Hp Hne. destruct (Hone2 k p Hp Hne) as [E _]. congruence. }
    intros node Hall. cbn [run foldl step].
    destruct (closed_ignores DP coin o2 k1 node Hclosed) as [-> ->].
    destruct (timerFired_cases DP coin k2 o2 0 false HInv2 Hs2)
      as [(wallets' & o3 & w & ws & Hw3 & Htws & Heq & Hsched3 & Hc3)
         | [(o4 & Hw4 & Heq & (Hsub4 & _) & Hone4 & Hc4) | (o5 & Hw5 & _)]].
    + assert (wallets' = wallets) as -> by congruence.
      assert (HInv3 : Inv (timerFired DP coin k2 o2)) by by apply timerFired_Inv.
      assert (Hk3 : subscriptions (timerFired DP coin k2 o2) !! k2 = Some (Requesting (w :: ws))).
      { rewrite Heq. simpl. by rewrite lookup_insert_eq. }
      pose proof (nodeAnswered_cases DP coin k2 node _ _ HInv3 Hk3) as Hcase. cbv zeta in Hcase.
      destruct (procedure_network_success DP coin node (w :: ws) (timerFired DP coin k2 o2))
        as [r Hr]; [by rewrite <- Htws|].
      rewrite Hr in Hcase. destruct Hcase as (o6 & -> & _ & _ & Hc6).
      destruct (onNext_sameCache o6) as (_ & _ & _ & ->).
      rewrite Hc6, Heq. simpl. by rewrite Hc3, Hc2, Hc1.
    + assert (Hk4 : subscriptions (timerFired DP coin k2 o2) !! k2 = Some Closed).
      { rewrite Heq. eapply onNext_closes; [done|]. by rewrite Hsub4. }
      destruct (closed_ignores DP coin _ k2 node Hk4) as [_ ->].
      rewrite Heq. destruct (onNext_sameCache o4) as (_ & _ & _ & ->).
      by rewrite Hc4, Hc2, Hc1.
    + congruence.
Qed.

Lemma one_refresh_chain_witness :
  let o := walletsChanged [Scenario.W] (constructor Scenario.coin) in
  let o2 := refreshBalance (refreshBalance o) in
  reachable 20 Scenario.coin o
  ∧ savedWalletsList o = Some [Scenario.W]
  ∧ (∀ w, w ∈ walletWithBalanceFromBase <$> [Scenario.W] →
          is_Some (nodeQuery 20 Scenario.coin w Scenario.node).1)
  ∧ ∃ k1 k2,
      subscriptions o2 !! k1 = Some Closed
      ∧ subscriptions o2 !! k2 = Some (Delaying 0 false)
      ∧ passesEnded (run 20 Scenario.coin
                       [TimerFired k1; NodeAnswered k1 Scenario.node;
                        TimerFired k2; NodeAnswered k2 Scenario.node] o2)
        = 1%nat.
Proof.
  intros o o2.
  assert (Hreach : reachable 20 Scenario.coin o) by (by exists [WalletsChanged [Scenario.W]]).
  assert (Hw : savedWalletsList o = Some [Scenario.W]) by reflexivity.
  assert (Hall : ∀ w, w ∈ walletWithBalanceFromBase <$> [Scenario.W] →
                      is_Some (nodeQuery 20 Scenario.coin w Scenario.node).1).
  { intros w Hin. apply list_elem_of_fmap in Hin as (base & -> & Hin).
    apply list_elem_of_singleton in Hin as ->. vm_compute. eauto. }
  split; [exact Hreach|]. split; [exact Hw|]. split; [exact Hall|].
  destruct (one_refresh_chain 20 Scenario.coin o Hreach) as (_ & _ & _ & H).
  destruct (H [Scenario.W] Hw) as (k1 & k2 & _ & _ & _ & H4 & _ & H6 & _ & H8).
  exists k1, k2. split; [exact H6|]. split; [exact H4|]. exact (H8 Scenario.node Hall).
Defined.

(** ** The version of the node *)

Lemma split_cons (sep : ascii) (s : string) : ∃ p ps, split sep s = p :: ps.
Proof.
  destruct s as [|ch s]; simpl; [by eexists _, _|].
  destruct (Ascii.eqb ch sep); by eexists _, _.
Qed.

Lemma split_without (sep : ascii) (s : string) : contains sep s = false → split sep s = [s].
Proof.
  induction s as [|ch s IH]; simpl; [done|].
  intros [Hch Hs]%orb_false_iff. rewrite Hch, (IH Hs). done.
Qed.

Lemma split_app (sep : ascii) (a b : string) :
  contains sep a = false → split sep (a +:+ String sep b) = a :: split sep b.
Proof.
  induction a as [|ch a IH]; simpl.
  - intros _. by rewrite Ascii.eqb_refl.
  - intros [Hch Ha]%orb_false_iff. rewrite Hch, (IH Ha). done.
Qed.

Lemma split_pieces (sep : ascii) (s : string) :
  Forall (λ p, contains sep p = false) (split sep s).
Proof.
  induction s as [|ch s IH]; simpl; [by repeat constructor|].
  destruct (Ascii.eqb ch sep) eqn:E; [by constructor|].
  destruct (split_cons sep s) as (p & ps & Hs). rewrite Hs in IH |- *. simpl.
  inversion IH; subst. constructor; [|done]. simpl. by rewrite E.
Qed.

Lemma nodeVersionOf_two (name version : string) (more : list string) (response : string) :
  split "/" response = name :: version :: more →
  nodeVersionOf response = name +:+ "/" +:+ version.
Proof. unfold nodeVersionOf. by intros ->. Qed.

Lemma length_append (a b : string) :
  String.length (a +:+ b) = (String.length a + String.length b)%nat.
Proof. induction a as [|ch a IH]; simpl; [done|by rewrite IH]. Qed.

Lemma length_substring (m : nat) (s : string) :
  (m ≤ String.length s)%nat → String.length (String.substring 0 m s) = m.
Proof.
  revert s; induction m as [|m IH]; intros s Hm.
  - by destruct s.
  - destruct s as [|ch s]; simpl in *; [lia|]. rewrite IH; [done|lia].
Qed.

Lemma contains_append (ch : ascii) (a b : string) :
  contains ch (a +:+ b) = contains ch a || contains ch b.
Proof. induction a as [|c a IH]; simpl; [done|]. by rewrite IH, orb_assoc. Qed.

Lemma contains_substring (ch : ascii) (m : nat) (s : string) :
  contains ch s = false → contains ch (String.substring 0 m s) = false.
Proof.
  revert s; induction m as [|m IH]; intros s; [by destruct s|].
  destruct s as [|c s]; simpl; [done|].
  intros [Hc Hs]%orb_false_iff. by rewrite Hc, IH.
Qed.

(** The pieces and the separators between them make up the text. *)
Lemma split_length (sep : ascii) (s : string) :
  (foldr (λ p n, String.length p + n) 0 (split sep s) + length (split sep s)
   = S (String.length s))%nat.
Proof.
  induction s as [|ch s IH]; simpl; [done|].
  destruct (Ascii.eqb ch sep); simpl; [lia|].
  destruct (split_cons sep s) as (p & ps & Hs). rewrite Hs in IH |- *. simpl in *. lia.
Qed.

Lemma nodeVersionOf_without (response : string) :
  contains "/" response = false →
  nodeVersionOf response
  = if (String.length response <? 15)%nat then response
    else String.substring 0 12 response +:+ "...".
Proof. intros H. unfold nodeVersionOf. by rewrite (split_without _ _ H). Qed.

Lemma nodeVersionOf_pair (name version : string) :
  contains "/" name = false → contains "/" version = false →
  nodeVersionOf (name +:+ "/" +:+ version) = name +:+ "/" +:+ version.
Proof.
  intros Hn Hv. apply (nodeVersionOf_two name version []).
  change ("/" +:+ version) with (String "/" version).
  by rewrite (split_app _ _ _ Hn), (split_without _ _ Hv).
Qed.

Lemma split_one_without (sep : ascii) (s p : string) : split sep s = [p] → contains sep s = false.
Proof.
  revert p; induction s as [|ch s IH]; [done|]. simpl. intros p.
  destruct (split_cons sep s) as (q & qs & E). rewrite E.
  destruct (Ascii.eqb ch sep) eqn:Ech; [done|]. simpl.
  intros [= <- ->]. by eapply IH.
Qed.

Lemma substring_substring_append (m : nat) (s t : string) :
  (m ≤ String.length s)%nat →
  String.substring 0 m (String.substring 0 m s +:+ t) = String.substring 0 m s.
Proof.
  revert s; induction m as [|m IH]; intros s Hm; [by destruct s; destruct t|].
  destruct s as [|c s]; simpl in *; [lia|]. rewrite IH; [done|lia].
Qed.

(** X1: a response with the name of the node, its version and possibly
    more parts, separated by [/], gives the name and the version with one
    separator between them, however long they are. *)
Theorem nodeVersion_name_and_version (name version rest : string) :
  contains "/" name = false → contains "/" version = false →
  nodeVersionOf (name +:+ "/" +:+ version) = name +:+ "/" +:+ version
  ∧ nodeVersionOf (name +:+ "/" +:+ version +:+ "/" +:+ rest) = name +:+ "/" +:+ version.
Proof.
  intros Hn Hv. split; [by apply nodeVersionOf_pair|].
  destruct (split_cons "/" rest) as (p & ps & Hr).
  apply (nodeVersionOf_two name version (p :: ps)).
  change ("/" +:+ version +:+ "/" +:+ rest) with (String "/" (version +:+ String "/" rest)).
  by rewrite (split_app _ _ _ Hn), (split_app _ _ _ Hv), Hr.
Qed.

Lemma nodeVersion_name_and_version_witness :
  nodeVersionOf "Geth/v1.9.9-stable-01744997/linux-amd64/go1.13.4" = "Geth/v1.9.9-stable-01744997".
Proof.
  exact (proj2 (nodeVersion_name_and_version "Geth" "v1.9.9-stable-01744997"
                  "linux-amd64/go1.13.4" eq_refl eq_refl)).
Defined.

(** X2: a response without [/] is kept if it has fewer than 15 characters;
    otherwise its first 12 characters are kept and three dots follow. The
    version text then has at most 15 characters. *)
Theorem nodeVersion_without_separator (response : string) :
  contains "/" response = false →
  (String.length (nodeVersionOf response) ≤ 15)%nat
  ∧ ((String.length response < 15)%nat → nodeVersionOf response = response)
  ∧ ((15 ≤ String.length response)%nat →
       nodeVersionOf response = String.substring 0 12 response +:+ "..."
       ∧ String.length (nodeVersionOf response) = 15%nat).
Proof.
  intros H. rewrite (nodeVersionOf_without _ H).
  destruct (Nat.ltb_spec (String.length response) 15) as [Hlt|Hge].
  - split; [lia|]. split; [done|lia].
  - assert (String.length (String.substring 0 12 response +:+ "...") = 15%nat) as Hlen.
    { rewrite length_append, length_substring; [done|lia]. }
    split; [lia|]. split; [lia|done].
Qed.

Lemma nodeVersion_without_separator_witness :
  nodeVersionOf "besu" = "besu"
  ∧ nodeVersionOf "OpenEthereum-v3.0.1" = "OpenEthereum..."
  ∧ nodeVersionOf "exactly15chars." = "exactly15cha...".
Proof.
  split; [exact (proj1 (proj2 (nodeVersion_without_separator "besu" eq_refl)) ltac:(simpl; lia))|].
  split.
  - exact (proj1 (proj2 (proj2 (nodeVersion_without_separator "OpenEthereum-v3.0.1" eq_refl))
                   ltac:(simpl; lia))).
  - exact (proj1 (proj2 (proj2 (nodeVersion_without_separator "exactly15chars." eq_refl))
                   ltac:(simpl; lia))).
Defined.

(** X3: the version text is never longer than the response, and taking
    the version of a version text gives the same text. *)
Theorem nodeVersion_idempotent (response : string) :
  (String.length (nodeVersionOf response) ≤ String.length response)%nat
  ∧ nodeVersionOf (nodeVersionOf response) = nodeVersionOf response.
Proof.
  pose proof (split_pieces "/" response) as Hp.
  pose proof (split_length "/" response) as Hl.
  destruct (split "/" response) as [|name [|version more]] eqn:Hs.
  - destruct (split_cons "/" response) as (p & ps & E). congruence.
  - pose proof (split_one_without _ _ _ Hs) as Hc.
    rewrite (nodeVersionOf_without _ Hc).
    destruct (Nat.ltb_spec (String.length response) 15) as [Hlt|Hge].
    + split; [lia|]. rewrite (nodeVersionOf_without _ Hc).
      by destruct (Nat.ltb_spec (String.length response) 15); [|lia].
    + assert (String.length (String.substring 0 12 response +:+ "...") = 15%nat) as Hlen.
      { rewrite length_append, length_substring; [done|lia]. }
      split; [lia|].
      rewrite nodeVersionOf_without by (rewrite contains_append, contains_substring; done).
      rewrite Hlen. simpl (15 <? 15)%nat. cbv iota.
      f_equal. apply substring_substring_append. lia.
  - rewrite (nodeVersionOf_two name version more _ Hs).
    inversion Hp as [|? ? Hn Hp']; subst. inversion Hp' as [|? ? Hv _]; subst.
    split.
    + rewrite !length_append. simpl in *. lia.
    + by apply nodeVersionOf_pair.
Qed.

(** ** The node operator over time *)

Lemma n_run_app (coin : Coin) (l1 l2 : list (option RpcResult)) (n : NodeOperator) :
  n_run coin (l1 ++ l2) n = n_run coin l2 (n_run coin l1 n).
Proof. apply foldl_app. Qed.

Lemma n_run_idle (coin : Coin) (answers : list (option RpcResult)) (n : NodeOperator) :
  basicInfoSubscription n = None → n_run coin answers n = n.
Proof.
  induction answers as [|a l IH]; intros H; [done|].
  change (n_run coin l (versionAnswered coin a n) = n).
  assert (versionAnswered coin a n = n) as -> by (unfold versionAnswered; by rewrite H).
  by apply IH.
Qed.

Lemma n_run_failures (coin : Coin) (failures : nat) :
  n_run coin (replicate failures None) n_constructor
  = updateData (match failures with
                | O => 0
                | S _ => if isLocal coin then 2000 else 15000
                end) n_constructor.
Proof.
  induction failures as [|k IH]; [done|].
  replace (replicate (S k) None) with (replicate k (None : option RpcResult) ++ [None])
    by (by rewrite <- replicate_S_end).
  rewrite n_run_app, IH. by destruct k.
Qed.

(** X4: the version is asked for until the node answers with a text: each
    failure schedules a retry (after 2 s for a local node, 15 s otherwise)
    and changes nothing else; the first text sets the version and makes
    [remoteNodeDataUpdated] emit [true] once; after it no request is open
    and nothing changes any more. *)
Theorem node_version_fetched_once (coin : Coin) (failures : nat) (response : string)
    (later : list (option RpcResult)) :
  let retry := if isLocal coin then 2000 else 15000 in
  let failing := n_run coin (replicate failures None) n_constructor in
  let n := n_run coin (replicate failures None ++ [Some (RString response)] ++ later)
             n_constructor in
  basicInfoSubscription failing = Some (match failures with O => 0 | S _ => retry end)
  ∧ nodeVersion failing = ""%string
  ∧ remoteNodeDataUpdatedInternal failing = []
  ∧ nodeVersion n = nodeVersionOf response
  ∧ remoteNodeDataUpdatedInternal n = [true]
  ∧ basicInfoSubscription n = None.
Proof.
  intros retry failing n. subst failing n retry.
  rewrite !n_run_app, n_run_failures.
  split; [done|]. split; [done|]. split; [done|].
  by rewrite n_run_idle.
Qed.

(** ** The blockchain operator over time *)

Lemma bc_run_app (l1 l2 : list (option RpcResult)) (b : BlockchainOperator) :
  bc_run (l1 ++ l2) b = bc_run l2 (bc_run l1 b).
Proof. apply foldl_app. Qed.

Lemma bc_run_idle (answers : list (option RpcResult)) (b : BlockchainOperator) :
  scheduled b = None → bc_run answers b = b.
Proof.
  induction answers as [|a l IH]; intros H; [done|].
  change (bc_run l (bc_answered a b) = b).
  assert (bc_answered a b = b) as -> by (unfold bc_answered; by rewrite H).
  by apply IH.
Qed.

Lemma bc_run_handled (answers : list (option RpcResult)) (b : BlockchainOperator) :
  Forall handled answers → is_Some (scheduled b) →
  let b' := bc_run answers b in
  progressSubject b' = progressSubject b ++ omap emittedFor answers
  ∧ bc_updatePeriod b' = bc_updatePeriod b
  ∧ bc_errorUpdatePeriod b' = bc_errorUpdatePeriod b
  ∧ scheduled b' = match list.last answers with
                   | None => scheduled b
                   | Some None => Some (bc_errorUpdatePeriod b)
                   | Some (Some _) => Some (bc_updatePeriod b)
                   end.
Proof.
  intros H. revert b. induction H as [|a l Ha Hl IH]; intros b [d Hd].
  - simpl. by rewrite app_nil_r.
  - change (bc_run (a :: l) b) with (bc_run l (bc_answered a b)).
    assert (bc_answered a b = syncingAnswered a b) as -> by (unfold bc_answered; by rewrite Hd).
    assert (∃ b1, syncingAnswered a b = b1 ∧ is_Some (scheduled b1)
                  ∧ progressSubject b1 = progressSubject b ++ from_option (λ p, [p]) [] (emittedFor a)
                  ∧ bc_updatePeriod b1 = bc_updatePeriod b
                  ∧ bc_errorUpdatePeriod b1 = bc_errorUpdatePeriod b
                  ∧ scheduled b1 = match a with
                                   | None => Some (bc_errorUpdatePeriod b)
                                   | Some _ => Some (bc_updatePeriod b)
                                   end) as (b1 & <- & Hs & Hp & Hu & He & Hsch).
    { eexists; split; [done|]. destruct Ha as [->|[p Hp]].
      - simpl. rewrite app_nil_r. split; [by eexists|done].
      - destruct a as [r|]; [|done]. simpl in Hp. simpl. unfold syncingAnswered.
        rewrite Hp. simpl. split; [by eexists|done]. }
    destruct (IH _ Hs) as (IH1 & IH2 & IH3 & IH4). cbv zeta.
    rewrite IH1, IH2, IH3, IH4, Hp, Hu, He, Hsch, <- app_assoc. simpl omap.
    split; [|split; [done|split; [done|]]].
    + by destruct (emittedFor a).
    + destruct l as [|a' l']; [by destruct a|]. rewrite last_cons_cons.
      destruct (list.last (a' :: l')) as [[?|]|] eqn:E; [done|done|].
      by apply last_None in E.
Qed.

Lemma progressOf_synchronized (result : RpcResult) (p : ProgressEvent) :
  progressOf result = Some p →
  synchronized p = true → currentBlock p = Some 0 ∧ highestBlock p = Some 0.
Proof. destruct result as [s|[]|c h]; simpl; intros [= <-]; done. Qed.

(** X5: while every [eth_syncing] request fails or gets a result the
    callback can read ([false] or a status object), the polling goes on:
    each result makes [progress] emit one value, a failure emits nothing,
    the next query is scheduled after [updatePeriod] (after
    [errorUpdatePeriod], which is not longer, if the last request failed),
    and a value with [synchronized] true always has both blocks at 0. *)
Theorem sync_polling_goes_on (coin : Coin) (answers : list (option RpcResult)) :
  Forall handled answers →
  let b := bc_run answers (bc_constructor coin) in
  progressSubject b = omap emittedFor answers
  ∧ scheduled b = Some (match list.last answers with
                        | None => 0
                        | Some None => bc_errorUpdatePeriod b
                        | Some (Some _) => bc_updatePeriod b
                        end)
  ∧ bc_errorUpdatePeriod b ≤ bc_updatePeriod b
  ∧ ∀ p, p ∈ progressSubject b →
         synchronized p = true → currentBlock p = Some 0 ∧ highestBlock p = Some 0.
Proof.
  intros H b.
  destruct (bc_run_handled answers (bc_constructor coin) H ltac:(by eexists)) as (H1 & H2 & H3 & H4).
  fold b in H1, H2, H3, H4. simpl in H1.
  split; [done|]. split.
  { rewrite H4, H2, H3. by destruct (list.last answers) as [[?|]|]. }
  split.
  { rewrite H2, H3. simpl. destruct (isLocal coin); lia. }
  intros p Hp. rewrite H1 in Hp. apply list_elem_of_omap in Hp as (a & _ & Ha).
  destruct a as [r|]; [|done]. by apply (progressOf_synchronized r).
Qed.

Lemma sync_polling_goes_on_witness :
  let b := bc_run [None; Some (RBool false); Some (RSyncing "0x64" "0xc8")]
             (bc_constructor Scenario.coin) in
  progressSubject b
  = [{| currentBlock := Some 0; highestBlock := Some 0; synchronized := true |};
     {| currentBlock := Some 100; highestBlock := Some 200; synchronized := false |}]
  ∧ scheduled b = Some 2000.
Proof.
  assert (Forall handled [None; Some (RBool false); Some (RSyncing "0x64" "0xc8")]) as H.
  { constructor; [by left|]. constructor; [right; by eexists|].
    constructor; [right; by eexists|]. constructor. }
  destruct (sync_polling_goes_on Scenario.coin _ H) as (H1 & H2 & _).
  split; [exact H1|exact H2].
Defined.

(** X6: a result the callback cannot read ([true], a text) makes it throw
    before it schedules the next query: nothing is emitted for it, no query
    is scheduled, and the operator stays as it is whatever comes later. *)
Theorem unreadable_sync_answer_stops_polling (coin : Coin) (answers later : list (option RpcResult))
    (bad : RpcResult) :
  Forall handled answers → progressOf bad = None →
  let b := bc_run (answers ++ [Some bad] ++ later) (bc_constructor coin) in
  progressSubject b = omap emittedFor answers
  ∧ scheduled b = None.
Proof.
  intros H Hbad b. subst b. rewrite !bc_run_app.
  destruct (bc_run_handled answers (bc_constructor coin) H ltac:(by eexists)) as (H1 & _ & _ & H4).
  cbv zeta in H1, H4. set (b0 := bc_run answers (bc_constructor coin)) in *.
  assert (is_Some (scheduled b0)) as [d Hd].
  { rewrite H4. by destruct (list.last answers) as [[?|]|]. }
  assert (bc_run [Some bad] b0
          = {| progressSubject := progressSubject b0; scheduled := None;
               bc_updatePeriod := bc_updatePeriod b0;
               bc_errorUpdatePeriod := bc_errorUpdatePeriod b0 |}) as E.
  { simpl. unfold bc_answered. rewrite Hd. simpl. by rewrite Hbad. }
  rewrite E, bc_run_idle by done. simpl. by rewrite H1.
Qed.

Lemma unreadable_sync_answer_stops_polling_witness :
  let b := bc_run ([Some (RBool false)] ++ [Some (RBool true)] ++ [Some (RBool false)])
             (bc_constructor Scenario.coin) in
  progressSubject b
  = [{| currentBlock := Some 0; highestBlock := Some 0; synchronized := true |}]
  ∧ scheduled b = None.
Proof.
  apply (unreadable_sync_answer_stops_polling Scenario.coin [Some (RBool false)]
           [Some (RBool false)] (RBool true)).
  - constructor; [right; by eexists|]. constructor.
  - reflexivity.
Defined.

(** ** The block tag and the requests of a fetch *)







Section Requests.
Variable DP : nat.
Variable coin : Coin.
Variable node : Node.
Variable h : number.

Local Abbreviation rgb' := (recursivelyGetBalances DP coin).

Lemma addressBalanceOf_None (a : option string) (t : string) :
  node (pendingRequest coin a) = Some (RString t) →
  addressBalanceOf DP coin node h a = None →
  ∀ s, node (confirmedRequest coin h a) ≠ Some (RString s).
Proof.
  unfold addressBalanceOf. intros -> H s E. by rewrite E in H.
Qed.

Lemma addressBalanceOf_Some (a : option string) (b : AddressBalance.t) :
  addressBalanceOf DP coin node h a = Some b →
  (∃ s, node (pendingRequest coin a) = Some (RString s))
  ∧ ∃ s, node (confirmedRequest coin h a) = Some (RString s).
Proof.
  unfold addressBalanceOf.
  destruct (node (pendingRequest coin a)) as [[t| |]|]; try done.
  destruct (node (confirmedRequest coin h a)) as [[t'| |]|]; try done. eauto.
Qed.

Lemma recursivelyGetBalances_log (addresses : list string) (cur : AddressMap) :
  addresses ≠ [] →
  let r := rgb' addresses h cur node in
  r.2 `prefix_of` requestsFor coin h (Some <$> addresses)
  ∧ (∀ i req, r.2 !! i = Some req → (S i < length r.2)%nat →
       ∃ s, node req = Some (RString s))
  ∧ (∃ req, list.last r.2 = Some req
            ∧ (is_Some r.1 → ∃ s, node req = Some (RString s))
            ∧ (r.1 = None → ∀ s, node req ≠ Some (RString s)))
  ∧ (is_Some r.1 → r.2 = requestsFor coin h (Some <$> addresses)).
Proof.
  revert cur. induction addresses as [|a l IH] using rev_ind; [done|].
  intros cur _. cbv zeta.
  rewrite recursivelyGetBalances_pass. cbv zeta.
  rewrite last_snoc, removelast_last, length_app. simpl.
  unfold requestsFor. rewrite fmap_app, rev_app_distr. simpl.
  fold (requestsFor coin h (Some <$> l)).
  destruct (node (pendingRequest coin (Some a))) as [[t| |]|] eqn:Ep.
  2-4: (simpl; split; [by eexists|]; split; [intros i req _ Hi; simpl in Hi; lia|];
        split; [|by intros [? ?]];
        eexists; split; [done|]; split; [by intros [? ?]|]; intros _ s; congruence).
  destruct (addressBalanceOf DP coin node h (Some a)) as [b|] eqn:Eb.
  2:{ simpl. split; [by eexists|]. split.
      - intros [|[|i]] req Hreq Hi; simpl in *; [|lia|lia]. injection Hreq as <-. eauto.
      - split; [|by intros [? ?]]. eexists; split; [done|]. split; [by intros [? ?]|].
        intros _. by eapply addressBalanceOf_None. }
  destruct (addressBalanceOf_Some _ _ Eb) as [_ [tc Ec]].
  destruct (decide (1 < length l + 1)%nat) as [Hlen|Hlen].
  - assert (l ≠ []) as Hl by (destruct l; simpl in *; [lia|done]).
    destruct (IH (<[Some a := b]> cur) Hl) as (IH1 & IH2 & (req & IH3 & IH4 & IH5) & IH6).
    destruct (rgb' l h (<[Some a := b]> cur) node) as [r log] eqn:Er. simpl in *.
    split; [by apply prefix_cons, prefix_cons|].
    split.
    { intros [|[|i]] req' Hreq Hi; simpl in *.
      - injection Hreq as <-. eauto.
      - injection Hreq as <-. eauto.
      - apply (IH2 i req' Hreq). lia. }
    split.
    { exists req. split; [|done].
      destruct log as [|r1 log']; [done|]. by rewrite !last_cons_cons. }
    intros Hr. by rewrite (IH6 Hr).
  - assert (l = []) as -> by (destruct l; simpl in *; [done|lia]).
    simpl. split; [done|]. split.
    { intros [|[|i]] req Hreq Hi; simpl in *; [|lia|lia]. injection Hreq as <-. eauto. }
    split; [|done]. eexists; split; [done|]. split; [eauto|done].
Qed.

End Requests.

(** X8: the requests [recursivelyGetBalances] makes are an initial part
    of the two requests per address, from the last address to the first;
    every request before the last one made was answered with a text; the
    function fails exactly when the last request made was not (it asks
    nothing after a failure), and all the requests are made when it
    returns a map. *)
Theorem requests_stop_at_first_failure (DP : nat) (coin : Coin) (node : Node) (h : number)
    (addresses : list string) (cur : AddressMap) :
  addresses ≠ [] →
  let r := recursivelyGetBalances DP coin addresses h cur node in
  r.2 `prefix_of` requestsFor coin h (Some <$> addresses)
  ∧ (∀ i req, r.2 !! i = Some req → (S i < length r.2)%nat →
       ∃ s, node req = Some (RString s))
  ∧ (∃ req, list.last r.2 = Some req
            ∧ (r.1 = None ↔ ∀ s, node req ≠ Some (RString s)))
  ∧ (is_Some r.1 ↔ r.2 = requestsFor coin h (Some <$> addresses)
                    ∧ ∀ req, req ∈ r.2 → ∃ s, node req = Some (RString s)).
Proof.
  intros Hne r.
  destruct (recursivelyGetBalances_log DP coin node h addresses cur Hne)
    as (H1 & H2 & (req & H3 & H4 & H5) & H6).
  fold r in H1, H2, H3, H4, H5, H6.
  split; [done|]. split; [done|]. split.
  - exists req. split; [done|]. split; [done|].
    intros Hn. destruct r.1 as [m|] eqn:E; [|done].
    destruct (H4 ltac:(by eexists)) as [s Hs]. by destruct (Hn s).
  - split.
    + intros Hr. split; [by apply H6|].
      intros req' [i Hi]%list_elem_of_lookup.
      destruct (decide (S i < length r.2)%nat) as [Hlt|Hge]; [by eapply H2|].
      pose proof (lookup_lt_Some _ _ _ Hi) as Hlen.
      rewrite last_lookup in H3.
      replace (pred (length r.2)) with i in H3 by lia.
      rewrite Hi in H3. injection H3 as ->. by apply H4.
    + intros [_ Hall]. destruct r.1 as [m|] eqn:E; [by eexists|].
      destruct (Hall req) as [s Hs].
      * by eapply last_Some_elem_of.
      * by destruct (H5 eq_refl s).
Qed.

Lemma requests_stop_at_first_failure_witness :
  let addresses := ["A1"; "A3"; "A2"]%string in
  let r := recursivelyGetBalances 20 Scenario.coin addresses (Some 100) ∅ Scenario.node in
  addresses ≠ []
  ∧ r.2 `prefix_of` requestsFor Scenario.coin (Some 100) (Some <$> addresses)
  ∧ ∃ req, list.last r.2 = Some req
           ∧ (r.1 = None ↔ ∀ s, Scenario.node req ≠ Some (RString s)).
Proof.
  intros addresses r. split; [done|].
  destruct (requests_stop_at_first_failure 20 Scenario.coin Scenario.node (Some 100)
              addresses ∅ ltac:(done)) as (H1 & _ & H3 & _).
  split; [exact H1|exact H3].
Defined.

(** ** Before the wallet list and after [dispose] *)

Lemma all_closed_ignores (DP : nat) (coin : Coin) (o : Operator) (e : Event) :
  (∀ k p, subscriptions o !! k = Some p → p = Closed) →
  ofSubscription e → step DP coin o e = o.
Proof.
  intros Hc He. destruct e as [| |k|k node]; try done; simpl.
  - unfold timerFired. destruct (subscriptions o !! k) as [p|] eqn:E; [|done].
    by rewrite (Hc k p E).
  - unfold nodeAnswered. destruct (subscriptions o !! k) as [p|] eqn:E; [|done].
    by rewrite (Hc k p E).
Qed.

(** X9: until the wallets service delivers a wallet list nothing
    happens: [refreshBalance], timers and answers of the node leave the
    operator as the constructor made it, with no subscription and no value
    emitted. *)
Theorem idle_until_wallets_known (DP : nat) (coin : Coin) (events : list Event) :
  Forall bringsNoWallets events →
  run DP coin events (constructor coin) = constructor coin.
Proof.
  induction 1 as [|e l He _ IH]; [done|].
  change (run DP coin (e :: l) (constructor coin))
    with (run DP coin l (step DP coin (constructor coin) e)).
  assert (step DP coin (constructor coin) e = constructor coin) as ->; [|done].
  destruct e as [| |k|k node]; [done|done| |].
  - apply all_closed_ignores; [|done]. intros k' p. simpl. by rewrite lookup_empty.
  - apply all_closed_ignores; [|done]. intros k' p. simpl. by rewrite lookup_empty.
Qed.

Lemma idle_until_wallets_known_witness :
  run 20 Scenario.coin [RefreshBalance; TimerFired 0%nat; NodeAnswered 0%nat Scenario.node;
                        RefreshBalance]
    (constructor Scenario.coin)
  = constructor Scenario.coin.
Proof.
  apply idle_until_wallets_known. repeat (constructor; [done|]). constructor.
Defined.

(** X10: after [dispose] every subscription is closed, so no timer and
    no answer of the node changes the operator any more. *)
Theorem dispose_stops_refresh (DP : nat) (coin : Coin) (o : Operator) (events : list Event) :
  reachable DP coin o →
  Forall ofSubscription events →
  let o' := (dispose o).2 in
  (∀ k p, subscriptions o' !! k = Some p → p = Closed)
  ∧ (dispose o).1 = Some tt
  ∧ run DP coin events o' = o'.
Proof.
  intros Hreach Hev o'.
  destruct (reachable_Inv _ _ _ Hreach) as (Hone & _ & _).
  assert (∀ k p, subscriptions o' !! k = Some p → p = Closed) as Hclosed.
  { intros k p Hp. subst o'. unfold dispose, op_bind, op_get, unsubscribe, op_modify, op_ret in Hp.
    assert (p = Closed ∨ p ≠ Closed) as [->|Hne] by (destruct p; auto); [done|].
    destruct (dataRefreshSubscription o) as [k0|] eqn:E; simpl in Hp.
    - destruct (decide (k0 = k)) as [->|Hk].
      + rewrite lookup_insert_eq in Hp. congruence.
      + rewrite lookup_insert_ne in Hp by done.
        destruct (Hone k p Hp Hne) as [E' _]. congruence.
    - destruct (Hone k p Hp Hne) as [E' _]. congruence. }
  split; [done|]. split.
  { unfold dispose, op_bind, op_get. simpl. by destruct (dataRefreshSubscription o). }
  clear -Hclosed Hev. induction Hev as [|e l He _ IH]; [done|].
  change (run DP coin (e :: l) o') with (run DP coin l (step DP coin o' e)).
  by rewrite all_closed_ignores.
Qed.

Lemma dispose_stops_refresh_witness :
  let o := run 20 Scenario.coin [WalletsChanged [Scenario.W]; TimerFired 0%nat]
             (constructor Scenario.coin) in
  let o' := (dispose o).2 in
  subscriptions o !! 0%nat = Some (Requesting (walletWithBalanceFromBase <$> [Scenario.W]))
  ∧ run 20 Scenario.coin [NodeAnswered 0%nat Scenario.node; TimerFired 0%nat; TimerFired 1%nat] o'
    = o'.
Proof.
  intros o o'. split; [by vm_compute|].
  apply (dispose_stops_refresh 20 Scenario.coin o).
  - by eexists.
  - repeat (constructor; [done|]). constructor.
Defined.

(** ** The update in place in general *)

Lemma updateAddresses_same (cs ts : list AddressWithBalance.t) :
  AddressWithBalance.coins <$> cs = AddressWithBalance.coins <$> ts →
  (∀ a, a ∈ cs → AddressWithBalance.coins a ≠ NaN) →
  updateAddresses cs ts = (cs, false).
Proof.
  revert ts; induction cs as [|c cs IH]; intros [|t ts]; simpl; try done.
  intros [= Hc Hcs] Hn.
  rewrite (IH ts Hcs) by (intros a Ha; apply Hn; set_solver).
  assert (isEqualTo (AddressWithBalance.coins c) (AddressWithBalance.coins t) = true) as ->; [|done].
  apply isEqualTo_true. split; [done|]. apply Hn. set_solver.
Qed.

Lemma updateWallet_same (c t : WalletWithBalance.t) :
  balancesOf c = balancesOf t →
  WalletWithBalance.coins c ≠ NaN →
  (∀ a, a ∈ WalletWithBalance.addresses c → AddressWithBalance.coins a ≠ NaN) →
  updateWallet c t = (c, false).
Proof.
  unfold balancesOf. intros [= Hc Ha] Hn Hna. unfold updateWallet.
  assert (isEqualTo (WalletWithBalance.coins c) (WalletWithBalance.coins t) = true) as ->
    by (by apply isEqualTo_true).
  simpl. rewrite decide_False.
  2:{ intros Hl. apply Hl. by rewrite <- (length_fmap AddressWithBalance.coins), Ha, length_fmap. }
  rewrite (updateAddresses_same _ _ Ha Hna). by rewrite set_addresses_same.
Qed.

Lemma updateBalances_same (cur tws : list WalletWithBalance.t) :
  length cur = length tws →
  (∀ k c t, cur !! k = Some c → tws !! k = Some t →
     balancesOf c = balancesOf t
     ∧ WalletWithBalance.coins c ≠ NaN
     ∧ ∀ a, a ∈ WalletWithBalance.addresses c → AddressWithBalance.coins a ≠ NaN) →
  updateBalances cur tws = (cur, false).
Proof.
  revert tws; induction cur as [|c cur IH]; intros [|t tws]; simpl; try done.
  intros [= Hlen] H.
  destruct (H 0%nat c t eq_refl eq_refl) as (H1 & H2 & H3).
  rewrite (updateWallet_same c t H1 H2 H3), (IH tws Hlen); [done|].
  intros k c' t' Hc Ht. by apply (H (S k)).
Qed.

Lemma idsChanged_false (cur tws : list WalletWithBalance.t) :
  (∀ k c t, cur !! k = Some c → tws !! k = Some t →
     WalletWithBalance.id c = WalletWithBalance.id t) →
  idsChanged cur tws = false.
Proof.
  intros H. destruct (idsChanged cur tws) eqn:E; [|done].
  apply idsChanged_true in E as (i & c & t & Hc & Ht & Hne). by destruct (Hne (H i c t Hc Ht)).
Qed.

Lemma reconcile_in_place (o : Operator) (l : loc) (tws : list WalletWithBalance.t) :
  walletsWithBalanceList o = Some l →
  length (readArray o l) = length tws →
  (∀ k c t, readArray o l !! k = Some c → tws !! k = Some t →
     WalletWithBalance.id c = WalletWithBalance.id t) →
  reconcile tws false o
  = (Some tt,
     let o1 := set_arrays (<[l := (updateBalances (readArray o l) tws).1]> (arrays o)) o in
     if (updateBalances (readArray o l) tws).2
     then set_subjects (next_walletsWithBalance (Some l) (subjects o1)) o1
     else o1).
Proof.
  intros Hl Hlen Hids. unfold reconcile, op_bind, op_get. rewrite Hl.
  rewrite decide_False by (by intros H; apply H). simpl.
  rewrite (idsChanged_false _ _ Hids).
  destruct (updateBalances (readArray o l) tws) as [cur' changed]. simpl.
  unfold op_modify. simpl. destruct changed; [|done].
  unfold informDataUpdated, op_modify. simpl. by rewrite Hl.
Qed.

Lemma set_arrays_same (o : Operator) : set_arrays (arrays o) o = o.
Proof. by destruct o. Qed.

(** X11: a network pass that finds the balances the published list
    already shows (none of them NaN), for the same wallets, changes
    nothing and emits nothing. *)
Theorem unchanged_balances_emit_nothing (o : Operator) (l : loc)
    (cur tws : list WalletWithBalance.t) :
  walletsWithBalanceList o = Some l →
  arrays o !! l = Some cur →
  length cur = length tws →
  (∀ k c t, cur !! k = Some c → tws !! k = Some t →
     WalletWithBalance.id c = WalletWithBalance.id t
     ∧ balancesOf c = balancesOf t
     ∧ WalletWithBalance.coins c ≠ NaN
     ∧ ∀ a, a ∈ WalletWithBalance.addresses c → AddressWithBalance.coins a ≠ NaN) →
  reconcile tws false o = (Some tt, o).
Proof.
  intros Hl Ha Hlen H.
  assert (readArray o l = cur) as Hr by (unfold readArray; by rewrite Ha).
  rewrite (reconcile_in_place o l tws Hl); rewrite Hr; [|done|].
  2:{ intros k c t Hc Ht. by destruct (H k c t Hc Ht). }
  rewrite updateBalances_same; [|done|].
  2:{ intros k c t Hc Ht. by destruct (H k c t Hc Ht) as (_ & ? & ? & ?). }
  simpl. by rewrite insert_id, set_arrays_same.
Qed.

Lemma unchanged_balances_emit_nothing_witness :
  reconcile [Scenario.publishedW] false Scenario.published = (Some tt, Scenario.published).
Proof.
  apply (unchanged_balances_emit_nothing Scenario.published 0%nat [Scenario.publishedW]);
    [reflexivity|reflexivity|reflexivity|].
  intros [|k] c t; [|done]. intros [= <-] [= <-].
  split; [done|]. split; [done|]. split; [done|].
  intros a Ha. apply elem_of_cons in Ha as [->|Ha]; [done|].
  apply elem_of_cons in Ha as [->|Ha]; [done|]. by apply not_elem_of_nil in Ha.
Defined.

Lemma updateWallet_nan (c t : WalletWithBalance.t) :
  WalletWithBalance.coins c = NaN → (updateWallet c t).2 = true.
Proof.
  intros Hc. unfold updateWallet. rewrite Hc. simpl.
  destruct (decide _); [done|]. by destruct (updateAddresses _ _).
Qed.

(** X12: when a published wallet has the balance NaN, every network
    pass for the same wallets makes [walletsWithBalance] emit the list
    again, also when the new balances are the same. *)
Theorem nan_balance_emits_on_every_pass (o : Operator) (l : loc)
    (tws : list WalletWithBalance.t) (i : nat) (c : WalletWithBalance.t) :
  walletsWithBalanceList o = Some l →
  length (readArray o l) = length tws →
  (∀ k c t, readArray o l !! k = Some c → tws !! k = Some t →
     WalletWithBalance.id c = WalletWithBalance.id t) →
  readArray o l !! i = Some c →
  WalletWithBalance.coins c = NaN →
  let o' := (reconcile tws false o).2 in
  walletsWithBalanceList o' = Some l
  ∧ walletsWithBalanceSubject (subjects o')
    = walletsWithBalanceSubject (subjects o) ++ [Some l].
Proof.
  intros Hl Hlen Hids Hi Hc o'. subst o'.
  rewrite (reconcile_in_place o l tws Hl Hlen Hids).
  destruct (lookup_lt_is_Some_2 tws i) as [t Ht].
  { rewrite <- Hlen. by eapply lookup_lt_Some. }
  rewrite (updateBalances_changed _ _ i c t Hi Ht (updateWallet_nan c t Hc)). done.
Qed.

Lemma nan_balance_emits_on_every_pass_witness :
  let w := WalletWithBalance.set_coins NaN Scenario.publishedW in
  let o := set_arrays (<[0%nat := [w]]> ∅) Scenario.published in
  readArray o 0%nat = [w]
  ∧ walletsWithBalanceSubject (subjects (reconcile [w] false o).2)
    = walletsWithBalanceSubject (subjects o) ++ [Some 0%nat].
Proof.
  intros w o. split; [reflexivity|].
  apply (nan_balance_emits_on_every_pass o 0%nat [w] 0%nat w);
    [reflexivity|reflexivity| |reflexivity|reflexivity].
  intros [|k] c t; [|done]. by intros [= <-] [= <-].
Defined.

Lemma address_zip_with_assignCoins (cs ts : list AddressWithBalance.t) :
  length cs = length ts →
  AddressWithBalance.address <$> zip_with assignCoins cs ts = AddressWithBalance.address <$> cs.
Proof.
  revert ts; induction cs as [|c cs IH]; intros [|t ts]; simpl; try done.
  intros [= H]. by rewrite IH.
Qed.

(** X13: in a network pass for the same wallets (same count, same ids in
    order) the published list keeps its reference and its wallet objects:
    each keeps its id, label and type fields and shows the balances of the
    new list; its address objects stay, with their address texts, when the
    number of addresses is the same, and are replaced by the new ones
    otherwise; the list is emitted at most once. *)
Theorem in_place_update_keeps_wallet_objects (o : Operator) (l : loc)
    (tws : list WalletWithBalance.t) :
  walletsWithBalanceList o = Some l →
  length (readArray o l) = length tws →
  (∀ k c t, readArray o l !! k = Some c → tws !! k = Some t →
     WalletWithBalance.id c = WalletWithBalance.id t) →
  let o' := (reconcile tws false o).2 in
  walletsWithBalanceList o' = Some l
  ∧ length (readArray o' l) = length tws
  ∧ (∀ k c t, readArray o l !! k = Some c → tws !! k = Some t →
       ∃ c', readArray o' l !! k = Some c'
         ∧ WalletWithBalance.id c' = WalletWithBalance.id c
         ∧ WalletWithBalance.label c' = WalletWithBalance.label c
         ∧ WalletWithBalance.encrypted c' = WalletWithBalance.encrypted c
         ∧ WalletWithBalance.walletType c' = WalletWithBalance.walletType c
         ∧ WalletWithBalance.isHardware c' = WalletWithBalance.isHardware c
         ∧ balancesOf c' = balancesOf t
         ∧ AddressWithBalance.address <$> WalletWithBalance.addresses c'
           = AddressWithBalance.address <$>
               (if decide (length (WalletWithBalance.addresses c)
                           = length (WalletWithBalance.addresses t))
                then WalletWithBalance.addresses c
                else WalletWithBalance.addresses t))
  ∧ (walletsWithBalanceSubject (subjects o') = walletsWithBalanceSubject (subjects o)
     ∨ walletsWithBalanceSubject (subjects o')
       = walletsWithBalanceSubject (subjects o) ++ [Some l]).
Proof.
  intros Hl Hlen Hids o'. subst o'.
  rewrite (reconcile_in_place o l tws Hl Hlen Hids).
  rewrite (updateBalances_fst _ _ Hlen).
  set (o1 := set_arrays (<[l := zip_with assignWallet (readArray o l) tws]> (arrays o)) o).
  assert (readArray o1 l = zip_with assignWallet (readArray o l) tws) as Hr.
  { unfold readArray at 1. subst o1. simpl. by rewrite lookup_insert_eq. }
  set (o' := (Some tt, _).2).
  assert (readArray o' l = readArray o1 l ∧ walletsWithBalanceList o' = Some l
          ∧ (walletsWithBalanceSubject (subjects o') = walletsWithBalanceSubject (subjects o)
             ∨ walletsWithBalanceSubject (subjects o')
               = walletsWithBalanceSubject (subjects o) ++ [Some l])) as (Hr' & Hl' & Hs).
  { subst o'. cbv zeta. simpl. fold o1. destruct (updateBalances (readArray o l) tws).2.
    - split; [done|]. split; [done|]. by right.
    - split; [done|]. split; [done|]. by left. }
  split; [done|]. rewrite Hr', Hr. split.
  { rewrite length_zip_with. lia. }
  split; [|done].
  intros k c t Hc Ht. exists (assignWallet c t). split.
  { by rewrite lookup_zip_with, Hc, Ht. }
  split; [done|]. split; [done|]. split; [done|]. split; [done|]. split; [done|].
  split; [apply balancesOf_assignWallet|].
  unfold assignWallet. simpl.
  destruct (decide (length (WalletWithBalance.addresses c) = length (WalletWithBalance.addresses t)))
    as [E|E].
  - rewrite decide_False by (by intros H; apply H). by apply address_zip_with_assignCoins.
  - by rewrite decide_True.
Qed.

Lemma in_place_update_keeps_wallet_objects_witness :
  let o' := (reconcile [walletWithBalanceFromBase Scenario.W'] false Scenario.published).2 in
  walletsWithBalanceList o' = Some 0%nat
  ∧ ∃ c', readArray o' 0%nat !! 0%nat = Some c'
          ∧ balancesOf c' = balancesOf (walletWithBalanceFromBase Scenario.W')
          ∧ AddressWithBalance.address <$> WalletWithBalance.addresses c' = ["A1"; "A2"]%string.
Proof.
  destruct (in_place_update_keeps_wallet_objects Scenario.published 0%nat
              [walletWithBalanceFromBase Scenario.W'])
    as (H1 & _ & H3 & _); [reflexivity|reflexivity| |].
  { intros [|k] c t; [|done]. by intros [= <-] [= <-]. }
  intros o'. split; [exact H1|].
  destruct (H3 0%nat Scenario.publishedW (walletWithBalanceFromBase Scenario.W') eq_refl eq_refl)
    as (c' & Hc & _ & _ & _ & _ & _ & Hb & Ha).
  exists c'. split; [exact Hc|]. split; [exact Hb|exact Ha].
Defined.

(** ** A pass on the saved data *)

Lemma op_mapM_saved_signals (DP : nat) (coin : Coin) (node node' : Node)
    (l : list WalletWithBalance.t) (o : Operator) :
  op_mapM (λ w, retrieveWalletBalance DP coin node w true) l o
  = op_mapM (λ w, retrieveWalletBalance DP coin node' w true) l o
  ∧ ∃ r o1, op_mapM (λ w, retrieveWalletBalance DP coin node w true) l o = (Some r, o1)
            ∧ r.*1 = replicate (length l) (value (hasPendingTransactionsSubject (subjects o)))
            ∧ subjects o1 = subjects o.
Proof.
  revert o; induction l as [|w l IH]; intros o.
  - split; [done|]. by eexists _, _.
  - simpl. unfold op_bind. rewrite !retrieveWalletBalance_saved.
    set (o1 := set_balanceMaps _ o).
    destruct (IH o1) as (IH1 & r & o2 & IH2 & IH3 & IH4).
    rewrite <- IH1, IH2. split; [done|].
    eexists _, _. split; [done|]. rewrite fmap_cons, IH3, IH4. done.
Qed.

Lemma existsb_replicate (n : nat) (v : bool) :
  existsb (λ v, v) (replicate n v) = match n with O => false | S _ => v end.
Proof.
  destruct n as [|n]; [done|]. simpl. destruct v; [done|].
  induction n as [|n IH]; [done|]. done.
Qed.

(** X14: a pass on the saved data asks the node nothing (any two nodes
    give the same result) and cannot fail; it makes
    [hasPendingTransactions] emit again the value it has (false when there
    are no wallets), and leaves the time of the last update, the error flag
    and the other flags alone. *)
Theorem quick_pass_asks_nothing (DP : nat) (coin : Coin) (node node' : Node)
    (wallets : list WalletBase.t) (o : Operator) :
  let o' := (refreshBalances DP coin node wallets true o).2 in
  refreshBalances DP coin node wallets true o = refreshBalances DP coin node' wallets true o
  ∧ (refreshBalances DP coin node wallets true o).1 = Some tt
  ∧ hasPendingTransactionsSubject (subjects o')
    = hasPendingTransactionsSubject (subjects o)
      ++ [match wallets with
          | [] => false
          | _ :: _ => value (hasPendingTransactionsSubject (subjects o))
          end]
  ∧ lastBalancesUpdateTimeSubject (subjects o') = lastBalancesUpdateTimeSubject (subjects o)
  ∧ firstFullUpdateMadeSubject (subjects o') = firstFullUpdateMadeSubject (subjects o)
  ∧ hadErrorRefreshingBalanceSubject (subjects o') = hadErrorRefreshingBalanceSubject (subjects o)
  ∧ refreshingBalanceSubject (subjects o') = refreshingBalanceSubject (subjects o).
Proof.
  intros o'. subst o'. rewrite !refreshBalances_saved_run.
  assert (∃ signals tws o1,
            procedure DP coin node (walletWithBalanceFromBase <$> wallets) true o
            = (Some (signals, tws), o1)
            ∧ procedure DP coin node' (walletWithBalanceFromBase <$> wallets) true o
              = (Some (signals, tws), o1)
            ∧ existsb (λ v, v) signals
              = match wallets with
                | [] => false
                | _ :: _ => value (hasPendingTransactionsSubject (subjects o))
                end
            ∧ subjects o1 = subjects o) as (signals & tws & o1 & Hp & Hp' & Hs & Hsub).
  { unfold procedure. destruct wallets as [|w ws]; [by eexists _, _, _|].
    rewrite fmap_cons.
    destruct (op_mapM_saved_signals DP coin node node' (walletWithBalanceFromBase <$> w :: ws) o)
      as (H1 & r & o1 & H2 & H3 & H4).
    rewrite fmap_cons in H1, H2, H3. unfold op_bind. rewrite <- H1, H2.
    eexists _, _, _. split; [done|]. split; [done|]. split; [|done].
    simpl. rewrite H3. apply existsb_replicate. }
  rewrite Hp, Hp'. split; [done|]. simpl.
  rewrite refreshBalances_tap_saved. split; [done|]. simpl.
  destruct (reconcile_publishes tws true
              (set_subjects (next_hasPendingTransactions (existsb (λ v, v) signals) (subjects o1)) o1))
    as (_ & Heq & _).
  cbv zeta in Heq. rewrite Heq. simpl. rewrite Hs, Hsub. done.
Qed.

(** ** A balance that is no number *)

Lemma foldl_plus_nan (l : list BigNumber) : foldl plus NaN l = NaN.
Proof. induction l as [|x l IH]; [done|]. simpl. exact IH. Qed.

Lemma foldl_plus_elem_nan (l : list BigNumber) (b : BigNumber) :
  NaN ∈ l → foldl plus b l = NaN.
Proof.
  revert b; induction l as [|x l IH]; intros b Hin; [by apply not_elem_of_nil in Hin|].
  apply elem_of_cons in Hin as [<-|Hin]; simpl.
  - replace (plus b NaN) with NaN by (by destruct b). apply foldl_plus_nan.
  - by apply IH.
Qed.

Lemma nodeQuery_inv (DP : nat) (coin : Coin) (node : Node) (w : WalletWithBalance.t)
    (balance : WalletBalance.t) :
  (nodeQuery DP coin w node).1 = Some balance →
  ∃ (text : string) (result : AddressMap),
    node {| req_url := nodeUrl coin; req_method := "eth_blockNumber"; req_params := [] |}
    = Some (RString text)
    ∧ (recursivelyGetBalances DP coin
         (AddressWithBalance.address <$> WalletWithBalance.addresses w)
         (toNumber (fromHex (substr 2 text))) ∅ node).1 = Some result
    ∧ balance = foldl (addBalance result) WalletBalance.new (WalletWithBalance.addresses w).
Proof.
  unfold nodeQuery, rpc_bind, callRpcMethod. simpl.
  destruct (node _) as [[text| |]|]; simpl; try done.
  destruct (recursivelyGetBalances _ _ _ _ _ _) as [[result|] log] eqn:E; simpl; [|done].
  intros [= <-]. eexists _, _. split; [done|]. split; [|done]. by rewrite E.
Qed.

Lemma addValues_lookup (result : AddressMap) (w : WalletWithBalance.t) :
  let balance := foldl (addBalance result) WalletBalance.new (WalletWithBalance.addresses w) in
  WalletWithBalance.addresses (addValues balance w)
  = (λ a, AddressWithBalance.set_coins (AddressBalance.predicted (balanceIn result a)) a)
      <$> WalletWithBalance.addresses w.
Proof.
  intros balance. unfold addValues. simpl.
  apply list_fmap_ext. intros i a Ha.
  subst balance. rewrite foldl_addBalance. simpl.
  rewrite foldl_insert_lookup; [done|]. by eapply list_elem_of_lookup_2.
Qed.

Lemma hex_digit_char (ch : ascii) :
  is_Some (HexString.ascii_to_digit ch) →
  isSpace ch = false ∧ Ascii.eqb ch "-" = false ∧ Ascii.eqb ch "+" = false.
Proof.
  intros [v Hv]. destruct ch as [[] [] [] [] [] [] [] []]; try discriminate Hv; done.
Qed.

Lemma digitsValue_head (ch : ascii) (s : string) (acc : N) :
  is_Some (digitsValue (String ch s) acc) →
  is_Some (HexString.ascii_to_digit ch)
  ∧ is_Some (digitsValue s (default 0%N (HexString.ascii_to_digit ch) + 16 * acc)%N).
Proof.
  cbn [digitsValue]. destruct (HexString.ascii_to_digit ch) as [v|]; [|by intros [? ?]].
  intros H. split; [by eexists|done].
Qed.

Lemma dropTrailingSpaces_digits (s : string) (acc : N) :
  is_Some (digitsValue s acc) → dropTrailingSpaces s = s.
Proof.
  revert acc. induction s as [|ch s IH]; intros acc H; [done|].
  apply digitsValue_head in H as [Hch Hs].
  cbn [dropTrailingSpaces]. rewrite (IH _ Hs).
  destruct (hex_digit_char ch Hch) as (-> & _). by destruct s.
Qed.

(** A run of hexadecimal digits with letters of both cases is no number. *)
Lemma fromHex_mixedCase (s : string) : mixedCase s → fromHex s = NaN.
Proof.
  intros [Hd Hc].
  assert (whitespaceOrPlus s = s) as Hw.
  { unfold whitespaceOrPlus. destruct s as [|ch s]; [done|].
    destruct (digitsValue_head ch s 0 Hd) as [Hch _].
    destruct (hex_digit_char ch Hch) as (Hsp & _ & Hplus).
    cbn [dropSpaces]. rewrite Hsp.
    assert (dropPlus (String ch s) = String ch s) as ->.
    { unfold dropPlus. destruct s; [done|]. by rewrite Hplus. }
    by eapply dropTrailingSpaces_digits. }
  unfold fromHex. rewrite Hw.
  assert (signedDigits s = None) as ->; [|done].
  unfold signedDigits. destruct s as [|ch s]; [done|].
  destruct (digitsValue_head ch s 0 Hd) as [Hch _].
  destruct (hex_digit_char ch Hch) as (_ & -> & _).
  unfold hexDigits. by rewrite Hc.
Qed.

(** X15: when the node answers the pending balance of an address with a
    text that has, after its first two characters, hexadecimal digits with
    letters of both cases (such as 0xaB), the balance of the address is
    NaN, the balance of its wallet is NaN, and the wallet counts as having
    pending transactions. *)
Theorem mixed_case_balance_text_poisons_wallet (DP : nat) (coin : Coin) (node : Node)
    (w w' : WalletWithBalance.t) (o o1 : Operator) (signal : bool)
    (a : AddressWithBalance.t) (text : string) :
  retrieveWalletBalance DP coin node w false o = (Some (signal, w'), o1) →
  a ∈ WalletWithBalance.addresses w →
  node (pendingRequest coin (Some (AddressWithBalance.address a))) = Some (RString text) →
  mixedCase (substr 2 text) →
  AddressWithBalance.set_coins NaN a ∈ WalletWithBalance.addresses w'
  ∧ WalletWithBalance.coins w' = NaN
  ∧ signal = true.
Proof.
  intros Hr Ha Hnode Htext. apply fromHex_mixedCase in Htext.
  rewrite retrieveWalletBalance_network in Hr.
  destruct (nodeQuery DP coin w node).1 as [balance|] eqn:Hq; [|done].
  injection Hr as <- <- <-.
  destruct (nodeQuery_inv _ _ _ _ _ Hq) as (bn & result & _ & Hres & ->).
  set (h := toNumber (fromHex (substr 2 bn))) in *.
  set (addresses := AddressWithBalance.address <$> WalletWithBalance.addresses w) in *.
  assert (AddressWithBalance.address a ∈ addresses) as Hin by (by apply list_elem_of_fmap_2).
  assert (AddressBalance.predicted (balanceIn result a) = NaN) as Hnan.
  { destruct (recursivelyGetBalances_success DP coin node h addresses ∅) as (m & Hm & Hlook).
    { intros E. rewrite E in Hin. by apply not_elem_of_nil in Hin. }
    { by eapply recursivelyGetBalances_all_answered. }
    rewrite Hm in Hres. injection Hres as ->.
    unfold balanceIn. rewrite Hlook, decide_True by done.
    unfold addressBalanceOf. rewrite Hnode.
    destruct (node (confirmedRequest coin h (Some (AddressWithBalance.address a))))
      as [[t| |]|] eqn:Ec.
    - cbn [AddressBalance.predicted]. by rewrite Htext.
    - exfalso.
      destruct (recursivelyGetBalances_all_answered DP coin node h addresses ∅ result
                  ltac:(by rewrite Hm) _ Hin) as [b0 Hb].
      unfold addressBalanceOf in Hb. by rewrite Hnode, Ec in Hb.
    - exfalso.
      destruct (recursivelyGetBalances_all_answered DP coin node h addresses ∅ result
                  ltac:(by rewrite Hm) _ Hin) as [b0 Hb].
      unfold addressBalanceOf in Hb. by rewrite Hnode, Ec in Hb.
    - exfalso.
      destruct (recursivelyGetBalances_all_answered DP coin node h addresses ∅ result
                  ltac:(by rewrite Hm) _ Hin) as [b0 Hb].
      unfold addressBalanceOf in Hb. by rewrite Hnode, Ec in Hb. }
  assert (WalletBalance.predicted
            (foldl (addBalance result) WalletBalance.new (WalletWithBalance.addresses w)) = NaN)
    as Hsum.
  { rewrite foldl_addBalance. simpl. apply foldl_plus_elem_nan.
    apply list_elem_of_fmap. exists a. split; [|done]. simpl. by rewrite Hnan. }
  split.
  { rewrite addValues_lookup. apply list_elem_of_fmap. exists a. split; [|done].
    by rewrite Hnan. }
  split.
  { destruct (addValues_sum result w) as [-> _]. exact Hsum. }
  rewrite Hsum. by destruct (WalletBalance.current _).
Qed.

Lemma mixed_case_balance_text_poisons_wallet_witness :
  let w := walletWithBalanceFromBase Scenario.W in
  ∃ signal w' o1,
    retrieveWalletBalance 20 Scenario.coin Examples.mixedCaseNode w false (constructor Scenario.coin)
    = (Some (signal, w'), o1)
    ∧ WalletWithBalance.coins w' = NaN ∧ signal = true.
Proof.
  intros w.
  destruct (retrieveWalletBalance 20 Scenario.coin Examples.mixedCaseNode w false
              (constructor Scenario.coin)) as [[[signal w']|] o1] eqn:E.
  - exists signal, w', o1. split; [reflexivity|].
    destruct (mixed_case_balance_text_poisons_wallet 20 Scenario.coin Examples.mixedCaseNode w w'
                (constructor Scenario.coin) o1 signal (AddressWithBalance.mk "A1" zero) "0xaB" E)
      as (_ & H2 & H3);
      [apply list_elem_of_here|reflexivity|split; [by eexists|reflexivity]|].
    split; [exact H2|exact H3].
  - vm_compute in E. discriminate.
Defined.

(** ** The wallets of the published list *)

Lemma retrieveWalletBalance_id (DP : nat) (coin : Coin) (node : Node) (quick : bool)
    (w w' : WalletWithBalance.t) (signal : bool) (o o1 : Operator) :
  retrieveWalletBalance DP coin node w quick o = (Some (signal, w'), o1) →
  WalletWithBalance.id w' = WalletWithBalance.id w
  ∧ AddressWithBalance.address <$> WalletWithBalance.addresses w'
    = AddressWithBalance.address <$> WalletWithBalance.addresses w.
Proof.
  assert (∀ balance, AddressWithBalance.address <$> WalletWithBalance.addresses (addValues balance w)
                     = AddressWithBalance.address <$> WalletWithBalance.addresses w) as Ha.
  { intros balance. unfold addValues. simpl. rewrite <- list_fmap_compose.
    apply list_fmap_ext. intros i a _. simpl. by destruct (_ !! _). }
  destruct quick.
  - rewrite retrieveWalletBalance_saved. intros [= _ <- _]. split; [done|apply Ha].
  - rewrite retrieveWalletBalance_network.
    destruct (nodeQuery DP coin w node).1; [|done]. intros [= _ <- _]. split; [done|apply Ha].
Qed.

Lemma op_mapM_ids (DP : nat) (coin : Coin) (node : Node) (quick : bool)
    (l : list WalletWithBalance.t) (o o1 : Operator) (r : list (bool * WalletWithBalance.t)) :
  op_mapM (λ w, retrieveWalletBalance DP coin node w quick) l o = (Some r, o1) →
  Forall2 (λ w' w, WalletWithBalance.id w' = WalletWithBalance.id w
                   ∧ AddressWithBalance.address <$> WalletWithBalance.addresses w'
                     = AddressWithBalance.address <$> WalletWithBalance.addresses w) (r.*2) l.
Proof.
  revert o o1 r; induction l as [|w l IH]; intros o o1 r.
  - intros [= <- _]. constructor.
  - simpl. unfold op_bind.
    destruct (retrieveWalletBalance DP coin node w quick o) as [[[s w']|] o2] eqn:E; [|done].
    destruct (op_mapM _ l o2) as [[r'|] o3] eqn:E'; [|done].
    intros [= <- _]. rewrite fmap_cons. constructor.
    + by eapply retrieveWalletBalance_id.
    + by eapply IH.
Qed.

Lemma procedure_ids (DP : nat) (coin : Coin) (node : Node) (quick : bool)
    (tws tws' : list WalletWithBalance.t) (signals : list bool) (o o1 : Operator) :
  procedure DP coin node tws quick o = (Some (signals, tws'), o1) →
  Forall2 (λ w' w, WalletWithBalance.id w' = WalletWithBalance.id w
                   ∧ AddressWithBalance.address <$> WalletWithBalance.addresses w'
                     = AddressWithBalance.address <$> WalletWithBalance.addresses w) tws' tws.
Proof.
  unfold procedure. destruct tws as [|w ws].
  - intros [= _ <- _]. constructor.
  - unfold op_bind.
    destruct (op_mapM _ (w :: ws) o) as [[r|] o2] eqn:E; [|done].
    intros [= _ <- _]. by eapply op_mapM_ids.
Qed.

Lemma reconcile_cases (tws : list WalletWithBalance.t) (quick : bool) (o : Operator) :
  (∃ l, walletsWithBalanceList o = Some l ∧ quick = false
        ∧ length (readArray o l) = length tws
        ∧ ∀ k c t, readArray o l !! k = Some c → tws !! k = Some t →
                   WalletWithBalance.id c = WalletWithBalance.id t)
  ∨ reconcile tws quick o = updateWholeList tws o.
Proof.
  unfold reconcile, op_bind, op_get.
  destruct (walletsWithBalanceList o) as [l|] eqn:Hl; [|by right].
  destruct quick; [by right|]. simpl.
  destruct (decide (length (readArray o l) ≠ length tws)) as [Hlen|Hlen]; [by right|].
  apply dec_stable in Hlen.
  destruct (idsChanged (readArray o l) tws) eqn:Hids; [by right|].
  left. exists l. split; [done|]. split; [done|]. split; [done|].
  intros k c t Hc Ht.
  destruct (decide (WalletWithBalance.id c = WalletWithBalance.id t)); [done|].
  assert (idsChanged (readArray o l) tws = true); [|congruence].
  apply idsChanged_true. by eexists k, c, t.
Qed.

Lemma reconcile_ids (tws : list WalletWithBalance.t) (quick : bool) (o : Operator) :
  let o' := (reconcile tws quick o).2 in
  ∃ l, walletsWithBalanceList o' = Some l
       ∧ WalletWithBalance.id <$> readArray o' l = WalletWithBalance.id <$> tws.
Proof.
  intros o'. subst o'.
  destruct (reconcile_cases tws quick o) as [(l & Hl & -> & Hlen & Hids)| ->].
  - rewrite (reconcile_in_place o l tws Hl Hlen Hids), (updateBalances_fst _ _ Hlen).
    exists l. cbv zeta. split.
    { simpl. by destruct (updateBalances (readArray o l) tws).2. }
    assert (∀ o1 : Operator, arrays o1 = <[l := zip_with assignWallet (readArray o l) tws]> (arrays o) →
              WalletWithBalance.id <$> readArray o1 l = WalletWithBalance.id <$> tws) as H.
    { intros o1 Ho1. unfold readArray at 1. rewrite Ho1, lookup_insert_eq. simpl.
      apply list_eq. intros k. rewrite !list_lookup_fmap, lookup_zip_with.
      destruct (readArray o l !! k) as [c|] eqn:Hc; simpl.
      - destruct (tws !! k) as [t|] eqn:Ht; simpl.
        + f_equal. simpl. by eapply Hids.
        + apply lookup_lt_Some in Hc. apply lookup_ge_None in Ht. lia.
      - destruct (tws !! k) as [t|] eqn:Ht; [|done].
        apply lookup_lt_Some in Ht. apply lookup_ge_None in Hc. lia. }
    simpl. destruct (updateBalances (readArray o l) tws).2; by apply H.
  - rewrite updateWholeList_run. simpl. eexists; split; [done|].
    unfold readArray. simpl. by rewrite lookup_insert_eq.
Qed.

Lemma refreshBalances_run (DP : nat) (coin : Coin) (node : Node) (wallets : list WalletBase.t)
    (quick : bool) (o : Operator) :
  refreshBalances DP coin node wallets quick o
  = match procedure DP coin node (walletWithBalanceFromBase <$> wallets) quick
            (refreshBalances_begin wallets quick o).2 with
    | (Some r, o1) => refreshBalances_tap r.1 r.2 quick o1
    | (None, o1) => (None, o1)
    end.
Proof.
  unfold refreshBalances, op_bind at 1.
  assert ((refreshBalances_begin wallets quick o).1 = Some (walletWithBalanceFromBase <$> wallets))
    as H.
  { unfold refreshBalances_begin, op_bind. by destruct quick. }
  destruct (refreshBalances_begin wallets quick o) as [[tws|] o0]; simpl in H; [|done].
  injection H as ->. done.
Qed.

(** X16: after a pass that does not fail, on the saved data or on the
    node, the published list has the wallets of the pass, by id and in
    their order. *)
Theorem published_list_follows_wallets (DP : nat) (coin : Coin) (node : Node)
    (wallets : list WalletBase.t) (quick : bool) (o o' : Operator) :
  refreshBalances DP coin node wallets quick o = (Some tt, o') →
  ∃ l, walletsWithBalanceList o' = Some l
       ∧ WalletWithBalance.id <$> readArray o' l = WalletBase.id <$> wallets.
Proof.
  rewrite refreshBalances_run.
  destruct (procedure _ _ _ _ _ _) as [[[signals tws']|] o1] eqn:Hp; [|done].
  assert (WalletWithBalance.id <$> tws' = WalletBase.id <$> wallets) as Hids.
  { apply procedure_ids in Hp.
    transitivity (WalletWithBalance.id <$> (walletWithBalanceFromBase <$> wallets)).
    - clear -Hp. induction Hp as [|w' w l' l [H _] _ IH]; [done|]. by rewrite !fmap_cons, H, IH.
    - rewrite <- list_fmap_compose. by apply list_fmap_ext. }
  simpl. destruct quick.
  - rewrite refreshBalances_tap_saved. intros [= <-].
    destruct (reconcile_ids tws' true
                (set_subjects (next_hasPendingTransactions (existsb (λ v, v) signals) (subjects o1)) o1))
      as (l & Hl & Hr).
    exists l. by rewrite <- Hids.
  - rewrite refreshBalances_tap_network. intros [= <-].
    destruct (reconcile_ids tws' false
                (set_subjects
                   (next_lastBalancesUpdateTime
                      (next_hasPendingTransactions (existsb (λ v, v) signals) (subjects o1))) o1))
      as (l & Hl & Hr).
    exists l. rewrite <- Hids, <- Hr. cbv zeta. by destruct (negb _).
Qed.

Lemma published_list_follows_wallets_witness :
  ∃ o' l,
    refreshBalances 20 Scenario.coin Scenario.node [Scenario.W] false (constructor Scenario.coin)
    = (Some tt, o')
    ∧ walletsWithBalanceList o' = Some l
    ∧ WalletWithBalance.id <$> readArray o' l = ["W"]%string.
Proof.
  destruct (refreshBalances 20 Scenario.coin Scenario.node [Scenario.W] false
              (constructor Scenario.coin)) as [[[]|] o'] eqn:E.
  - destruct (published_list_follows_wallets _ _ _ _ _ _ _ E) as (l & Hl & Hr).
    by exists o', l.
  - vm_compute in E. discriminate.
Defined.

(** ** A pass with no wallets *)

Lemma walletsChanged_run (wallets : list WalletBase.t) (o : Operator) :
  let subs1 := match dataRefreshSubscription o with
               | Some k => <[k := Closed]> (subscriptions o)
               | None => subscriptions o
               end in
  let k := fresh (dom subs1) in
  walletsChanged wallets o
  = set_dataRefreshSubscription (Some k)
      (set_subscriptions (<[k := Delaying 0 true]> subs1)
         (set_savedWalletsList (Some wallets) o)).
Proof. unfold walletsChanged. by rewrite startDataRefreshSubscription_run. Qed.

Lemma afterDelay_empty (DP : nat) (coin : Coin) (u : bool) (o : Operator) :
  savedWalletsList o = Some [] →
  let o0 := set_subjects (next_refreshingBalance true (subjects o)) o in
  let o1 := if u then (refreshBalances DP coin noNode [] true o0).2 else o0 in
  let o2 := (refreshBalances_begin [] false o1).2 in
  afterDelay DP coin u o = (Some None, (refreshBalances_tap [false] [] false o2).2).
Proof.
  intros Hw o0 o1 o2. unfold afterDelay, op_bind at 1, op_modify at 1. fold o0.
  unfold op_bind at 1, op_get at 1.
  change (savedWalletsList o0) with (savedWalletsList o). rewrite Hw.
  unfold op_bind at 1.
  assert ((if u then refreshBalances DP coin noNode [] true else op_ret ()) o0 = (Some tt, o1)) as ->.
  { subst o1. destruct u; [|done].
    destruct (quick_pass_frame DP coin noNode [] o0) as (o' & -> & _). done. }
  unfold op_bind at 1.
  assert (refreshBalances_begin [] false o1 = (Some [], o2)) as -> by done.
  unfold op_bind at 1. simpl procedure. unfold op_ret at 1. cbn [fst snd].
  unfold op_bind. rewrite refreshBalances_tap_network. done.
Qed.

Lemma quick_pass_empty (DP : nat) (coin : Coin) (node : Node) (o : Operator) :
  refreshBalances DP coin node [] true o
  = (Some tt,
     let l := fresh (dom (arrays o)) in
     set_subjects
       (next_walletsWithBalance (Some l) (next_hasPendingTransactions false (subjects o)))
       (set_walletsWithBalanceList (Some l) (set_arrays (<[l := []]> (arrays o)) o))).
Proof.
  rewrite refreshBalances_saved_run. simpl. rewrite refreshBalances_tap_saved.
  f_equal. unfold reconcile, op_bind, op_get.
  assert (∀ o0 : Operator,
            (match walletsWithBalanceList o0 with
             | Some l =>
                 if true || (if decide (length (readArray o0 l) ≠ length ([] : list WalletWithBalance.t))
                             then true else false)
                 then updateWholeList []
                 else if idsChanged (readArray o0 l) []
                      then updateWholeList []
                      else let '(current', changeDetected) := updateBalances (readArray o0 l) [] in
                           op_bind (op_modify (set_arrays (<[l := current']> (arrays o0))))
                             (λ _, if changeDetected then informDataUpdated else op_ret ())
             | None => updateWholeList []
             end) = updateWholeList []) as H.
  { intros o0. by destruct (walletsWithBalanceList o0). }
  simpl. rewrite H, updateWholeList_run. done.
Qed.

Lemma network_pass_empty (o : Operator) (l : loc) :
  walletsWithBalanceList o = Some l → arrays o !! l = Some [] →
  refreshBalances_tap [false] [] false o
  = (Some tt,
     let o1 := set_savedBalanceData (temporalSavedBalanceData o)
                 (set_subjects
                    (next_lastBalancesUpdateTime
                       (next_hasPendingTransactions false (subjects o))) o) in
     if negb (value (firstFullUpdateMadeSubject (subjects o)))
     then set_subjects (next_firstFullUpdateMade true (subjects o1)) o1
     else o1).
Proof.
  intros Hl Ha. rewrite refreshBalances_tap_network. cbv zeta. simpl existsb.
  set (oa := set_subjects _ o).
  assert (reconcile [] false oa = (Some tt, oa)) as ->; [|done].
  rewrite (reconcile_in_place oa l []); [| done | |].
  - assert (readArray oa l = []) as -> by (unfold readArray; subst oa; simpl; by rewrite Ha).
    cbn [updateBalances fst snd].
    replace (<[l := []]> (arrays oa)) with (arrays oa) by (symmetry; by apply insert_id).
    by rewrite set_arrays_same.
  - unfold readArray. simpl. by rewrite Ha.
  - intros k c t _ Ht. done.
Qed.

(** X17: when the wallets service delivers an empty wallet list, the
    cycle ends when its timer fires, with no request to the node: an empty
    list is published under a new reference and emitted once,
    [hasPendingTransactions] emits false for the pass on the saved data and
    for the network pass, the time of the last update is set, the saved
    data becomes an empty map, [firstFullUpdateMade] is true, the error flag
    is lowered, and the next cycle waits for [updatePeriod]. *)
Theorem empty_wallet_list_pass (DP : nat) (coin : Coin) (o : Operator) :
  let o1 := walletsChanged [] o in
  ∃ k, dataRefreshSubscription o1 = Some k
       ∧ subscriptions o1 !! k = Some (Delaying 0 true)
       ∧ let o2 := timerFired DP coin k o1 in
         ∃ l k',
           walletsWithBalanceList o2 = Some l
           ∧ readArray o2 l = []
           ∧ walletsWithBalanceSubject (subjects o2)
             = walletsWithBalanceSubject (subjects o) ++ [Some l]
           ∧ hasPendingTransactionsSubject (subjects o2)
             = hasPendingTransactionsSubject (subjects o) ++ [false; false]
           ∧ lastBalancesUpdateTimeSubject (subjects o2)
             = S (lastBalancesUpdateTimeSubject (subjects o))
           ∧ value (firstFullUpdateMadeSubject (subjects o2)) = true
           ∧ readMap o2 (savedBalanceData o2) = ∅
           ∧ hadErrorRefreshingBalanceSubject (subjects o2)
             = hadErrorRefreshingBalanceSubject (subjects o) ++ [false]
           ∧ refreshingBalanceSubject (subjects o2)
             = refreshingBalanceSubject (subjects o) ++ [true; false]
           ∧ dataRefreshSubscription o2 = Some k'
           ∧ subscriptions o2 !! k' = Some (Delaying (updatePeriod o) false)
           ∧ subscriptions o2 !! k = Some Closed.
Proof.
  intros o1. subst o1. rewrite walletsChanged_run. cbv zeta.
  set (subs1 := match dataRefreshSubscription o with
                | Some k => <[k := Closed]> (subscriptions o)
                | None => subscriptions o
                end).
  set (k := fresh (dom subs1)).
  set (o1 := set_dataRefreshSubscription _ _).
  assert (subscriptions o1 !! k = Some (Delaying 0 true)) as Hk.
  { subst o1. simpl. by rewrite lookup_insert_eq. }
  exists k. split; [done|]. split; [done|].
  unfold timerFired. rewrite Hk.
  rewrite (afterDelay_empty DP coin true o1 eq_refl). cbv zeta.
  rewrite quick_pass_empty. cbv zeta. cbn [snd].
  set (l := fresh (dom (arrays (set_subjects (next_refreshingBalance true (subjects o1)) o1)))).
  set (oq := set_subjects _ (set_walletsWithBalanceList (Some l) _)).
  set (ob := (refreshBalances_begin [] false oq).2).
  rewrite (network_pass_empty ob l).
  2:{ done. }
  2:{ subst ob oq. simpl. by rewrite lookup_insert_eq. }
  cbv zeta. cbn [snd].
  set (o5 := if negb _ then _ else _).
  assert (walletsWithBalanceList o5 = Some l
          ∧ arrays o5 !! l = Some []
          ∧ walletsWithBalanceSubject (subjects o5)
            = walletsWithBalanceSubject (subjects o) ++ [Some l]
          ∧ hasPendingTransactionsSubject (subjects o5)
            = hasPendingTransactionsSubject (subjects o) ++ [false; false]
          ∧ lastBalancesUpdateTimeSubject (subjects o5)
            = S (lastBalancesUpdateTimeSubject (subjects o))
          ∧ value (firstFullUpdateMadeSubject (subjects o5)) = true
          ∧ readMap o5 (savedBalanceData o5) = ∅
          ∧ hadErrorRefreshingBalanceSubject (subjects o5)
            = hadErrorRefreshingBalanceSubject (subjects o)
          ∧ refreshingBalanceSubject (subjects o5)
            = refreshingBalanceSubject (subjects o) ++ [true]
          ∧ dataRefreshSubscription o5 = Some k
          ∧ subscriptions o5 = <[k := Delaying 0 true]> subs1
          ∧ savedWalletsList o5 = Some []
          ∧ updatePeriod o5 = updatePeriod o)
    as (H1 & H2 & H3 & H4 & H5 & H6 & H7 & H8 & H9 & H10 & H11 & H12 & H13).
  { subst o5.
    assert (readMap ob (temporalSavedBalanceData ob) = ∅) as Hm.
    { subst ob. unfold readMap. simpl. by rewrite lookup_insert_eq. }
    destruct (negb (value (firstFullUpdateMadeSubject (subjects ob)))) eqn:Hv.
    - simpl. rewrite lookup_insert_eq, <- !app_assoc. simpl.
      split; [done|]. split; [done|]. split; [done|]. split; [done|]. split; [done|].
      split; [apply value_snoc|]. split; [exact Hm|done].
    - apply negb_false_iff in Hv. simpl. rewrite lookup_insert_eq, <- !app_assoc. simpl.
      split; [done|]. split; [done|]. split; [done|]. split; [done|]. split; [done|].
      split; [exact Hv|]. split; [exact Hm|done]. }
  unfold onNext, op_bind, op_modify, op_get. cbn [fst snd].
  rewrite startDataRefreshSubscription_run. cbn [snd]. cbv zeta.
  simpl dataRefreshSubscription. rewrite H10. simpl savedWalletsList. rewrite H12.
  simpl subscriptions. rewrite H11. simpl updatePeriod. rewrite H13.
  set (subs2 := <[k := Closed]> (<[k := Delaying 0 true]> subs1)).
  exists l, (fresh (dom subs2)).
  assert (fresh (dom subs2) ≠ k) as Hne.
  { intros E. apply (is_fresh (dom subs2)). rewrite E. subst subs2. set_solver. }
  simpl. unfold readArray, readMap in *. simpl. rewrite H1, H2, H3, H4, H5, H6, H8, H9.
  rewrite lookup_insert_eq, lookup_insert_ne, <- !app_assoc by done. simpl.
  subst subs2. rewrite lookup_insert_eq.
  split; [done|]. split; [done|]. split; [done|]. split; [done|]. split; [done|].
  split; [done|]. split; [exact H7|]. done.
Qed.

(** ** The flags over time *)

Lemma sameFlags_refl (o : Operator) : sameFlags o o.
Proof. by repeat split. Qed.

Lemma sameFlags_trans (o o1 o2 : Operator) : sameFlags o o1 → sameFlags o1 o2 → sameFlags o o2.
Proof.
  intros (H1 & H2 & H3 & H4) (H1' & H2' & H3' & H4').
  unfold sameFlags. by rewrite H1', H2', H3', H4'.
Qed.

Lemma quick_pass_sameFlags (DP : nat) (coin : Coin) (node : Node) (wallets : list WalletBase.t)
    (o : Operator) :
  sameFlags o (refreshBalances DP coin node wallets true o).2.
Proof.
  rewrite refreshBalances_saved_run.
  destruct (procedure_saved_some DP coin node (walletWithBalanceFromBase <$> wallets) o)
    as [[signals tws] Hp].
  destruct (procedure_frame DP coin node true (walletWithBalanceFromBase <$> wallets) o)
    as [[Hm _] _].
  destruct (procedure _ _ _ _ _ _) as [r o1]. simpl in Hp, Hm. subst r.
  apply onlyMaps_fields in Hm as (_ & _ & Hsub & _).
  rewrite refreshBalances_tap_saved. cbn [fst snd].
  destruct (reconcile_publishes tws true
              (set_subjects (next_hasPendingTransactions (existsb (λ v, v) signals) (subjects o1)) o1))
    as (_ & Heq & _).
  cbv zeta in Heq. rewrite Heq. unfold sameFlags. simpl. by rewrite Hsub.
Qed.

Lemma afterDelay_shape (DP : nat) (coin : Coin) (u : bool) (o : Operator)
    (wallets : list WalletBase.t) :
  savedWalletsList o = Some wallets →
  ∃ r o3, afterDelay DP coin u o = (Some r, o3)
        ∧ sameSchedule o o3
        ∧ refreshingBalanceSubject (subjects o3) = refreshingBalanceSubject (subjects o) ++ [true]
        ∧ hadErrorRefreshingBalanceSubject (subjects o3)
          = hadErrorRefreshingBalanceSubject (subjects o)
        ∧ match walletWithBalanceFromBase <$> wallets with
          | [] =>
              r = None
              ∧ passesEnded o3 = S (passesEnded o)
              ∧ firstFullUpdateMadeSubject (subjects o3)
                = (if value (firstFullUpdateMadeSubject (subjects o))
                   then firstFullUpdateMadeSubject (subjects o)
                   else firstFullUpdateMadeSubject (subjects o) ++ [true])
          | w :: ws =>
              r = Some (w :: ws)
              ∧ passesEnded o3 = passesEnded o
              ∧ firstFullUpdateMadeSubject (subjects o3) = firstFullUpdateMadeSubject (subjects o)
          end.
Proof.
  intros Hw. unfold afterDelay, op_bind at 1, op_modify at 1. unfold op_bind at 1, op_get at 1.
  set (o1 := set_subjects (next_refreshingBalance true (subjects o)) o).
  change (savedWalletsList o1) with (savedWalletsList o). rewrite Hw.
  unfold op_bind at 1.
  assert (∃ o2, (if u then refreshBalances DP coin noNode wallets true else op_ret tt) o1
                = (Some tt, o2)
                ∧ sameSchedule o1 o2 ∧ sameFlags o1 o2) as (o2 & -> & Hs2 & Hf2).
  { destruct u.
    - destruct (quick_pass_frame DP coin noNode wallets o1) as (o2 & Hrun & Hsched & _).
      exists o2. split; [done|]. split; [done|].
      pose proof (quick_pass_sameFlags DP coin noNode wallets o1) as H. by rewrite Hrun in H.
    - exists o1. split; [done|]. split; [by repeat split|apply sameFlags_refl]. }
  unfold op_bind at 1.
  assert (∃ o3, refreshBalances_begin wallets false o2
                = (Some (walletWithBalanceFromBase <$> wallets), o3)
                ∧ sameSchedule o2 o3 ∧ subjects o3 = subjects o2) as (o3 & -> & Hs3 & Hsub3).
  { eexists. split; [reflexivity|]. by repeat split. }
  destruct Hs2 as (Ha1 & Ha2 & Ha3 & Ha4 & Ha5).
  destruct Hs3 as (Hb1 & Hb2 & Hb3 & Hb4 & Hb5).
  destruct Hf2 as (Hc1 & Hc2 & Hc3 & Hc4).
  destruct (walletWithBalanceFromBase <$> wallets) as [|w ws] eqn:Htws.
  - unfold op_bind at 1. simpl procedure. unfold op_ret at 1. unfold op_bind at 1.
    destruct (refreshBalances_tap_network_frame [false] [] o3)
      as (Hrun & Hsched4 & _ & _ & _ & Hcount4 & Herr4 & Href4 & Hfirst4).
    destruct Hsched4 as (Hd1 & Hd2 & Hd3 & Hd4 & Hd5).
    cbn [fst snd] in *.
    destruct (refreshBalances_tap [false] [] false o3) as [r o4]. simpl in Hrun. subst r.
    cbn [snd] in *. unfold op_ret. exists None, o4. split; [done|].
    split. { unfold sameSchedule. by rewrite Hd1, Hd2, Hd3, Hd4, Hd5, Hb1, Hb2, Hb3, Hb4, Hb5,
                                       Ha1, Ha2, Ha3, Ha4, Ha5. }
    rewrite Href4, Herr4, Hcount4, Hfirst4, Hsub3, Hc1, Hc2, Hc3, Hc4. done.
  - unfold op_ret. exists (Some (w :: ws)), o3. split; [done|].
    split. { unfold sameSchedule. by rewrite Hb1, Hb2, Hb3, Hb4, Hb5, Ha1, Ha2, Ha3, Ha4, Ha5. }
    rewrite Hsub3, Hc1, Hc2, Hc3, Hc4. done.
Qed.

Lemma start_flagsOK (d : Z) (u : bool) (o : Operator) :
  oneOpen o →
  firstFullUpdateMadeSubject (subjects o)
  = (if decide (passesEnded o = 0%nat) then [] else [true]) →
  flagsOK (startDataRefreshSubscription d u o).2.
Proof.
  intros Hone Hfirst.
  destruct (startDataRefreshSubscription_oneOpen d u o Hone) as (Hshape & _ & Hall & _).
  cbv zeta in Hshape, Hall.
  set (o' := (startDataRefreshSubscription d u o).2) in *.
  assert (subjects o' = subjects o) as Hsub by (by rewrite Hshape).
  split.
  - intros k tws Hk. by destruct (Hall k _ Hk).
  - by rewrite Hsub.
Qed.

Lemma onNext_flagsOK (o : Operator) :
  oneOpen o →
  firstFullUpdateMadeSubject (subjects o)
  = (if decide (passesEnded o = 0%nat) then [] else [true]) →
  flagsOK (onNext o).2.
Proof.
  intros Hone Hfirst. unfold onNext, op_bind, op_modify, op_get. cbn [fst snd].
  by apply start_flagsOK.
Qed.

Lemma onError_flagsOK (o : Operator) :
  oneOpen o →
  firstFullUpdateMadeSubject (subjects o)
  = (if decide (passesEnded o = 0%nat) then [] else [true]) →
  flagsOK (onError o).2.
Proof.
  intros Hone Hfirst. unfold onError, op_bind, op_modify, op_get. cbn [fst snd].
  by apply start_flagsOK.
Qed.

Lemma first_after_pass (o o' : Operator) :
  firstFullUpdateMadeSubject (subjects o)
  = (if decide (passesEnded o = 0%nat) then [] else [true]) →
  passesEnded o' = S (passesEnded o) →
  firstFullUpdateMadeSubject (subjects o')
  = (if value (firstFullUpdateMadeSubject (subjects o))
     then firstFullUpdateMadeSubject (subjects o)
     else firstFullUpdateMadeSubject (subjects o) ++ [true]) →
  firstFullUpdateMadeSubject (subjects o')
  = (if decide (passesEnded o' = 0%nat) then [] else [true]).
Proof.
  intros Hf Hp ->. rewrite Hp.
  destruct (decide (S (passesEnded o) = 0%nat)) as [?|_]; [done|].
  rewrite Hf. by destruct (decide (passesEnded o = 0%nat)).
Qed.

Lemma timerFired_flagsOK (DP : nat) (coin : Coin) (k : loc) (o : Operator) :
  Inv o → flagsOK o → flagsOK (timerFired DP coin k o).
Proof.
  intros (Hone & _ & _) [Hreq Hfirst]. unfold timerFired.
  destruct (subscriptions o !! k) as [[d u|tws|]|] eqn:Hk; try done.
  destruct (Hone k _ Hk ltac:(done)) as [Hd [wallets Hw]].
  destruct (afterDelay_shape DP coin u o wallets Hw)
    as (r & o3 & -> & Hs & Href & _ & Hcases).
  pose proof (oneOpen_sameSchedule _ _ Hs Hone) as Hone3.
  destruct Hs as (Hs1 & Hs2 & Hs3 & Hs4 & Hs5).
  destruct (walletWithBalanceFromBase <$> wallets) as [|w ws] eqn:Htws.
  - destruct Hcases as (-> & Hp & Hf). apply onNext_flagsOK; [done|].
    by eapply first_after_pass.
  - destruct Hcases as (-> & Hp & Hf). split.
    + intros k' tws'. cbn [subscriptions set_subscriptions subjects savedWalletsList].
      destruct (decide (k = k')) as [<-|Hne].
      * rewrite lookup_insert_eq. intros [= <-]. split.
        -- rewrite Href. apply value_snoc.
        -- exists wallets. by rewrite Hs3.
      * rewrite lookup_insert_ne, Hs1 by done. intros Hk'.
        destruct (Hone k' _ Hk' ltac:(done)) as [Hd' _]. congruence.
    + cbn [subjects set_subscriptions]. by rewrite Hf, Hp.
Qed.

Lemma nodeAnswered_flagsOK (DP : nat) (coin : Coin) (k : loc) (node : Node) (o : Operator) :
  Inv o → flagsOK o → flagsOK (nodeAnswered DP coin k node o).
Proof.
  intros (Hone & _ & _) [Hreq Hfirst]. unfold nodeAnswered.
  destruct (subscriptions o !! k) as [[d u|tws|]|] eqn:Hk; try done.
  unfold deliver, op_bind.
  destruct (procedure_frame DP coin node false tws o) as [[Hm _] _].
  destruct (procedure DP coin node tws false o) as [[r|] o1]; cbn [snd] in Hm.
  - pose proof (onlyMaps_sameSchedule _ _ Hm) as Hs1.
    apply onlyMaps_fields in Hm as (_ & _ & Hsub & _).
    destruct (refreshBalances_tap_network_frame r.1 r.2 o1)
      as (Hrun & Hs2 & _ & _ & _ & Hcount & _ & _ & Hf).
    cbv zeta in Hs2, Hcount, Hf.
    destruct (refreshBalances_tap r.1 r.2 false o1) as [x o2]. simpl in Hrun. subst x.
    cbn [snd] in *. apply onNext_flagsOK.
    + eapply oneOpen_sameSchedule; [exact Hs2|]. by eapply oneOpen_sameSchedule.
    + rewrite Hsub in Hcount, Hf. by eapply first_after_pass.
  - pose proof (onlyMaps_sameSchedule _ _ Hm) as Hs1.
    apply onlyMaps_fields in Hm as (_ & _ & Hsub & _).
    apply onError_flagsOK; [by eapply oneOpen_sameSchedule|]. by rewrite Hsub.
Qed.

Lemma step_flagsOK (DP : nat) (coin : Coin) (o : Operator) (e : Event) :
  Inv o → flagsOK o → flagsOK (step DP coin o e).
Proof.
  intros HI HF. destruct e as [wallets| |k|k node]; simpl.
  - destruct HI as (Hone & _ & _). destruct HF as [_ Hfirst].
    unfold walletsChanged. apply start_flagsOK; [|done].
    intros k p Hk Hne. destruct (Hone k p Hk Hne) as [Hd _]. by split; [|eexists].
  - destruct HI as (Hone & _ & _). destruct HF as [_ Hfirst].
    unfold refreshBalance. by apply start_flagsOK.
  - by apply timerFired_flagsOK.
  - by apply nodeAnswered_flagsOK.
Qed.

Lemma reachable_flagsOK (DP : nat) (coin : Coin) (o : Operator) :
  reachable DP coin o → flagsOK o.
Proof.
  intros [events ->].
  assert (∀ o, Inv o → flagsOK o → flagsOK (run DP coin events o)) as H.
  { induction events as [|e l IH]; intros o HI HF; [done|].
    change (run DP coin (e :: l) o) with (run DP coin l (step DP coin o e)).
    apply IH; [by apply step_Inv|by apply step_flagsOK]. }
  apply H; [apply constructor_Inv|]. split; [|done].
  intros k tws. simpl. by rewrite lookup_empty.
Qed.

(** X18: in every state the operator can reach, a network pass that
    waits for the node belongs to the subscription the operator holds, is
    for the wallets of the list the operator holds (the same ids and the
    same addresses, in the same order), has a temporal map that is not the
    saved data, and [refreshingBalance] is true. *)
Theorem pass_in_flight_is_for_current_wallets (DP : nat) (coin : Coin) (o : Operator)
    (k : loc) (tws : list WalletWithBalance.t) :
  reachable DP coin o →
  subscriptions o !! k = Some (Requesting tws) →
  dataRefreshSubscription o = Some k
  ∧ (∃ wallets, savedWalletsList o = Some wallets
                ∧ WalletWithBalance.id <$> tws = WalletBase.id <$> wallets
                ∧ (λ t, AddressWithBalance.address <$> WalletWithBalance.addresses t) <$> tws
                  = (λ w, AddressBase.address <$> WalletBase.addresses w) <$> wallets)
  ∧ value (refreshingBalanceSubject (subjects o)) = true
  ∧ savedBalanceData o ≠ temporalSavedBalanceData o.
Proof.
  intros Hreach Hk.
  destruct (reachable_Inv _ _ _ Hreach) as (Hone & _ & Hreq).
  destruct (reachable_flagsOK _ _ _ Hreach) as [Hflags _].
  destruct (Hone k _ Hk ltac:(done)) as [Hd _].
  destruct (Hflags k tws Hk) as [Hv (wallets & Hw & ->)].
  destruct (Hreq k _ Hk) as [Hne _].
  split; [done|]. split; [|done].
  exists wallets. split; [done|]. rewrite <- !list_fmap_compose. split; [done|].
  apply list_fmap_ext. intros i w _. simpl. rewrite <- list_fmap_compose.
  by apply list_fmap_ext.
Qed.

Lemma pass_in_flight_is_for_current_wallets_witness :
  let o := run 20 Scenario.coin [WalletsChanged [Scenario.W]; TimerFired 0%nat]
             (constructor Scenario.coin) in
  (∃ tws, subscriptions o !! 0%nat = Some (Requesting tws)
          ∧ WalletWithBalance.id <$> tws = ["W"%string])
  ∧ value (refreshingBalanceSubject (subjects o)) = true
  ∧ dataRefreshSubscription o = Some 0%nat.
Proof.
  intros o.
  assert (subscriptions o !! 0%nat
          = Some (Requesting (walletWithBalanceFromBase <$> [Scenario.W]))) as Hk
    by (by vm_compute).
  destruct (pass_in_flight_is_for_current_wallets 20 Scenario.coin o 0%nat _
              ltac:(by eexists) Hk) as (Hd & _ & Hv & _).
  split; [|done]. eexists. split; [exact Hk|reflexivity].
Defined.

(** X19: in every state the operator can reach, [firstFullUpdateMade]
    has emitted [true] exactly once if a network pass has ended and has
    emitted nothing otherwise: it is true exactly when a network pass has
    ended. *)
Theorem first_full_update_made_once (DP : nat) (coin : Coin) (o : Operator) :
  reachable DP coin o →
  firstFullUpdateMadeSubject (subjects o)
  = (if decide (passesEnded o = 0%nat) then [] else [true])
  ∧ (value (firstFullUpdateMadeSubject (subjects o)) = true ↔ (0 < passesEnded o)%nat).
Proof.
  intros Hreach. destruct (reachable_flagsOK _ _ _ Hreach) as [_ Hf].
  split; [done|]. rewrite Hf.
  destruct (decide (passesEnded o = 0%nat)) as [E|E]; [rewrite E|]; simpl.
  - split; [done|lia].
  - split; [lia|done].
Qed.

Lemma first_full_update_made_once_witness :
  let o := run 20 Scenario.coin
             [WalletsChanged [Scenario.W]; TimerFired 0%nat; NodeAnswered 0%nat Scenario.node;
              TimerFired 1%nat; NodeAnswered 1%nat Scenario.node]
             (constructor Scenario.coin) in
  passesEnded o = 2%nat ∧ firstFullUpdateMadeSubject (subjects o) = [true].
Proof.
  intros o.
  destruct (first_full_update_made_once 20 Scenario.coin o ltac:(by eexists)) as [H _].
  assert (passesEnded o = 2%nat) as Hp by (by vm_compute).
  split; [exact Hp|]. rewrite H, Hp. done.
Defined.

(** ** The delays of the cycles *)

Lemma start_scheduleOK (coin : Coin) (d : Z) (u : bool) (o : Operator) :
  oneOpen o →
  updatePeriod o = (if isLocal coin then 10 * 1000 else 600 * 1000) →
  errorUpdatePeriod o = (if isLocal coin then 2 * 1000 else 60 * 1000) →
  (d = 0 ∨ (u = false ∧ (d = updatePeriod o ∨ d = errorUpdatePeriod o))) →
  scheduleOK coin (startDataRefreshSubscription d u o).2.
Proof.
  intros Hone Hu He Hd.
  destruct (startDataRefreshSubscription_oneOpen d u o Hone) as (Hshape & _ & Hall & _).
  cbv zeta in Hshape, Hall.
  set (o' := (startDataRefreshSubscription d u o).2) in *.
  assert (updatePeriod o' = updatePeriod o ∧ errorUpdatePeriod o' = errorUpdatePeriod o)
    as [Hu' He'] by (by rewrite Hshape).
  split; [by rewrite Hu'|]. split; [by rewrite He'|].
  intros k d' u' Hk. rewrite Hu', He'.
  destruct (Hall k _ Hk) as [?|[= -> ->]]; done.
Qed.

Lemma step_scheduleOK (DP : nat) (coin : Coin) (o : Operator) (e : Event) :
  Inv o → scheduleOK coin o → scheduleOK coin (step DP coin o e).
Proof.
  intros HI (Hu & He & Hd). pose proof HI as (Hone & _ & _).
  assert (∀ o1 (b : bool), sameSchedule o o1 → oneOpen o1 →
            scheduleOK coin (startDataRefreshSubscription
                               (if b then updatePeriod o1 else errorUpdatePeriod o1) false o1).2)
    as Hcb.
  { intros o1 b (_ & _ & _ & Hs4 & Hs5) Hone1.
    apply start_scheduleOK; [done|by rewrite Hs4|by rewrite Hs5|].
    right. split; [done|]. destruct b; auto. }
  destruct e as [wallets| |k|k node]; simpl.
  - unfold walletsChanged. apply start_scheduleOK; [|done|done|by left].
    intros k p Hk Hne. destruct (Hone k p Hk Hne) as [Hdr _]. by split; [|eexists].
  - unfold refreshBalance. apply start_scheduleOK; [done|done|done|by left].
  - destruct (subscriptions o !! k) as [[d u|tws|]|] eqn:Hk.
    2-4: (unfold timerFired; by rewrite Hk).
    destruct (timerFired_cases DP coin k o d u HI Hk)
      as [(wallets & o3 & w & ws & _ & _ & -> & (Hs1 & _ & _ & Hs4 & Hs5) & _)
         |[(o4 & _ & -> & Hs & Hone4 & _)|(o1 & _ & -> & Hs & Hone1 & _)]].
    + split; [by rewrite <- Hu, <- Hs4|]. split; [by rewrite <- He, <- Hs5|].
      intros k' d' u'. cbn [subscriptions set_subscriptions updatePeriod errorUpdatePeriod].
      destruct (decide (k = k')) as [<-|Hne]; [by rewrite lookup_insert_eq|].
      rewrite lookup_insert_ne, Hs1, Hs4, Hs5 by done. apply Hd.
    + unfold onNext, op_bind, op_modify, op_get. cbn [fst snd].
      by apply (Hcb (set_subjects _ (set_subjects _ o4)) true).
    + unfold onError, op_bind, op_modify, op_get. cbn [fst snd].
      by apply (Hcb (set_subjects _ (set_subjects _ o1)) false).
  - destruct (subscriptions o !! k) as [[d u|tws|]|] eqn:Hk.
    1,3,4: (unfold nodeAnswered; by rewrite Hk).
    pose proof (nodeAnswered_cases DP coin k node o tws HI Hk) as Hc. cbv zeta in Hc.
    destruct (procedure DP coin node tws false o).1.
    + destruct Hc as (o2 & -> & Hs & Hone2 & _).
      unfold onNext, op_bind, op_modify, op_get. cbn [fst snd].
      by apply (Hcb (set_subjects _ (set_subjects _ o2)) true).
    + destruct Hc as (o1 & -> & Hs & Hone1 & _).
      unfold onError, op_bind, op_modify, op_get. cbn [fst snd].
      by apply (Hcb (set_subjects _ (set_subjects _ o1)) false).
Qed.

Lemma reachable_scheduleOK (DP : nat) (coin : Coin) (o : Operator) :
  reachable DP coin o → scheduleOK coin o.
Proof.
  intros [events ->].
  assert (∀ o, Inv o → scheduleOK coin o → scheduleOK coin (run DP coin events o)) as H.
  { induction events as [|e l IH]; intros o HI HS; [done|].
    change (run DP coin (e :: l) o) with (run DP coin l (step DP coin o e)).
    apply IH; [by apply step_Inv|by apply step_scheduleOK]. }
  apply H; [apply constructor_Inv|]. split; [done|]. split; [done|].
  intros k' d' u'. simpl. by rewrite lookup_empty.
Qed.

(** X20: in every state the operator can reach, the periods are the ones
    the constructor chose (10 s and 2 s for a local node, 600 s and 60 s
    otherwise), and a cycle that waits for its timer waits for no time, for
    [updatePeriod] or for [errorUpdatePeriod]; a cycle that begins with a
    pass on the saved data waits for no time. *)
Theorem cycles_wait_for_the_periods (DP : nat) (coin : Coin) (o : Operator)
    (k : loc) (d : Z) (u : bool) :
  reachable DP coin o →
  subscriptions o !! k = Some (Delaying d u) →
  updatePeriod o = (if isLocal coin then 10000 else 600000)
  ∧ errorUpdatePeriod o = (if isLocal coin then 2000 else 60000)
  ∧ (d = 0 ∨ d = updatePeriod o ∨ d = errorUpdatePeriod o)
  ∧ (u = true → d = 0)
  ∧ dataRefreshSubscription o = Some k.
Proof.
  intros Hreach Hk.
  destruct (reachable_scheduleOK _ _ _ Hreach) as (Hu & He & Hd).
  destruct (reachable_Inv _ _ _ Hreach) as (Hone & _ & _).
  destruct (Hone k _ Hk ltac:(done)) as [Hdr _].
  split; [done|]. split; [done|].
  destruct (Hd k d u Hk) as [->|[-> [->| ->]]]; auto.
  - split; [auto|]. split; [done|done].
  - split; [auto|]. split; [done|done].
Qed.

Lemma cycles_wait_for_the_periods_witness :
  let o := run 20 Scenario.coin
             [WalletsChanged [Scenario.W]; TimerFired 0%nat; NodeAnswered 0%nat Scenario.deadNode]
             (constructor Scenario.coin) in
  subscriptions o !! 1%nat = Some (Delaying 2000 false)
  ∧ errorUpdatePeriod o = 2000.
Proof.
  intros o.
  assert (subscriptions o !! 1%nat = Some (Delaying 2000 false)) as Hk by (by vm_compute).
  destruct (cycles_wait_for_the_periods 20 Scenario.coin o 1%nat 2000 false
              ltac:(by eexists) Hk) as (_ & He & _).
  split; [exact Hk|exact He].
Defined.

(** ** How far the conversion is from the exact quotient *)

Lemma roundHalfUp_quotient (a : Z) (p : positive) :
  let m := roundHalfUp (a # p) in
  2 * Z.abs (m * Z.pos p - a) ≤ Z.pos p ∧ (0 ≤ a → 0 ≤ m).
Proof.
  intros m. subst m. unfold roundHalfUp.
  destruct (Qle_bool 0 (a # p)) eqn:E.
  - apply Qle_bool_iff in E. unfold Qle in E. simpl in E.
    unfold Qfloor, Qplus. simpl. rewrite Z.mul_1_l.
    pose proof (Z.div_mod (a * 2 + Z.pos p) (Z.pos (p * 2)) ltac:(done)) as Hdm.
    pose proof (Z.mod_pos_bound (a * 2 + Z.pos p) (Z.pos (p * 2)) ltac:(done)) as Hb.
    split; [|intros _; apply Z.div_pos; lia].
    set (m := (a * 2 + Z.pos p) / Z.pos (p * 2)) in *.
    rewrite Pos2Z.inj_mul in *.
    replace (Z.pos p * 2 * m) with (2 * (m * Z.pos p)) in Hdm by ring. lia.
  - assert (a < 0) as Ha.
    { destruct (Z.lt_ge_cases a 0) as [?|Hge]; [done|].
      assert (Qle_bool 0 (a # p) = true); [|congruence].
      apply Qle_bool_iff. unfold Qle. simpl. lia. }
    unfold Qfloor, Qplus, Qopp. simpl. rewrite Z.mul_1_l.
    pose proof (Z.div_mod (- a * 2 + Z.pos p) (Z.pos (p * 2)) ltac:(done)) as Hdm.
    pose proof (Z.mod_pos_bound (- a * 2 + Z.pos p) (Z.pos (p * 2)) ltac:(done)) as Hb.
    split; [|lia].
    set (m := (- a * 2 + Z.pos p) / Z.pos (p * 2)) in *.
    rewrite Pos2Z.inj_mul in *.
    replace (Z.pos p * 2 * m) with (2 * (m * Z.pos p)) in Hdm by ring.
    replace (- m * Z.pos p) with (- (m * Z.pos p)) by ring. lia.
Qed.

(** X21: the conversion of an integer amount gives the multiple of
    10^-DECIMAL_PLACES nearest to the exact quotient: for the result
    m / 10^DECIMAL_PLACES, twice the distance between m * 10^decimals and
    n * 10^DECIMAL_PLACES is at most 10^decimals; an amount that is not
    negative gives a balance that is not negative. *)
Theorem conversion_rounds_to_nearest (DP : nat) (n : Z) (decimals : nat) :
  ∃ m : Z,
    dividedByPow10 DP (ofZ n) decimals = Some (Q2Qc (inject_Z m / inject_Z (pow10 DP)))
    ∧ 2 * Z.abs (m * pow10 decimals - n * pow10 DP) ≤ pow10 decimals
    ∧ (0 ≤ n → 0 ≤ m).
Proof.
  pose proof (pow10_pos decimals) as H1. pose proof (pow10_pos DP) as H2.
  destruct (pow10 decimals) as [|p|p] eqn:Hp; [lia| |lia].
  assert (this (Qc_of_Z n) * inject_Z (pow10 DP) / inject_Z (Z.pos p)
          == (n * pow10 DP) # p)%Q as Hs.
  { unfold Qc_of_Z, Q2Qc. cbn [this].
    unfold Qeq, Qdiv, Qmult, Qinv, inject_Z. simpl. lia. }
  exists (roundHalfUp ((n * pow10 DP) # p)). split.
  { unfold dividedByPow10, ofZ. rewrite Hp. by rewrite (roundHalfUp_comp _ _ Hs). }
  destruct (roundHalfUp_quotient (n * pow10 DP) p) as [Hb Hn].
  split; [exact Hb|]. intros Hpos. apply Hn. lia.
Qed.

(** ** The saved data after a network pass *)

Lemma nodeAnswered_saved_data (DP : nat) (coin : Coin) (k : loc) (node : Node) (o : Operator)
    (tws : list WalletWithBalance.t) :
  Inv o → subscriptions o !! k = Some (Requesting tws) →
  is_Some (procedure DP coin node tws false o).1 →
  let o' := nodeAnswered DP coin k node o in
  readMap o' (savedBalanceData o') = fetchedData DP coin node tws.
Proof.
  intros (Hone & Hcache & Hreq) Hk Hsome o'. subst o'.
  destruct (Hreq k tws Hk) as [Hne Hempty].
  unfold nodeAnswered. rewrite Hk. unfold deliver, op_bind.
  destruct (procedure_frame DP coin node false tws o) as ((Hm & _ & _) & _).
  pose proof (procedure_network_map DP coin node tws o) as Hmap.
  destruct (onlyMaps_fields _ _ Hm) as (_ & _ & _ & _ & _ & _ & _ & _ & Ht & _).
  destruct (procedure DP coin node tws false o) as [[r|] o1]; cbn [fst snd] in *;
    [|by destruct Hsome].
  destruct (refreshBalances_tap_network_frame r.1 r.2 o1)
    as (Hrun & _ & Hmaps & Hsa2 & _).
  destruct (refreshBalances_tap r.1 r.2 false o1) as [r2 o2]. simpl in Hrun. subst r2.
  cbn [snd] in *.
  destruct (onNext_sameCache o2) as (Hb & Hs & _).
  unfold readMap. rewrite Hs, Hb, Hsa2, Hmaps, Ht.
  fold (readMap o1 (temporalSavedBalanceData o)).
  by rewrite (Hmap o1 r eq_refl), Hempty.
Qed.

Lemma fetchedInto_cons (DP : nat) (coin : Coin) (node : Node) (t : WalletWithBalance.t)
    (l : list WalletWithBalance.t) (m : gmap string WalletBalance.t) :
  fetchedInto DP coin node m (t :: l)
  = fetchedInto DP coin node
      (match (nodeQuery DP coin t node).1 with
       | Some b => <[WalletWithBalance.id t := b]> m
       | None => m
       end) l.
Proof. reflexivity. Qed.

Lemma fetchedInto_other (DP : nat) (coin : Coin) (node : Node) (id : string)
    (l : list WalletWithBalance.t) (m : gmap string WalletBalance.t) :
  id ∉ WalletWithBalance.id <$> l →
  fetchedInto DP coin node m l !! id = m !! id.
Proof.
  revert m; induction l as [|x l IH]; intros m Hx; [done|].
  rewrite fetchedInto_cons.
  change (id ∉ WalletWithBalance.id x :: (WalletWithBalance.id <$> l)) in Hx.
  apply not_elem_of_cons in Hx as [Hne Hx].
  rewrite IH by done.
  destruct (nodeQuery DP coin x node).1; [|done]. by rewrite lookup_insert_ne.
Qed.

Lemma fetchedInto_lookup (DP : nat) (coin : Coin) (node : Node)
    (tws : list WalletWithBalance.t) (m : gmap string WalletBalance.t) :
  (∀ w, w ∈ tws → is_Some (nodeQuery DP coin w node).1) →
  dom (fetchedInto DP coin node m tws) = dom m ∪ list_to_set (WalletWithBalance.id <$> tws)
  ∧ ∀ w, w ∈ tws → NoDup (WalletWithBalance.id <$> tws) →
         fetchedInto DP coin node m tws !! WalletWithBalance.id w = (nodeQuery DP coin w node).1.
Proof.
  revert m; induction tws as [|t tws IH]; intros m Hall.
  - split; [set_solver|]. intros w Hw. by apply not_elem_of_nil in Hw.
  - rewrite fetchedInto_cons.
    destruct (Hall t ltac:(set_solver)) as [b Hb]. rewrite Hb.
    destruct (IH (<[WalletWithBalance.id t := b]> m)) as [IH1 IH2]; [set_solver|].
    split.
    + rewrite IH1, dom_insert_L. set_solver.
    + intros w Hw Hnd.
      change (NoDup (WalletWithBalance.id t :: (WalletWithBalance.id <$> tws))) in Hnd.
      apply list.NoDup_cons in Hnd as [Hnot Hnd].
      apply elem_of_cons in Hw as [->|Hw].
      * rewrite fetchedInto_other by done. by rewrite lookup_insert_eq.
      * by apply IH2.
Qed.

(** X22: after a network pass that does not fail, the saved data has
    exactly the wallets of the pass: one entry per wallet id, holding the
    balance the node gave for the wallet; the entries of wallets that are no
    longer in the list are gone. *)
Theorem saved_data_holds_the_wallets_of_the_pass (DP : nat) (coin : Coin) (o : Operator)
    (k : loc) (tws : list WalletWithBalance.t) (node : Node) :
  reachable DP coin o →
  subscriptions o !! k = Some (Requesting tws) →
  is_Some (procedure DP coin node tws false o).1 →
  let o' := nodeAnswered DP coin k node o in
  dom (readMap o' (savedBalanceData o')) = list_to_set (WalletWithBalance.id <$> tws)
  ∧ (NoDup (WalletWithBalance.id <$> tws) →
     ∀ w, w ∈ tws →
       is_Some (nodeQuery DP coin w node).1
       ∧ readMap o' (savedBalanceData o') !! WalletWithBalance.id w
         = (nodeQuery DP coin w node).1).
Proof.
  intros Hreach Hk Hsome o'.
  pose proof (reachable_Inv _ _ _ Hreach) as HI.
  subst o'. rewrite (nodeAnswered_saved_data DP coin k node o tws HI Hk Hsome).
  assert (∀ w, w ∈ tws → is_Some (nodeQuery DP coin w node).1) as Hall.
  { destruct Hsome as [[signals tws'] Hp].
    destruct (procedure DP coin node tws false o) as [r o1] eqn:E. simpl in Hp. subst r.
    unfold procedure in E. destruct tws as [|t tws0]; [intros w Hw; by apply not_elem_of_nil in Hw|].
    unfold op_bind in E.
    destruct (op_mapM _ (t :: tws0) o) as [[r|] o2] eqn:E'; [|done].
    destruct (op_mapM_network DP coin node (t :: tws0) o o2 r E') as (_ & _ & H).
    intros w [i Hi]%list_elem_of_lookup. destruct (H i w Hi) as (b & Hb & _). by eexists. }
  destruct (fetchedInto_lookup DP coin node tws ∅ Hall) as [H1 H2].
  unfold fetchedData. split.
  - rewrite H1. set_solver.
  - intros Hnd w Hw. split; [by apply Hall|by apply H2].
Qed.

Lemma saved_data_holds_the_wallets_of_the_pass_witness :
  let o := run 20 Scenario.coin [WalletsChanged [Scenario.W]; TimerFired 0%nat]
             (constructor Scenario.coin) in
  let o' := nodeAnswered 20 Scenario.coin 0%nat Scenario.node o in
  dom (readMap o' (savedBalanceData o')) = {[ "W"%string ]}.
Proof.
  intros o o'.
  assert (subscriptions o !! 0%nat
          = Some (Requesting (walletWithBalanceFromBase <$> [Scenario.W]))) as Hk
    by (by vm_compute).
  assert (is_Some (procedure 20 Scenario.coin Scenario.node
                     (walletWithBalanceFromBase <$> [Scenario.W]) false o).1) as Hs.
  { destruct (procedure _ _ _ _ _ _) as [[r|] o1] eqn:E; [by eexists|].
    vm_compute in E. discriminate. }
  destruct (saved_data_holds_the_wallets_of_the_pass 20 Scenario.coin o 0%nat _ Scenario.node
              ltac:(by eexists) Hk Hs) as [H _].
  fold o' in H. rewrite H. set_solver.
Defined.

(** ** A refresh cycle from its timer *)

(** A pass on the saved data publishes its wallets under a new reference
    and leaves the arrays it found. *)
Lemma quick_pass_list (DP : nat) (coin : Coin) (node : Node) (wallets : list WalletBase.t)
    (o : Operator) :
  let o' := (refreshBalances DP coin node wallets true o).2 in
  let l := fresh (dom (arrays o)) in
  ∃ published,
    walletsWithBalanceList o' = Some l
    ∧ arrays o' = <[l := published]> (arrays o)
    ∧ walletsWithBalanceSubject (subjects o') = walletsWithBalanceSubject (subjects o) ++ [Some l]
    ∧ WalletWithBalance.id <$> published = WalletBase.id <$> wallets.
Proof.
  cbv zeta. rewrite refreshBalances_saved_run.
  destruct (procedure_saved_some DP coin node (walletWithBalanceFromBase <$> wallets) o) as [r Hr].
  destruct (procedure_frame DP coin node true (walletWithBalanceFromBase <$> wallets) o)
    as ((Hm & _) & _).
  destruct (procedure DP coin node _ true o) as [[[signals tws']|] o1] eqn:E; simpl in Hr; [|done].
  exists tws'. cbn [fst snd] in *. rewrite refreshBalances_tap_saved. cbn [snd].
  destruct (onlyMaps_fields _ _ Hm) as (Ha & _ & Hsub & _).
  assert (Hrec : ∀ oa, reconcile tws' true oa = updateWholeList tws' oa).
  { intros oa. unfold reconcile, op_bind, op_get. by destruct (walletsWithBalanceList oa). }
  rewrite Hrec, updateWholeList_run. cbv zeta. cbn [snd]. simpl. rewrite Ha, Hsub.
  split; [done|]. split; [done|]. split; [done|].
  apply procedure_ids in E.
  transitivity (WalletWithBalance.id <$> (walletWithBalanceFromBase <$> wallets)).
  - clear -E. induction E as [|w' w l' l [H _] _ IH]; [done|]. by rewrite !fmap_cons, H, IH.
  - rewrite <- list_fmap_compose. by apply list_fmap_ext.
Qed.

(** What the end of the delay of a cycle with wallets leaves to the network
    pass. *)
Lemma timerFired_begins_pass (DP : nat) (coin : Coin) (k : loc) (o : Operator) (d : Z) (u : bool)
    (wallets : list WalletBase.t) :
  Inv o →
  subscriptions o !! k = Some (Delaying d u) →
  savedWalletsList o = Some wallets →
  wallets ≠ [] →
  let o1 := timerFired DP coin k o in
  subscriptions o1 !! k = Some (Requesting (walletWithBalanceFromBase <$> wallets))
  ∧ updatePeriod o1 = updatePeriod o
  ∧ errorUpdatePeriod o1 = errorUpdatePeriod o
  ∧ hadErrorRefreshingBalanceSubject (subjects o1) = hadErrorRefreshingBalanceSubject (subjects o)
  ∧ firstFullUpdateMadeSubject (subjects o1) = firstFullUpdateMadeSubject (subjects o)
  ∧ savedBalanceData o1 = savedBalanceData o
  ∧ cacheKept o o1
  ∧ (u = false →
       walletsWithBalanceList o1 = walletsWithBalanceList o
       ∧ arrays o1 = arrays o
       ∧ walletsWithBalanceSubject (subjects o1) = walletsWithBalanceSubject (subjects o)
       ∧ readMap o1 (savedBalanceData o1) = readMap o (savedBalanceData o))
  ∧ (u = true →
       ∃ l published,
         (l ∉ dom (arrays o))
         ∧ walletsWithBalanceList o1 = Some l
         ∧ arrays o1 = <[l := published]> (arrays o)
         ∧ walletsWithBalanceSubject (subjects o1)
           = walletsWithBalanceSubject (subjects o) ++ [Some l]
         ∧ WalletWithBalance.id <$> published = WalletBase.id <$> wallets).
Proof.
  intros HI Hk Hw Hne o1.
  pose proof (step_keeps_cache DP coin o (TimerFired k) HI) as Hkeep.
  change (step DP coin o (TimerFired k)) with o1 in Hkeep.
  assert (Heq : o1 = timerFired DP coin k o) by done. clearbody o1.
  destruct HI as (Hone & Hcache & Hreq).
  unfold timerFired in Heq. rewrite Hk in Heq.
  destruct (afterDelay_shape DP coin u o wallets Hw)
    as (r & o3 & Hrun & Hs & _ & Herr & Hcases).
  destruct (walletWithBalanceFromBase <$> wallets) as [|w ws] eqn:Htws;
    [by destruct wallets|].
  destruct Hcases as (-> & Hp & Hf).
  assert (Hrun' := Hrun). rewrite Hrun in Heq.
  destruct (Hkeep ltac:(by rewrite Heq)) as [Hsa Hkept].
  destruct Hs as (_ & _ & _ & Hu & He).
  split; [by rewrite Heq; cbn; rewrite lookup_insert_eq|].
  split; [by rewrite Heq|]. split; [by rewrite Heq|].
  split; [by rewrite Heq|]. split; [by rewrite Heq|].
  split; [done|]. split; [done|].
  unfold afterDelay, op_bind at 1, op_modify at 1 in Hrun'.
  unfold op_bind at 1, op_get at 1 in Hrun'.
  set (oa := set_subjects (next_refreshingBalance true (subjects o)) o) in *.
  change (savedWalletsList oa) with (savedWalletsList o) in Hrun'. rewrite Hw in Hrun'.
  unfold op_bind at 1 in Hrun'.
  split.
  - intros ->. unfold op_ret at 1 in Hrun'. unfold op_bind at 1 in Hrun'.
    destruct (cacheOK_begin wallets oa Hcache) as (Hb1 & _ & _ & Hb4 & _ & _ & Hb7 & Hb8 & Hb9 & Hb10).
    cbv zeta in *.
    destruct (refreshBalances_begin wallets false oa) as [r ob]. simpl in Hb1. subst r.
    cbn [snd] in *. rewrite Htws in Hrun'. unfold op_ret in Hrun'. injection Hrun' as <-.
    subst o1. cbn. rewrite Hb8, Hb9, Hb10. split; [done|]. split; [done|]. split; [done|].
    exact Hb7.
  - intros ->.
    destruct (quick_pass_frame DP coin noNode wallets oa) as (o2 & Hq & _).
    destruct (quick_pass_list DP coin noNode wallets oa) as (published & Hl1 & Hl2 & Hl3 & Hl4).
    cbv zeta in *. rewrite Hq in Hrun', Hl1, Hl2, Hl3. cbn [snd] in *.
    unfold op_bind at 1 in Hrun'.
    assert (∃ ob, refreshBalances_begin wallets false o2
                  = (Some (walletWithBalanceFromBase <$> wallets), ob)
                  ∧ arrays ob = arrays o2 ∧ walletsWithBalanceList ob = walletsWithBalanceList o2
                  ∧ subjects ob = subjects o2) as (ob & Hb & Hb8 & Hb9 & Hb10).
    { eexists. split; [reflexivity|]. by repeat split. }
    rewrite Hb, Htws in Hrun'. unfold op_ret in Hrun'. injection Hrun' as <-.
    exists (fresh (dom (arrays o))), published.
    split; [apply is_fresh|]. subst o1. cbn. rewrite Hb8, Hb9, Hb10. done.
Qed.

(** C3: a refresh cycle with wallets, from the end of its delay to the
    answers of the node. After a failed request the error flag is emitted
    as true and the next cycle waits for [errorUpdatePeriod] (the shorter
    period); the network pass changes neither the published list, nor the
    arrays, nor the saved data, which are as they were when the node was
    asked. For a cycle that does not begin with a pass on the saved data
    that is as before the cycle; a cycle started by a new wallet list has
    by then published, under a new reference, a list with the wallets of
    the new list, and the saved data has kept its reference and its
    entries (an entry it gained is a zero balance). After a pass without
    failure the flag is emitted as false, the saved data is the map of the
    balances just fetched, [firstFullUpdateMade] is true and is emitted
    only if it was false, and the next cycle waits for [updatePeriod]. *)
Theorem network_pass_outcome (DP : nat) (coin : Coin) (o : Operator) (k : loc) (d : Z) (u : bool)
    (wallets : list WalletBase.t) (node : Node) :
  reachable DP coin o →
  subscriptions o !! k = Some (Delaying d u) →
  savedWalletsList o = Some wallets →
  wallets ≠ [] →
  let o1 := timerFired DP coin k o in
  let tws := walletWithBalanceFromBase <$> wallets in
  let result := (procedure DP coin node tws false o1).1 in
  let o2 := nodeAnswered DP coin k node o1 in
  subscriptions o1 !! k = Some (Requesting tws)
  ∧ errorUpdatePeriod o < updatePeriod o
  ∧ (result = None →
       hadErrorRefreshingBalanceSubject (subjects o2)
       = hadErrorRefreshingBalanceSubject (subjects o) ++ [true]
       ∧ (∃ k', dataRefreshSubscription o2 = Some k'
                ∧ subscriptions o2 !! k' = Some (Delaying (errorUpdatePeriod o) false))
       ∧ firstFullUpdateMadeSubject (subjects o2) = firstFullUpdateMadeSubject (subjects o)
       ∧ savedBalanceData o2 = savedBalanceData o
       ∧ cacheKept o o2
       ∧ (walletsWithBalanceList o2 = walletsWithBalanceList o1
          ∧ arrays o2 = arrays o1
          ∧ walletsWithBalanceSubject (subjects o2) = walletsWithBalanceSubject (subjects o1)
          ∧ readMap o2 (savedBalanceData o2) = readMap o1 (savedBalanceData o1))
       ∧ (u = false →
            walletsWithBalanceList o2 = walletsWithBalanceList o
            ∧ arrays o2 = arrays o
            ∧ walletsWithBalanceSubject (subjects o2) = walletsWithBalanceSubject (subjects o)
            ∧ readMap o2 (savedBalanceData o2) = readMap o (savedBalanceData o))
       ∧ (u = true →
            ∃ l published,
              (l ∉ dom (arrays o))
              ∧ walletsWithBalanceList o2 = Some l
              ∧ arrays o2 = <[l := published]> (arrays o)
              ∧ walletsWithBalanceSubject (subjects o2)
                = walletsWithBalanceSubject (subjects o) ++ [Some l]
              ∧ WalletWithBalance.id <$> published = WalletBase.id <$> wallets))
  ∧ (result ≠ None →
       hadErrorRefreshingBalanceSubject (subjects o2)
       = hadErrorRefreshingBalanceSubject (subjects o) ++ [false]
       ∧ (∃ k', dataRefreshSubscription o2 = Some k'
                ∧ subscriptions o2 !! k' = Some (Delaying (updatePeriod o) false))
       ∧ savedBalanceData o2 = temporalSavedBalanceData o1
       ∧ savedBalanceData o2 ≠ savedBalanceData o
       ∧ readMap o2 (savedBalanceData o2) = fetchedData DP coin node tws
       ∧ value (firstFullUpdateMadeSubject (subjects o2)) = true
       ∧ firstFullUpdateMadeSubject (subjects o2)
         = (if value (firstFullUpdateMadeSubject (subjects o))
            then firstFullUpdateMadeSubject (subjects o)
            else firstFullUpdateMadeSubject (subjects o) ++ [true])).
Proof.
  intros Hreach Hk Hw Hne o1 tws result o2.
  pose proof (reachable_Inv _ _ _ Hreach) as HI.
  assert (HI1 : Inv o1) by (by apply (step_Inv DP coin o (TimerFired k))).
  destruct (timerFired_begins_pass DP coin k o d u wallets HI Hk Hw Hne)
    as (Hk1 & Hu & He & Herr & Hff & Hsa & Hkept & Hplain & Hquick).
  fold o1 in Hk1, Hu, He, Herr, Hff, Hsa, Hkept, Hplain, Hquick. fold tws in Hk1.
  destruct (nodeAnswered_outcome DP coin o1 k tws node HI1 Hk1) as (Hper & Hfail & Hok).
  fold result o2 in Hfail, Hok.
  split; [exact Hk1|]. split; [by rewrite <- Hu, <- He|]. split.
  - intros Hres.
    destruct (Hfail Hres) as (F1 & F2 & F3 & F4 & F5 & F6 & F7 & F8).
    split; [by rewrite F1, Herr|]. split; [by rewrite <- He|].
    split; [by rewrite F8|]. split; [by rewrite F6|].
    split.
    { assert (readMap o2 (savedBalanceData o) = readMap o1 (savedBalanceData o)) as E.
      { rewrite <- Hsa. rewrite <- F6 at 1. exact F7. }
      intros id. rewrite E. apply Hkept. }
    split; [done|]. split.
    + intros Hu0. destruct (Hplain Hu0) as (P1 & P2 & P3 & P4).
      by rewrite F3, F4, F5, F7.
    + intros Hu1. destruct (Hquick Hu1) as (l & published & Q1 & Q2 & Q3 & Q4 & Q5).
      exists l, published. by rewrite F3, F4, F5.
  - intros Hres.
    destruct (Hok Hres) as (S1 & S2 & S3 & S4 & S5 & S6).
    split; [by rewrite S1, Herr|]. split; [by rewrite <- Hu|].
    split; [done|]. split.
    { destruct HI1 as (_ & _ & Hreq1). destruct (Hreq1 k tws Hk1) as [Hn _].
      rewrite S3, <- Hsa. congruence. }
    split; [done|]. split; [done|]. by rewrite S6, Hff.
Qed.

Lemma network_pass_outcome_witness :
  let o := walletsChanged [Scenario.W] (constructor Scenario.coin) in
  let o1 := timerFired 20 Scenario.coin 0%nat o in
  let o2 := nodeAnswered 20 Scenario.coin 0%nat Scenario.deadNode o1 in
  subscriptions o !! 0%nat = Some (Delaying 0 true)
  ∧ (procedure 20 Scenario.coin Scenario.deadNode (walletWithBalanceFromBase <$> [Scenario.W])
       false o1).1 = None
  ∧ hadErrorRefreshingBalanceSubject (subjects o2) = [true]
  ∧ savedBalanceData o2 = savedBalanceData o
  ∧ ∃ l published, walletsWithBalanceList o2 = Some l
                   ∧ arrays o2 = <[l := published]> (arrays o)
                   ∧ WalletWithBalance.id <$> published = ["W"%string].
Proof.
  intros o o1 o2.
  assert (Hreach : reachable 20 Scenario.coin o) by (by exists [WalletsChanged [Scenario.W]]).
  assert (Hsub : subscriptions o !! 0%nat = Some (Delaying 0 true)) by reflexivity.
  assert (Hw : savedWalletsList o = Some [Scenario.W]) by reflexivity.
  assert (Hfail : (procedure 20 Scenario.coin Scenario.deadNode
                     (walletWithBalanceFromBase <$> [Scenario.W]) false o1).1 = None)
    by (vm_compute; reflexivity).
  split; [exact Hsub|]. split; [exact Hfail|].
  destruct (network_pass_outcome 20 Scenario.coin o 0%nat 0 true [Scenario.W] Scenario.deadNode
              Hreach Hsub Hw ltac:(discriminate)) as (_ & _ & Hf & _).
  destruct (Hf Hfail) as (H1 & _ & _ & H4 & _ & _ & _ & H8).
  destruct (H8 eq_refl) as (l & published & _ & Hl & Ha & _ & Hids).
  split; [exact H1|]. split; [exact H4|].
  exists l, published. split; [exact Hl|]. split; [exact Ha | exact Hids].
Defined.

Ltac same_numbers :=
  repeat match goal with
         | |- @eq Qc _ _ => apply Qc_is_canon; reflexivity
         | |- Some _ = Some _ => f_equal
         | |- _ :: _ = _ :: _ => f_equal
         end.

(** A cycle started by a new wallet list whose network pass fails: the
    list is published again, under a new reference and with other balances
    for the addresses, and the saved data gains an entry. *)
Lemma failed_cycle_changes_list_counterexample :
  let o := run 20 Scenario.coin
             [WalletsChanged [Scenario.W]; TimerFired 0%nat; NodeAnswered 0%nat Scenario.node;
              WalletsChanged [Scenario.W'; Examples.V]]
             (constructor Scenario.coin) in
  let o1 := timerFired 20 Scenario.coin 2%nat o in
  let o2 := nodeAnswered 20 Scenario.coin 2%nat Scenario.deadNode o1 in
  subscriptions o !! 2%nat = Some (Delaying 0 true)
  ∧ (∃ tws, subscriptions o1 !! 2%nat = Some (Requesting tws)
            ∧ (procedure 20 Scenario.coin Scenario.deadNode tws false o1).1 = None)
  ∧ value (hadErrorRefreshingBalanceSubject (subjects o2)) = true
  ∧ walletsWithBalanceList o = Some 0%nat
  ∧ walletsWithBalanceList o2 = Some 1%nat
  ∧ (λ w, AddressWithBalance.coins <$> WalletWithBalance.addresses w) <$> readArray o 0%nat
    = [[ofZ 5; ofZ 4]]
  ∧ (λ w, AddressWithBalance.coins <$> WalletWithBalance.addresses w) <$> readArray o2 1%nat
    = [[ofZ 5; ofZ 0]; [ofZ 0]]
  ∧ walletsWithBalanceSubject (subjects o2)
    = walletsWithBalanceSubject (subjects o) ++ [Some 1%nat]
  ∧ savedBalanceData o2 = savedBalanceData o
  ∧ readMap o (savedBalanceData o) !! "V"%string = None
  ∧ readMap o2 (savedBalanceData o2) !! "V"%string = Some WalletBalance.new.
Proof.
  intros o o1 o2.
  split; [vm_compute; reflexivity|].
  split. { eexists. split; [vm_compute; reflexivity|]. vm_compute. reflexivity. }
  split; [vm_compute; reflexivity|].
  split; [vm_compute; reflexivity|].
  split; [vm_compute; reflexivity|].
  split. { vm_compute. same_numbers. }
  split. { vm_compute. same_numbers. }
  split; [vm_compute; reflexivity|].
  split; [vm_compute; reflexivity|].
  split; [vm_compute; reflexivity|].
  vm_compute. reflexivity.
Qed.

(** ** The saved data in the passes that follow a network pass *)

(** The number of the network passes that have ended never goes down. *)
Lemma step_passes_mono (DP : nat) (coin : Coin) (o : Operator) (e : Event) :
  Inv o → (passesEnded o ≤ passesEnded (step DP coin o e))%nat.
Proof.
  intros HI. destruct e as [wallets| |k|k node]; simpl.
  - destruct (startDataRefreshSubscription_sameCache 0 true
                (set_savedWalletsList (Some wallets) o)) as (_ & _ & _ & H).
    unfold walletsChanged. rewrite H. simpl. lia.
  - destruct (startDataRefreshSubscription_sameCache 0 false o) as (_ & _ & _ & H).
    unfold refreshBalance. rewrite H. lia.
  - destruct (subscriptions o !! k) as [[d u|tws|]|] eqn:Hk;
      try (unfold timerFired; rewrite Hk; lia).
    destruct (timerFired_cases DP coin k o d u HI Hk)
      as [(wallets & o3 & w & ws & _ & _ & -> & _ & H)
         |[(o4 & _ & -> & _ & _ & H)|(o1 & _ & -> & _ & _ & H)]].
    + simpl. lia.
    + destruct (onNext_sameCache o4) as (_ & _ & _ & H'). rewrite H'. lia.
    + destruct (onError_sameCache o1) as (_ & _ & _ & H'). rewrite H'. lia.
  - destruct (subscriptions o !! k) as [[d u|tws|]|] eqn:Hk;
      try (unfold nodeAnswered; rewrite Hk; lia).
    pose proof (nodeAnswered_cases DP coin k node o tws HI Hk) as H. cbv zeta in H.
    destruct (procedure DP coin node tws false o).1.
    + destruct H as (o2 & -> & _ & _ & H).
      destruct (onNext_sameCache o2) as (_ & _ & _ & H'). rewrite H'. lia.
    + destruct H as (o1 & -> & _ & _ & H).
      destruct (onError_sameCache o1) as (_ & _ & _ & H'). rewrite H'. lia.
Qed.

Lemma run_passes_mono (DP : nat) (coin : Coin) (events : list Event) (o : Operator) :
  Inv o → (passesEnded o ≤ passesEnded (run DP coin events o))%nat.
Proof.
  revert o. induction events as [|e events IH]; intros o HI; [done|].
  change (run DP coin (e :: events) o) with (run DP coin events (step DP coin o e)).
  pose proof (step_passes_mono DP coin o e HI).
  pose proof (IH _ (step_Inv DP coin o e HI)). lia.
Qed.

(** While no network pass ends, the saved data keeps its reference and its
    entries. *)
Lemma run_keeps_cache (DP : nat) (coin : Coin) (events : list Event) (o : Operator) :
  Inv o →
  passesEnded (run DP coin events o) = passesEnded o →
  savedBalanceData (run DP coin events o) = savedBalanceData o
  ∧ cacheKept o (run DP coin events o).
Proof.
  revert o. induction events as [|e events IH]; intros o HI Hp.
  - split; [done|apply cacheKept_refl].
  - change (run DP coin (e :: events) o) with (run DP coin events (step DP coin o e)) in *.
    pose proof (step_passes_mono DP coin o e HI) as H1.
    pose proof (run_passes_mono DP coin events _ (step_Inv DP coin o e HI)) as H2.
    destruct (step_keeps_cache DP coin o e HI ltac:(lia)) as [Hs Hk].
    destruct (IH _ (step_Inv DP coin o e HI) ltac:(lia)) as [Hs' Hk'].
    split; [congruence|]. by eapply cacheKept_trans.
Qed.

(** One wallet of a pass on the saved data, by the entry of the wallet. *)
Lemma retrieveWalletBalance_entry (DP : nat) (coin : Coin) (node : Node)
    (w : WalletWithBalance.t) (o : Operator) :
  ∃ signal w',
    (retrieveWalletBalance DP coin node w true o).1 = Some (signal, w')
    ∧ match readMap o (savedBalanceData o) !! WalletWithBalance.id w with
      | None =>
          WalletWithBalance.coins w' = zero
          ∧ ∀ a, a ∈ WalletWithBalance.addresses w' → AddressWithBalance.coins a = zero
      | Some b =>
          WalletWithBalance.coins w' = WalletBalance.predicted b
          ∧ WalletWithBalance.addresses w'
            = (λ a, AddressWithBalance.set_coins
                      (match WalletBalance.addresses b !! Some (AddressWithBalance.address a) with
                       | Some ab => AddressBalance.predicted ab
                       | None => zero
                       end) a) <$> WalletWithBalance.addresses w
      end.
Proof.
  rewrite retrieveWalletBalance_saved. cbv zeta. cbn [fst].
  eexists _, _. split; [reflexivity|].
  destruct (readMap o (savedBalanceData o) !! WalletWithBalance.id w) as [b|].
  - split; [done|]. unfold addValues. simpl. apply list_fmap_ext. intros i a _.
    by destruct (WalletBalance.addresses b !! Some (AddressWithBalance.address a)).
  - split; [done|]. intros a Ha. unfold addValues in Ha. simpl in Ha.
    apply list_elem_of_fmap in Ha as (a0 & -> & _). by rewrite lookup_empty.
Qed.

(** C5: in a pass on the saved data a wallet with no entry gets zero for
    itself and for its addresses, and a wallet with an entry gets the
    predicted balances of the entry; a step that does not end a network pass
    keeps the reference of the saved data and its entries (an entry it adds
    is a zero balance); before any network pass has ended, a pass on the
    saved data publishes zero for every wallet and address; and after a
    network pass without failure, until the next network pass ends, a pass
    on the saved data gives a wallet the predicted balances that network
    pass fetched for its id (for a wallet of the pass: what the node
    answered for it), and zero to a wallet that was not in that pass. *)
Theorem cache_fallback (DP : nat) (coin : Coin) (node : Node) (o : Operator) :
  reachable DP coin o →
  (∀ w, ∃ signal w',
      (retrieveWalletBalance DP coin node w true o).1 = Some (signal, w')
      ∧ match readMap o (savedBalanceData o) !! WalletWithBalance.id w with
        | None =>
            WalletWithBalance.coins w' = zero
            ∧ ∀ a, a ∈ WalletWithBalance.addresses w' → AddressWithBalance.coins a = zero
        | Some b =>
            WalletWithBalance.coins w' = WalletBalance.predicted b
            ∧ WalletWithBalance.addresses w'
              = (λ a, AddressWithBalance.set_coins
                        (match WalletBalance.addresses b !! Some (AddressWithBalance.address a) with
                         | Some ab => AddressBalance.predicted ab
                         | None => zero
                         end) a) <$> WalletWithBalance.addresses w
        end)
  ∧ (∀ e, lastBalancesUpdateTimeSubject (subjects (step DP coin o e))
          = lastBalancesUpdateTimeSubject (subjects o) →
          savedBalanceData (step DP coin o e) = savedBalanceData o
          ∧ cacheKept o (step DP coin o e))
  ∧ (lastBalancesUpdateTimeSubject (subjects o) = 0%nat →
     ∀ wallets,
       let o' := (refreshBalances DP coin node wallets true o).2 in
       ∃ l, walletsWithBalanceList o' = Some l
            ∧ readArray o' l = walletWithBalanceFromBase <$> wallets
            ∧ ∀ w, w ∈ readArray o' l →
                WalletWithBalance.coins w = zero
                ∧ ∀ a, a ∈ WalletWithBalance.addresses w → AddressWithBalance.coins a = zero)
  ∧ (∀ k tws net events,
       subscriptions o !! k = Some (Requesting tws) →
       (procedure DP coin net tws false o).1 ≠ None →
       let o1 := nodeAnswered DP coin k net o in
       let o2 := run DP coin events o1 in
       passesEnded o2 = passesEnded o1 →
       (∀ t, t ∈ tws → NoDup (WalletWithBalance.id <$> tws) →
             fetchedData DP coin net tws !! WalletWithBalance.id t = (nodeQuery DP coin t net).1
             ∧ is_Some (nodeQuery DP coin t net).1)
       ∧ ∀ w, ∃ signal w',
           (retrieveWalletBalance DP coin node w true o2).1 = Some (signal, w')
           ∧ match fetchedData DP coin net tws !! WalletWithBalance.id w with
             | None =>
                 WalletWithBalance.coins w' = zero
                 ∧ ∀ a, a ∈ WalletWithBalance.addresses w' → AddressWithBalance.coins a = zero
             | Some b =>
                 WalletWithBalance.coins w' = WalletBalance.predicted b
                 ∧ WalletWithBalance.addresses w'
                   = (λ a, AddressWithBalance.set_coins
                             (match WalletBalance.addresses b
                                    !! Some (AddressWithBalance.address a) with
                              | Some ab => AddressBalance.predicted ab
                              | None => zero
                              end) a) <$> WalletWithBalance.addresses w
             end).
Proof.
  intros Hreach. pose proof (reachable_Inv _ _ _ Hreach) as HInv.
  split; [|split; [|split]].
  - intros w. apply retrieveWalletBalance_entry.
  - intros e. by apply step_keeps_cache.
  - intros Hcount wallets o'.
    destruct HInv as (_ & (_ & _ & Hfirst & _) & _). destruct (Hfirst Hcount) as [Hempty Hne].
    destruct (quick_pass_publishes DP coin node wallets o) as (r & Hr & Hl & Harr).
    fold o' in Hl, Harr.
    assert (Hr2 : r.2 = walletWithBalanceFromBase <$> wallets).
    { destruct (procedure_saved_empty DP coin node wallets o Hempty Hne) as [signals Hs].
      rewrite Hs in Hr. by injection Hr as <-. }
    exists (fresh (dom (arrays o))). split; [exact Hl|]. rewrite Harr, Hr2. split; [done|].
    intros w Hw. apply list_elem_of_fmap in Hw as (base & -> & _). split; [done|].
    intros a Ha. simpl in Ha. apply list_elem_of_fmap in Ha as (a0 & -> & _). done.
  - intros k tws net events Hk Hres o1 o2 Hp.
    assert (Hsome : is_Some (procedure DP coin net tws false o).1).
    { by destruct (procedure DP coin net tws false o).1; [eexists|]. }
    pose proof (nodeAnswered_saved_data DP coin k net o tws HInv Hk Hsome) as Hdata.
    fold o1 in Hdata.
    assert (HI1 : Inv o1) by (by apply (step_Inv DP coin o (NodeAnswered k net))).
    destruct (run_keeps_cache DP coin events o1 HI1 Hp) as [Hsa Hkept]. fold o2 in Hsa, Hkept.
    assert (∀ t, t ∈ tws → is_Some (nodeQuery DP coin t net).1) as Hall.
    { destruct Hsome as [[signals tws'] Hpr].
      destruct (procedure DP coin net tws false o) as [r oa] eqn:E. simpl in Hpr. subst r.
      unfold procedure in E.
      destruct tws as [|t0 tws0]; [intros t Ht; by apply not_elem_of_nil in Ht|].
      unfold op_bind in E.
      destruct (op_mapM _ (t0 :: tws0) o) as [[r|] ob] eqn:E'; [|done].
      destruct (op_mapM_network DP coin net (t0 :: tws0) o ob r E') as (_ & _ & H).
      intros t [i Hi]%list_elem_of_lookup. destruct (H i t Hi) as (b & Hb & _). by eexists. }
    split.
    { intros t Ht Hnd. split; [|by apply Hall].
      destruct (fetchedInto_lookup DP coin net tws ∅ Hall) as [_ H2]. by apply H2. }
    intros w. destruct (retrieveWalletBalance_entry DP coin node w o2) as (signal & w' & Hr & Hm).
    exists signal, w'. split; [exact Hr|].
    rewrite Hsa in Hm. specialize (Hkept w.(WalletWithBalance.id)). rewrite Hdata in Hkept.
    destruct Hkept as [E|[E1 E2]].
    + by rewrite E in Hm.
    + rewrite E1. rewrite E2 in Hm. destruct Hm as [Hc Ha]. split; [done|].
      intros a Hin. rewrite Ha in Hin. apply list_elem_of_fmap in Hin as (a0 & -> & _).
      simpl. by rewrite lookup_empty.
Qed.

Lemma cache_fallback_witness :
  let o := run 20 Scenario.coin [WalletsChanged [Scenario.W]; TimerFired 0%nat]
             (constructor Scenario.coin) in
  let o2 := run 20 Scenario.coin [WalletsChanged [Scenario.W']]
              (nodeAnswered 20 Scenario.coin 0%nat Scenario.node o) in
  ∃ signal w',
    (retrieveWalletBalance 20 Scenario.coin noNode (walletWithBalanceFromBase Scenario.W') true o2).1
    = Some (signal, w')
    ∧ WalletWithBalance.coins w' = ofZ 9
    ∧ AddressWithBalance.coins <$> WalletWithBalance.addresses w' = [ofZ 5; ofZ 0].
Proof.
  intros o o2.
  assert (Hreach : reachable 20 Scenario.coin o) by (by eexists).
  destruct (cache_fallback 20 Scenario.coin noNode o Hreach) as (_ & _ & _ & H).
  destruct (H 0%nat (walletWithBalanceFromBase <$> [Scenario.W]) Scenario.node
              [WalletsChanged [Scenario.W']]) as [_ Hw].
  - vm_compute. reflexivity.
  - vm_compute. discriminate.
  - vm_compute. reflexivity.
  - destruct (Hw (walletWithBalanceFromBase Scenario.W')) as (signal & w' & Hr & Hm).
    exists signal, w'. split; [exact Hr|].
    destruct (fetchedData 20 Scenario.coin Scenario.node
                (walletWithBalanceFromBase <$> [Scenario.W])
                !! WalletWithBalance.id (walletWithBalanceFromBase Scenario.W')) as [b|] eqn:E;
      vm_compute in E; [|discriminate].
    injection E as <-. destruct Hm as [-> ->]. split.
    + vm_compute. f_equal. apply Qc_is_canon. reflexivity.
    + vm_compute. same_numbers.
Defined.
